(** * Nutrition estimator: quantity parsing, gram conversion, name resolution
      and nutrition aggregation

    A shallow embedding of the JavaScript services
    [quantityStandardizer.js], [ingredientMapper.js], [nutritionCalculator.js],
    [errorHandler.js], [recipeFetcher.js] (the part that works without the
    text generator) and [dishClassifier.js], and of the script
    [processNutritionData.js] that prepares the nutrition table, followed by
    the properties of the ingredient resolution and quantity normalisation
    pipeline.

    Modelling conventions.
    - A JavaScript number is an IEEE-754 binary64 value, [spec_float] at
      precision 53 and maximal exponent 1024, with the round-to-nearest-even
      operations of the standard library's [SpecFloat].
    - A JavaScript string is a [string] whose characters are Latin-1 code
      units; characters outside that range are not modelled.
    - A JSON object used as a dictionary is a [gmap] keyed by strings. Where
      the key comes from the input, the lookup also finds the properties
      that every object inherits from [Object.prototype].
    - A thrown exception is the [Throw] outcome of a small error monad and
      carries the [message] of the error object.
    - Console output is not modelled.
    - Of the event loop only the order in which the callbacks of
      [calculateNutrition] finish is modelled; it is a parameter. *)

From Stdlib Require Import ZArith Bool List Ascii String Lia SpecFloat Sorted.
From stdpp Require Import gmap strings.

Open Scope string_scope.
Open Scope Z_scope.

#[local] Arguments String.append !_ _ / : simpl nomatch.

(* ===================================================================== *)
(** ** JavaScript numbers *)
(* ===================================================================== *)

Module Num.

Definition prec : Z := 53.
Definition emax : Z := 1024.

Abbreviation num := spec_float.

Definition NaN : num := S754_nan.
Definition Infinity : num := S754_infinity false.
Definition zero : num := S754_zero false.

Definition add : num -> num -> num := SFadd prec emax.
Definition mul : num -> num -> num := SFmul prec emax.
Definition div : num -> num -> num := SFdiv prec emax.

(** [x < y] and [x > y]; both are false as soon as one side is [NaN]. *)
Definition lt (x y : num) : bool := SFltb x y.
Definition gt (x y : num) : bool := SFltb y x.
Definition le (x y : num) : bool := SFleb x y.

(** The number nearest to the integer [z]. *)
Definition ofZ (z : Z) : num := binary_normalize prec emax z 0 false.

(** The number nearest to [m * 10 ^ e10] for a natural [m]: the value of a
    decimal literal with digits [m] and decimal exponent [e10]. *)
Definition decimal (m e10 : Z) : num :=
  match m with
  | Zpos _ =>
      if 0 <=? e10 then binary_normalize prec emax (m * 10 ^ e10) 0 false
      else
        let '(q, e, l) := SFdiv_core_binary prec emax m 0 (10 ^ (- e10)) 0 in
        binary_round_aux prec emax false q e l
  | _ => zero
  end.

Definition neg (x : num) : num := SFopp x.

(** [isNaN(x)] on a number. *)
Definition isNaN (x : num) : bool :=
  match x with S754_nan => true | _ => false end.

(** [ToBoolean] on a number: [0], [-0] and [NaN] are falsy. *)
Definition truthy (x : num) : bool :=
  match x with S754_nan | S754_zero _ => false | _ => true end.

(** [x || y] on numbers. *)
Definition or (x y : num) : num := if truthy x then x else y.

(** [Number.isFinite]. *)
Definition isFinite (x : num) : bool :=
  match x with S754_zero _ | S754_finite _ _ _ => true | _ => false end.

(** [Math.round]: the nearest integer, ties towards plus infinity; a result
    of magnitude zero keeps the sign of the argument. *)
Definition round (x : num) : num :=
  match x with
  | S754_finite s m e =>
      if 0 <=? e then x
      else
        let d := 2 ^ (- e) in
        let sm := if s then Z.neg m else Z.pos m in
        let n := (2 * sm + d) / (2 * d) in
        if n =? 0 then S754_zero s else ofZ n
  | _ => x
  end.

(** [Math.max] of two numbers. *)
Definition max (x y : num) : num :=
  match x, y with
  | S754_nan, _ | _, S754_nan => S754_nan
  | S754_zero sx, S754_zero sy => S754_zero (sx && sy)
  | _, _ => if lt x y then y else x
  end.

(** The sign bit is clear or the value is [NaN]: the number does not compare
    below zero and is not [-0]. *)
Definition nonneg (x : num) : bool :=
  match x with
  | S754_nan => true
  | S754_zero s | S754_infinity s | S754_finite s _ _ => negb s
  end.

End Num.

Import Num.

Declare Scope num_scope.
Delimit Scope num_scope with num.
Infix "+" := Num.add : num_scope.
Infix "*" := Num.mul : num_scope.
Infix "/" := Num.div : num_scope.
Infix "||" := Num.or : num_scope.

(* ===================================================================== *)
(** ** JavaScript strings *)
(* ===================================================================== *)

Module Str.

Definition code (c : ascii) : Z := Z.of_N (N_of_ascii c).

Definition inRange (lo hi : Z) (c : ascii) : bool :=
  (lo <=? code c) && (code c <=? hi).

(** [\d] *)
Definition isDigit (c : ascii) : bool := inRange 48 57 c.

(** [[a-zA-Z]] *)
Definition isAlpha (c : ascii) : bool := inRange 65 90 c || inRange 97 122 c.

(** [\w] *)
Definition isWord (c : ascii) : bool :=
  isAlpha c || isDigit c || (code c =? 95).

(** [\s], which is also what [trim] removes: tab, line feed, vertical tab,
    form feed, carriage return, space and no-break space. *)
Definition isSpace (c : ascii) : bool :=
  inRange 9 13 c || (code c =? 32) || (code c =? 160).

Definition isUpper (c : ascii) : bool :=
  inRange 65 90 c || (inRange 192 222 c && negb (code c =? 215)).

Definition lowerChar (c : ascii) : ascii :=
  if isUpper c then ascii_of_N (N_of_ascii c + 32) else c.

Definition upperChar (c : ascii) : ascii :=
  if inRange 97 122 c then ascii_of_N (N_of_ascii c - 32) else c.

Fixpoint toLowerCase (s : string) : string :=
  match s with
  | EmptyString => EmptyString
  | String c s' => String (lowerChar c) (toLowerCase s')
  end.

Fixpoint trimStart (s : string) : string :=
  match s with
  | String c s' => if isSpace c then trimStart s' else s
  | EmptyString => EmptyString
  end.

Fixpoint trimEnd (s : string) : string :=
  match s with
  | String c s' =>
      match trimEnd s' with
      | EmptyString => if isSpace c then EmptyString else String c EmptyString
      | t => String c t
      end
  | EmptyString => EmptyString
  end.

Definition trim (s : string) : string := trimEnd (trimStart s).

(** [s.includes(sub)] *)
Fixpoint includes (sub s : string) : bool :=
  String.prefix sub s ||
  match s with
  | String _ s' => includes sub s'
  | EmptyString => false
  end.

(** [s.split(sep)] for a one-character separator; the result always has a
    first element. *)
Fixpoint split (sep : ascii) (s : string) : string * list string :=
  match s with
  | EmptyString => (EmptyString, [])
  | String c s' =>
      let '(p, ps) := split sep s' in
      if Ascii.eqb c sep then (EmptyString, p :: ps) else (String c p, ps)
  end.

(** The first [length s - length s'] characters of [s]: what a matcher that
    went from [s] to its suffix [s'] has consumed. *)
Fixpoint firstn (n : nat) (s : string) : string :=
  match n, s with
  | S n', String c s' => String c (firstn n' s')
  | _, _ => EmptyString
  end.

Definition consumed (s s' : string) : string :=
  firstn (String.length s - String.length s') s.

End Str.

Import Str.

(* ===================================================================== *)
(** ** Number parsing: [parseFloat] and [parseInt] *)
(* ===================================================================== *)

Module Parse.

Definition digitVal (c : ascii) : Z := code c - 48.

(** Reads the longest run of decimal digits at the head of [s]; [acc] is the
    value and [n] the count of the digits read so far. *)
Fixpoint takeDigits (s : string) (acc n : Z) : Z * Z * string :=
  match s with
  | String c s' =>
      if isDigit c then takeDigits s' (10 * acc + digitVal c) (n + 1)
      else (acc, n, s)
  | EmptyString => (acc, n, s)
  end.

(** The exponent part [e], [e+] or [e-] followed by at least one digit; an
    incomplete exponent is not part of the literal. *)
Definition exponentPart (s : string) : Z :=
  match s with
  | String c r =>
      if Ascii.eqb c "e" || Ascii.eqb c "E" then
        let '(sg, r') :=
          match r with
          | String "-" r1 => (true, r1)
          | String "+" r1 => (false, r1)
          | _ => (false, r)
          end in
        let '(e, n, _) := takeDigits r' 0 0 in
        if n =? 0 then 0 else if sg then - e else e
      else 0
  | EmptyString => 0
  end.

(** The magnitude denoted by the longest prefix of [s] that is an unsigned
    decimal literal, [None] when there is no such prefix. *)
Definition magnitude (s : string) : option num :=
  if String.prefix "Infinity" s then Some Infinity
  else
    let '(i, ni, s2) := takeDigits s 0 0 in
    let '(f, nf, s3) :=
      match s2 with
      | String "." r => takeDigits r i 0
      | _ => (i, 0, s2)
      end in
    if ni + nf =? 0 then None
    else Some (decimal f (exponentPart s3 - nf)).

Definition signed (s : string) : bool * string :=
  match s with
  | String "-" r => (true, r)
  | String "+" r => (false, r)
  | _ => (false, s)
  end.

(** [parseFloat(s)] *)
Definition parseFloat (s : string) : num :=
  let '(sg, s1) := signed (trimStart s) in
  match magnitude s1 with
  | Some v => if sg then neg v else v
  | None => NaN
  end.

Definition hexVal (c : ascii) : option Z :=
  if isDigit c then Some (code c - 48)
  else if inRange 97 102 c then Some (code c - 87)
  else if inRange 65 70 c then Some (code c - 55)
  else None.

Fixpoint takeHex (s : string) (acc n : Z) : Z * Z :=
  match s with
  | String c s' =>
      match hexVal c with
      | Some d => takeHex s' (16 * acc + d) (n + 1)
      | None => (acc, n)
      end
  | EmptyString => (acc, n)
  end.

(** [parseInt(s)] with no radix argument: base 16 after a [0x] prefix, base
    10 otherwise. *)
Definition parseInt (s : string) : num :=
  let '(sg, s1) := signed (trimStart s) in
  let '(v, n) :=
    if String.prefix "0x" s1 || String.prefix "0X" s1
    then takeHex (String.substring 2 (String.length s1 - 2) s1) 0 0
    else let '(v, n, _) := takeDigits s1 0 0 in (v, n) in
  if n =? 0 then NaN
  else if sg then neg (ofZ v) else ofZ v.

(** A numeric literal of the source text, e.g. [453.592] is
    [literal 453592 3]. *)
Definition literal (digits : Z) (fractionDigits : Z) : num :=
  decimal digits (- fractionDigits).

End Parse.

Import Parse.

(* ===================================================================== *)
(** ** Regular expressions *)
(* ===================================================================== *)

(** The fragment of the regular-expression language that the sources use,
    with the backtracking semantics of the language: alternatives are tried
    left to right, quantifiers are greedy, the first successful path wins.
    Every [*] and [+] of the sources ranges over a character class. *)

Module Regex.

Inductive regex : Type :=
| Eps
| Chr (c : ascii)
| Cls (p : ascii -> bool)
| Many (p : ascii -> bool)
| Seq (r1 r2 : regex)
| Alt (r1 r2 : regex)
| Opt (r : regex)
| Grp (n : nat) (r : regex)
| Bol
| Eol
| WordB.

(** [p+] *)
Definition Plus (p : ascii -> bool) : regex := Seq (Cls p) (Many p).

(** A literal word. *)
Fixpoint Lit (w : string) : regex :=
  match w with
  | EmptyString => Eps
  | String c EmptyString => Chr c
  | String c w' => Seq (Chr c) (Lit w')
  end.

Fixpoint AltOf (r : regex) (rs : list regex) : regex :=
  match rs with
  | [] => r
  | r' :: rs' => Alt r (AltOf r' rs')
  end.

(** Captured groups, most recent binding first. *)
Definition captures : Type := list (nat * string).

Fixpoint group (n : nat) (cs : captures) : option string :=
  match cs with
  | [] => None
  | (m, s) :: cs' => if Nat.eqb m n then Some s else group n cs'
  end.

(** Character comparison, under the [i] flag when [ci] is set. The patterns
    of the sources are ASCII, for which comparing upper-cased ASCII letters
    is the canonicalisation of the language. *)
Definition chrEq (ci : bool) (c x : ascii) : bool :=
  if ci then Ascii.eqb (upperChar c) (upperChar x) else Ascii.eqb c x.

Definition isWordPrev (prev : option ascii) : bool :=
  match prev with Some c => isWord c | None => false end.

Definition isWordNext (s : string) : bool :=
  match s with String c _ => isWord c | EmptyString => false end.

(** [\b] between the character [prev] and the head of [s]. *)
Definition boundary (prev : option ascii) (s : string) : bool :=
  xorb (isWordPrev prev) (isWordNext s).

Section Matcher.
Variable ci : bool.
Context {A : Type}.

(** A continuation receives the last character consumed, the remaining
    input and the captures. *)
Definition cont : Type := option ascii -> string -> captures -> option A.

Fixpoint many (p : ascii -> bool) (prev : option ascii) (s : string)
    (cs : captures) (k : cont) : option A :=
  match s with
  | String c s' =>
      if p c then
        match many p (Some c) s' cs k with
        | Some v => Some v
        | None => k prev s cs
        end
      else k prev s cs
  | EmptyString => k prev s cs
  end.

Fixpoint rmatch (r : regex) (prev : option ascii) (s : string)
    (cs : captures) (k : cont) : option A :=
  match r with
  | Eps => k prev s cs
  | Chr c =>
      match s with
      | String x s' => if chrEq ci c x then k (Some x) s' cs else None
      | EmptyString => None
      end
  | Cls p =>
      match s with
      | String x s' => if p x then k (Some x) s' cs else None
      | EmptyString => None
      end
  | Many p => many p prev s cs k
  | Seq r1 r2 =>
      rmatch r1 prev s cs (fun prev' s' cs' => rmatch r2 prev' s' cs' k)
  | Alt r1 r2 =>
      match rmatch r1 prev s cs k with
      | Some v => Some v
      | None => rmatch r2 prev s cs k
      end
  | Opt r1 =>
      match rmatch r1 prev s cs k with
      | Some v => Some v
      | None => k prev s cs
      end
  | Grp n r1 =>
      rmatch r1 prev s cs
        (fun prev' s' cs' => k prev' s' ((n, consumed s s') :: cs'))
  | Bol => match prev with None => k prev s cs | Some _ => None end
  | Eol => match s with EmptyString => k prev s cs | _ => None end
  | WordB => if boundary prev s then k prev s cs else None
  end.
End Matcher.

(** A match attempt at the current position: the input left after the match
    and the captures; group 0 is the whole match. *)
Definition matchHere (ci : bool) (r : regex) (prev : option ascii)
    (s : string) : option (string * captures) :=
  rmatch ci (Grp 0 r) prev s [] (fun _ s' cs => Some (s', cs)).

(** The leftmost match: the text before it, the text after it, the
    captures. *)
Fixpoint search (ci : bool) (r : regex) (prev : option ascii) (s : string)
    : option (string * string * captures) :=
  match matchHere ci r prev s with
  | Some (s', cs) => Some (EmptyString, s', cs)
  | None =>
      match s with
      | String c s1 =>
          match search ci r (Some c) s1 with
          | Some (pre, s', cs) => Some (String c pre, s', cs)
          | None => None
          end
      | EmptyString => None
      end
  end.

(** [s.match(r)] for a regex without the [g] flag: the captures of the
    leftmost match, or [None] for [null]. *)
Definition exec (ci : bool) (r : regex) (s : string) : option captures :=
  match search ci r None s with
  | Some (_, _, cs) => Some cs
  | None => None
  end.

(** [r.test(s)] for a regex without the [g] flag. *)
Definition test (ci : bool) (r : regex) (s : string) : bool :=
  match exec ci r s with
  | Some _ => true
  | None => false
  end.

(** [s.replace(r, repl)] for a regex without the [g] flag. *)
Definition replace (ci : bool) (r : regex) (repl s : string) : string :=
  match search ci r None s with
  | Some (pre, s', _) => pre ++ repl ++ s'
  | None => s
  end.

(** [s.replace(r, repl)] for a regex with the [g] flag. [skip] counts the
    characters of the last match that are still to be dropped; after an
    empty match the scan moves on by one character. *)
Fixpoint replaceAllFrom (ci : bool) (r : regex) (repl : string) (skip : nat)
    (prev : option ascii) (s : string) : string :=
  match skip with
  | S n =>
      match s with
      | String c s1 => replaceAllFrom ci r repl n (Some c) s1
      | EmptyString => EmptyString
      end
  | O =>
      match matchHere ci r prev s with
      | Some (s', _) =>
          repl ++
          match (String.length s - String.length s')%nat, s with
          | S n, String c s1 => replaceAllFrom ci r repl n (Some c) s1
          | O, String c s1 => String c (replaceAllFrom ci r repl 0 (Some c) s1)
          | _, EmptyString => EmptyString
          end
      | None =>
          match s with
          | String c s1 => String c (replaceAllFrom ci r repl 0 (Some c) s1)
          | EmptyString => EmptyString
          end
      end
  end.

Definition replaceAll (ci : bool) (r : regex) (repl s : string) : string :=
  replaceAllFrom ci r repl 0 None s.

End Regex.

Import Regex.

(* ===================================================================== *)
(** ** Values and exceptions *)
(* ===================================================================== *)

(** A JavaScript value, as far as the services distinguish them. *)
Inductive jsval : Type :=
| JUndefined
| JNull
| JBool (b : bool)
| JNum (n : num)
| JStr (s : string)
| JObj.

(** [ToBoolean] *)
Definition truthyVal (v : jsval) : bool :=
  match v with
  | JUndefined | JNull => false
  | JBool b => b
  | JNum n => truthy n
  | JStr s => negb (String.eqb s "")
  | JObj => true
  end.

(** [a || b] on values. *)
Definition orVal (a b : jsval) : jsval := if truthyVal a then a else b.

(** The result of running code that may throw. *)
Inductive outcome (A : Type) : Type :=
| Ret (a : A)
| Throw (message : string).

Arguments Ret {A} a.
Arguments Throw {A} message.

Definition bind {A B : Type} (m : outcome A) (k : A -> outcome B) : outcome B :=
  match m with
  | Ret a => k a
  | Throw e => Throw e
  end.

Notation "'do' x <- m ; k" := (bind m (fun x => k))
  (at level 10, x name, m at level 100, k at level 200).

(** [try { body } catch (error) { handler(error.message) }] *)
Definition tryCatch {A : Type} (body : outcome A) (handler : string -> outcome A)
    : outcome A :=
  match body with
  | Ret a => Ret a
  | Throw e => handler e
  end.

(** Reading a property of [undefined] throws a [TypeError]. *)
Definition defined {A : Type} (o : option A) : outcome A :=
  match o with
  | Some a => Ret a
  | None => Throw "Cannot read properties of undefined"
  end.

(** [v.toLowerCase()]: a method of strings only. *)
Definition toLowerCaseOf (v : jsval) : outcome string :=
  match v with
  | JStr s => Ret (toLowerCase s)
  | JUndefined | JNull => Throw "Cannot read properties of undefined"
  | _ => Throw "toLowerCase is not a function"
  end.

(* ===================================================================== *)
(** ** The conversion table, [data/householdMeasurements.json] *)
(* ===================================================================== *)

(** The file is a static configuration that is not part of the sources; it
    is a parameter of the services. An entry of [measurements] is either a
    plain number or an object from ingredient names (and ["default"]) to
    numbers. *)
Inductive unitData : Type :=
| UNum (n : num)
| UObj (o : gmap string num).

Record foodType : Type := { serving : num }.

Record HouseholdMeasurements : Type := {
  measurements : gmap string unitData;
  ingredients : gmap string string;
  ingredientCategories : gmap string (gmap string num);
  foodTypes : gmap string foodType
}.

(** *** Properties that are not in the file

    An object read from a JSON file has its own properties and those of
    [Object.prototype]. The inherited ones are functions, except
    [__proto__], which is the prototype itself; all of them are truthy, and
    none of them is a number. *)
Definition prototypeNames : list string :=
  [ "constructor"; "__defineGetter__"; "__defineSetter__"; "hasOwnProperty";
    "__lookupGetter__"; "__lookupSetter__"; "isPrototypeOf";
    "propertyIsEnumerable"; "toString"; "valueOf"; "__proto__";
    "toLocaleString" ].

Definition isInherited (key : string) : bool :=
  existsb (String.eqb key) prototypeNames.

(** What [o[key]] finds. *)
Inductive property (A : Type) : Type :=
| Own (a : A)
| Inherited
| Absent.

Arguments Own {A} a.
Arguments Inherited {A}.
Arguments Absent {A}.

Definition getProperty {A : Type} (o : gmap string A) (key : string)
    : property A :=
  match o !! key with
  | Some a => Own a
  | None => if isInherited key then Inherited else Absent
  end.

(** [o[key]] when that is truthy, as the factor of a product. An inherited
    property is truthy, and the product of a number with a function or with
    the prototype is [NaN]. *)
Definition truthyEntry (o : gmap string num) (key : string) : option num :=
  match getProperty o key with
  | Own v => if truthy v then Some v else None
  | Inherited => Some NaN
  | Absent => None
  end.

(** [Object.prototype[key]] when that is truthy: its own properties are the
    inherited names, and its [__proto__] is [null]. *)
Definition truthyOfPrototype (key : string) : option num :=
  if String.eqb key "__proto__" then None
  else if isInherited key then Some NaN
  else None.

(** [n[key]] for a number [n], when that is truthy: a number has the
    properties of [Number.prototype] and of [Object.prototype]. They are
    functions, except [__proto__], which is [Number.prototype] and converts
    to the number 0. *)
Definition numberMethods : list string :=
  [ "toExponential"; "toFixed"; "toPrecision" ].

Definition truthyOfNumber (key : string) : option num :=
  if String.eqb key "__proto__" then Some zero
  else if isInherited key || existsb (String.eqb key) numberMethods
       then Some NaN
  else None.

(** [d && d[key]] when that is truthy. *)
Definition truthyProp (d : option unitData) (key : string) : option num :=
  match d with
  | Some (UObj o) => truthyEntry o key
  | Some (UNum n) => if truthy n then truthyOfNumber key else None
  | None => None
  end.

(** An inherited property used as a property key is converted to a string:
    ["[object Object]"] for the prototype, the text of a native function
    for the others. *)
Definition printed (key : string) : string :=
  if String.eqb key "__proto__" then "[object Object]"
  else "function "
       ++ (if String.eqb key "constructor" then "Object" else key)
       ++ "() { [native code] }".

(** [b[key]] when that is truthy, for the inherited property [b] of name
    [name]: the prototype for [__proto__], a function for the others. Of a
    function only the properties that every object has are modelled; a
    table whose category names are names of inherited properties is
    outside the model. *)
Definition truthyOfInherited (name key : string) : option num :=
  if String.eqb name "__proto__" then truthyOfPrototype key
  else if isInherited key then Some NaN
  else None.

(* ===================================================================== *)
(** ** [quantityStandardizer.js] *)
(* ===================================================================== *)

Module QuantityStandardizer.

Record ParsedQuantity : Type := { value : num; unit : option string }.

(** [(\d+(\.\d+)?)] *)
Definition reNumber : regex :=
  Grp 1 (Seq (Plus isDigit) (Opt (Grp 2 (Seq (Chr ".") (Plus isDigit))))).

(** [/(\d+(\.\d+)?)\s*g/] *)
Definition reGrams : regex := Seq reNumber (Seq (Many isSpace) (Chr "g")).

(** [/(\d+(\.\d+)?)\s*(pound|lb)s?/] *)
Definition rePounds : regex :=
  Seq reNumber
    (Seq (Many isSpace)
       (Seq (Grp 3 (Alt (Lit "pound") (Lit "lb"))) (Opt (Chr "s")))).

(** [/(\d+(\.\d+)?)\s*ml/] *)
Definition reMl : regex := Seq reNumber (Seq (Many isSpace) (Lit "ml")).

(** [/[a-zA-Z]+/] *)
Definition reLetters : regex := Plus isAlpha.

(** [/(\d+)\s*\/\s*(\d+)/] *)
Definition reFraction : regex :=
  Seq (Grp 1 (Plus isDigit))
    (Seq (Many isSpace)
       (Seq (Chr "/") (Seq (Many isSpace) (Grp 2 (Plus isDigit))))).

(** [/\/\s*\d+\s+([a-zA-Z]+)/] *)
Definition reFractionUnit : regex :=
  Seq (Chr "/")
    (Seq (Many isSpace)
       (Seq (Plus isDigit) (Seq (Plus isSpace) (Grp 1 (Plus isAlpha))))).

(** [/(\d+(\.\d+)?)\s+([a-zA-Z]+)/] *)
Definition reGeneral : regex :=
  Seq reNumber (Seq (Plus isSpace) (Grp 3 (Plus isAlpha))).

(** [m[n]] of a match array [m], which must be defined to be used as a
    string. *)
Definition groupOf (n : nat) (cs : captures) : outcome string :=
  defined (group n cs).

(** The unit a match yields: [m ? m[n].trim().toLowerCase() : null]. *)
Definition unitOf (n : nat) (m : option captures) : outcome (option string) :=
  match m with
  | Some cs => do u <- groupOf n cs; Ret (Some (toLowerCase (trim u)))
  | None => Ret None
  end.

(** The rules of [parseQuantity], in source order. Each one either returns
    from the function ([Some]) or falls through to the next ([None]). *)

Definition gramsRule (quantityStr : string) : outcome (option ParsedQuantity) :=
  if includes "g" quantityStr && negb (includes "glass" quantityStr) then
    match exec false reGrams quantityStr with
    | Some m =>
        do m1 <- groupOf 1 m;
        Ret (Some {| value := parseFloat m1; unit := Some "g" |})
    | None => Ret None
    end
  else Ret None.

Definition poundsRule (quantityStr : string) : outcome (option ParsedQuantity) :=
  if includes "pound" quantityStr || includes "lb" quantityStr then
    match exec false rePounds quantityStr with
    | Some m =>
        do m1 <- groupOf 1 m;
        Ret (Some {| value := (parseFloat m1 * literal 453592 3)%num;
                     unit := Some "g" |})
    | None => Ret None
    end
  else Ret None.

Definition mlRule (quantityStr : string) : outcome (option ParsedQuantity) :=
  if includes "ml" quantityStr then
    match exec false reMl quantityStr with
    | Some m =>
        do m1 <- groupOf 1 m;
        Ret (Some {| value := parseFloat m1; unit := Some "ml" |})
    | None => Ret None
    end
  else Ret None.

Definition rangeRule (quantityStr : string) : outcome (option ParsedQuantity) :=
  if includes "-" quantityStr then
    let '(parts0, rest) := split "-" quantityStr in
    let val1 := parseFloat (trim parts0) in
    do parts1 <- defined (head rest);
    match exec false reNumber parts1 with
    | Some val2Match =>
        do m1 <- groupOf 1 val2Match;
        let val2 := parseFloat m1 in
        let avg := ((val1 + val2) / ofZ 2)%num in
        do unit <- unitOf 0 (exec false reLetters parts1);
        Ret (Some {| value := avg; unit := unit |})
    | None => Ret None
    end
  else Ret None.

Definition fractionRule (quantityStr : string) : outcome (option ParsedQuantity) :=
  if includes "/" quantityStr then
    match exec false reFraction quantityStr with
    | Some fractionMatch =>
        do m1 <- groupOf 1 fractionMatch;
        do m2 <- groupOf 2 fractionMatch;
        let numerator := parseInt m1 in
        let denominator := parseInt m2 in
        let decimal := (numerator / denominator)%num in
        do unit <- unitOf 1 (exec false reFractionUnit quantityStr);
        Ret (Some {| value := decimal; unit := unit |})
    | None => Ret None
    end
  else Ret None.

Definition generalRule (quantityStr : string) : outcome (option ParsedQuantity) :=
  match exec false reGeneral quantityStr with
  | Some generalMatch =>
      do m1 <- groupOf 1 generalMatch;
      do m3 <- groupOf 3 generalMatch;
      Ret (Some {| value := parseFloat m1;
                   unit := Some (toLowerCase (trim m3)) |})
  | None => Ret None
  end.

Definition qualitativeRule (quantityStr : string) : outcome (option ParsedQuantity) :=
  if includes "to taste" (toLowerCase quantityStr)
     || includes "as needed" (toLowerCase quantityStr)
     || includes "as required" (toLowerCase quantityStr)
  then Ret (Some {| value := literal 5 1; unit := Some "teaspoon" |})
  else Ret None.

(** The default result: the phrase could not be parsed. *)
Definition unparseable : ParsedQuantity := {| value := zero; unit := None |}.

(** Runs the rules in order until one returns. *)
Fixpoint firstOf (rules : list (string -> outcome (option ParsedQuantity)))
    (quantityStr : string) : outcome ParsedQuantity :=
  match rules with
  | [] => Ret unparseable
  | rule :: rules' =>
      do r <- rule quantityStr;
      match r with
      | Some q => Ret q
      | None => firstOf rules' quantityStr
      end
  end.

(** [parseQuantity(quantityStr, ingredientName)]; the second argument is
    only printed in a warning and is left out. *)
Definition parseQuantity (quantityStr : jsval) : outcome ParsedQuantity :=
  match quantityStr with
  | JStr q =>
      if String.eqb q "" then Ret unparseable
      else
        firstOf [gramsRule; poundsRule; mlRule; rangeRule; fractionRule;
                 generalRule; qualitativeRule] q
  | _ => Ret unparseable
  end.

(** The table of last resort inside [convertToGrams]. *)
Definition defaultConversions : gmap string num :=
  {[ "cup" := ofZ 150; "tablespoon" := ofZ 15; "teaspoon" := ofZ 5;
     "piece" := ofZ 30; "clove" := ofZ 5; "inch" := ofZ 10;
     "handful" := ofZ 30; "pinch" := literal 5 1 ]}.

(** A unit used as a property key: [null] reads the property ["null"]. *)
Definition unitKey (unit : option string) : string :=
  match unit with Some u => u | None => "null" end.

Definition unitIs (unit : option string) (u : string) : bool :=
  match unit with Some u' => String.eqb u' u | None => false end.

Section Conversion.
Variable householdMeasurements : HouseholdMeasurements.

Definition pieceRule (value : num) (unit : option string)
    (normalizedIngredient : string) : option num :=
  if unitIs unit "piece" then
    let piece := measurements householdMeasurements !! "piece" in
    match truthyProp piece normalizedIngredient with
    | Some w => Some (value * w)%num
    | None =>
        match truthyProp piece "default" with
        | Some w => Some (value * w)%num
        | None => None
        end
    end
  else None.

Definition mediumRule (value : num) (unit : option string)
    (normalizedIngredient : string) : option num :=
  if unitIs unit "medium" then
    match truthyProp (measurements householdMeasurements !! "medium")
            normalizedIngredient with
    | Some w => Some (value * w)%num
    | None => Some (value * ofZ 120)%num
    end
  else None.

Definition categoryRule (value : num) (unit : option string)
    (normalizedIngredient : string) : option num :=
  let category : option string :=
    match getProperty (ingredients householdMeasurements)
            normalizedIngredient with
    | Own category => if String.eqb category "" then None else Some category
    | Inherited => Some (printed normalizedIngredient)
    | Absent => None
    end in
  match category with
  | Some category =>
      match getProperty (ingredientCategories householdMeasurements)
              category with
      | Own conversions =>
          match truthyEntry conversions (unitKey unit) with
          | Some w => Some (value * w)%num
          | None => None
          end
      | Inherited =>
          match truthyOfInherited category (unitKey unit) with
          | Some w => Some (value * w)%num
          | None => None
          end
      | Absent => None
      end
  | None => None
  end.

Definition standardRule (value : num) (unit : option string)
    (normalizedIngredient : string) : option num :=
  match unit with
  | Some u =>
      if String.eqb u "" then None
      else
        match getProperty (measurements householdMeasurements) u with
        | Own (UObj unitData) =>
            match truthyEntry unitData normalizedIngredient with
            | Some w => Some (value * w)%num
            | None =>
                match truthyEntry unitData "default" with
                | Some w => Some (value * w)%num
                | None => Some (value * ofZ 10)%num
                end
            end
        | Own (UNum unitData) =>
            if truthy unitData then Some (value * unitData)%num else None
        | Inherited =>
            if String.eqb u "__proto__" then
              (* the prototype, an object without a [default] *)
              match truthyOfPrototype normalizedIngredient with
              | Some w => Some (value * w)%num
              | None => Some (value * ofZ 10)%num
              end
            else Some (value * NaN)%num
        | Absent => None
        end
  | None => None
  end.

Definition fallbackRule (value : num) (unit : option string) : num :=
  match truthyEntry defaultConversions (unitKey unit) with
  | Some w => (value * w)%num
  | None => (value * ofZ 10)%num
  end.

(** [convertToGrams(parsedQuantity, mappedIngredientName)] *)
Definition convertToGrams (parsedQuantity : ParsedQuantity)
    (mappedIngredientName : jsval) : outcome num :=
  let value := value parsedQuantity in
  let unit := unit parsedQuantity in
  if unitIs unit "g" then Ret value
  else if unitIs unit "ml" then Ret value
  else
    do normalizedIngredient <-
      (if truthyVal mappedIngredientName
       then do l <- toLowerCaseOf mappedIngredientName; Ret (trim l)
       else Ret "");
    match pieceRule value unit normalizedIngredient with
    | Some g => Ret g
    | None =>
    match mediumRule value unit normalizedIngredient with
    | Some g => Ret g
    | None =>
    match categoryRule value unit normalizedIngredient with
    | Some g => Ret g
    | None =>
    match standardRule value unit normalizedIngredient with
    | Some g => Ret g
    | None => Ret (fallbackRule value unit)
    end end end end.

(** [standardizeToGrams(quantity, mappedIngredientName)] *)
Definition standardizeToGrams (quantity mappedIngredientName : jsval)
    : outcome num :=
  do parsedQuantity <- parseQuantity quantity;
  convertToGrams parsedQuantity mappedIngredientName.

End Conversion.

End QuantityStandardizer.

(* ===================================================================== *)
(** ** [ingredientMapper.js] *)
(* ===================================================================== *)

Module IngredientMapper.

(** A row of [data/processedNutritionDB.csv]: every cell is the trimmed text
    of the file, also the numeric ones. *)
Record NutritionRow : Type := {
  ingredient : string;
  calories_per_100g : string;
  protein_per_100g : string;
  carbs_per_100g : string;
  fat_per_100g : string;
  fiber_per_100g : string
}.

Definition wordsToRemove : list string :=
  [ "chopped"; "diced"; "sliced"; "minced"; "grated"; "cubed"; "pureed";
    "finely"; "roughly"; "cut into"; "cubes"; "paste";
    "fresh"; "dried"; "powder"; "whole"; "leaves"; "seeds";
    "boneless"; "skinless"; "plain";
    "for garnish"; "to taste"; "as needed"; "as required";
    "medium"; "large"; "small";
    "1-inch"; "pieces" ].

(** [(cup|tablespoon|teaspoon|tsp|tbsp|g|kg|ml|l|pound|lb|oz|katori|glass)] *)
Definition unitWords : regex :=
  AltOf (Lit "cup")
    [ Lit "tablespoon"; Lit "teaspoon"; Lit "tsp"; Lit "tbsp"; Lit "g";
      Lit "kg"; Lit "ml"; Lit "l"; Lit "pound"; Lit "lb"; Lit "oz";
      Lit "katori"; Lit "glass" ].

(** [\d+(\.\d+)?\s*\/?\d*\s*(cup|...|glass)s?]; [n] and [m] number the two
    groups. *)
Definition quantityBody (n m : nat) : regex :=
  Seq (Plus isDigit)
    (Seq (Opt (Grp n (Seq (Chr ".") (Plus isDigit))))
       (Seq (Many isSpace)
          (Seq (Opt (Chr "/"))
             (Seq (Many isDigit)
                (Seq (Many isSpace)
                   (Seq (Grp m unitWords) (Opt (Chr "s")))))))).

(** [quantityRegex], used with the [i] flag:
    [/^(BODY\b)|\b(BODY)$/i]. *)
Definition quantityRegex : regex :=
  Alt (Seq Bol (Grp 1 (Seq (quantityBody 2 3) WordB)))
      (Seq WordB (Seq (Grp 4 (quantityBody 5 6)) Eol)).

(** [new RegExp(`\\b${word}\\b`, 'gi')] *)
Definition wordRegex (word : string) : regex :=
  Seq WordB (Seq (Lit word) WordB).

(** [[(),:]] *)
Definition isPunct (c : ascii) : bool :=
  Ascii.eqb c "(" || Ascii.eqb c ")" || Ascii.eqb c "," || Ascii.eqb c ":".

Definition removeWords (cleanedName : string) : string :=
  fold_left (fun name word => replaceAll true (wordRegex word) "" name)
    wordsToRemove cleanedName.

(** [preprocessIngredientName(rawName)] *)
Definition preprocessIngredientName (rawName : string) : string :=
  if String.eqb rawName "" then ""
  else
    let cleanedName := trim (toLowerCase rawName) in
    let cleanedName := trim (replace true quantityRegex "" cleanedName) in
    let cleanedName := removeWords cleanedName in
    let cleanedName := replaceAll false (Cls isPunct) "" cleanedName in
    let cleanedName := trim (replaceAll false (Plus isSpace) " " cleanedName) in
    if String.eqb cleanedName "ginger-garlic" then "ginger-garlic paste"
    else if String.eqb cleanedName "" then trim (toLowerCase rawName)
    else cleanedName.

(** The maximal runs of non-space characters of [s]: the non-empty elements
    of [s.split(/\s+/)]. [w] is the run being read, reversed. *)
Fixpoint wordsFrom (w : string) (s : string) : list string :=
  let flush := match w with EmptyString => [] | _ => [String.rev w] end in
  match s with
  | EmptyString => flush
  | String c s' =>
      if isSpace c then flush ++ wordsFrom EmptyString s'
      else wordsFrom (String c w) s'
  end.

(** Stable insertion by length, as [sort((a, b) => a.length - b.length)]. *)
Fixpoint insertByLength (x : NutritionRow) (l : list NutritionRow)
    : list NutritionRow :=
  match l with
  | [] => [x]
  | y :: l' =>
      if (String.length (ingredient x) <=? String.length (ingredient y))%nat
      then x :: l
      else y :: insertByLength x l'
  end.

Definition sortByLength (l : list NutritionRow) : list NutritionRow :=
  fold_right insertByLength [] l.

Section Mapper.
(** The loaded table, the synonym table and the external text generator.
    The generator receives the original name and the candidate names that
    are put into its prompt, and answers with a text or fails. *)
Variable nutritionDB : list NutritionRow.
Variable ingredientSynonyms : gmap string string.
Variable aiModel : option (string -> list string -> outcome string).

Definition dbIngredientNames : list string := map ingredient nutritionDB.

(** [findInNutritionDB(ingredientName)] *)
Definition findInNutritionDB (ingredientName : string) : option NutritionRow :=
  find (fun item => String.eqb (ingredient item) ingredientName) nutritionDB.

(** The result of [findInNutritionDB] used as a condition. *)
Definition found (ingredientName : string) : bool :=
  match findInNutritionDB ingredientName with
  | Some _ => true
  | None => false
  end.

(** [findAllInNutritionDB(ingredientName)] *)
Definition findAllInNutritionDB (ingredientName : string) : list NutritionRow :=
  if String.eqb ingredientName "" then []
  else
    let searchTerm := toLowerCase ingredientName in
    let searchTermUnderscore := replaceAll false (Plus isSpace) "_" searchTerm in
    List.filter (fun item => includes searchTerm (ingredient item)
                        || includes searchTermUnderscore (ingredient item))
      nutritionDB.

(** [getAiAssistedMatch(originalIngredientName)] *)
Definition getAiAssistedMatch (originalIngredientName : string) : option string :=
  match aiModel with
  | None => None
  | Some generateText =>
      if String.eqb originalIngredientName "" then None
      else if (List.length dbIngredientNames =? 0)%nat then None
      else
        let keywords :=
          List.filter (fun w => (2 <? String.length w)%nat)
            (wordsFrom EmptyString (toLowerCase originalIngredientName)) in
        let candidateNames :=
          List.filter (fun dbName => existsb (fun kw => includes kw dbName) keywords)
            dbIngredientNames in
        let candidateNames :=
          if (List.length candidateNames =? 0)%nat
             || (100 <? List.length candidateNames)%nat
          then List.firstn 100 dbIngredientNames
          else candidateNames in
        match generateText originalIngredientName candidateNames with
        | Ret text =>
            let bestMatch := trim text in
            if negb (String.eqb bestMatch "")
               && negb (String.eqb bestMatch "None")
               && existsb (String.eqb bestMatch) dbIngredientNames
            then Some bestMatch
            else None
        | Throw _ => None
        end
  end.

(** [standardizeIngredientName(ingredientName)] *)
Definition standardizeIngredientName (ingredientName : string) : option string :=
  if String.eqb ingredientName "" then None
  else
    let originalNameForAI := ingredientName in
    let cleanedName := preprocessIngredientName ingredientName in
    let normalized := trim cleanedName in
    if String.eqb normalized "" then None
    else
      let normalizedWithUnderscores :=
        replaceAll false (Plus isSpace) "_" normalized in
      if found normalizedWithUnderscores then Some normalizedWithUnderscores
      else if found normalized then Some normalized
      else
        (* an inherited property of the synonym table is truthy, but it is
           no string and so no name of a row: it falls through like a
           missing key *)
        let viaSynonym :=
          match ingredientSynonyms !! normalized with
          | Some synonymTarget =>
              if negb (String.eqb synonymTarget "") && found synonymTarget
              then Some synonymTarget
              else None
          | None => None
          end in
        match viaSynonym with
        | Some synonymTarget => Some synonymTarget
        | None =>
            let potentialMatches := findAllInNutritionDB normalized in
            match potentialMatches with
            | _ :: _ =>
                match find (fun item =>
                              String.eqb (ingredient item) normalized
                              || String.eqb (ingredient item)
                                   normalizedWithUnderscores)
                        potentialMatches with
                | Some exactMatch => Some (ingredient exactMatch)
                | None =>
                    match find (fun item =>
                                  String.eqb (ingredient item)
                                    (replace false (Seq (Chr "s") Eol) ""
                                       normalized)
                                  || String.eqb (ingredient item)
                                       (replace false (Seq (Lit "_s") Eol) ""
                                          normalizedWithUnderscores))
                            potentialMatches with
                    | Some baseMatch => Some (ingredient baseMatch)
                    | None =>
                        match sortByLength potentialMatches with
                        | shortest :: _ => Some (ingredient shortest)
                        | [] => None
                        end
                    end
                end
            | [] => getAiAssistedMatch originalNameForAI
            end
        end.

(** The names that [getAiAssistedMatch] puts into its prompt. *)
Definition keywordsOf (originalIngredientName : string) : list string :=
  List.filter (fun w => (2 <? String.length w)%nat)
    (wordsFrom EmptyString (toLowerCase originalIngredientName)).

Definition candidateNames (originalIngredientName : string) : list string :=
  let candidateNames :=
    List.filter (fun dbName =>
                   existsb (fun kw => includes kw dbName)
                     (keywordsOf originalIngredientName))
      dbIngredientNames in
  if (List.length candidateNames =? 0)%nat
     || (100 <? List.length candidateNames)%nat
  then List.firstn 100 dbIngredientNames
  else candidateNames.

(** [findPartialMatch(ingredientName)] *)
Definition findPartialMatch (ingredientName : string) : option string :=
  match find (fun item => includes ingredientName (ingredient item)
                          || includes (ingredient item) ingredientName)
          nutritionDB with
  | Some match_ => Some (ingredient match_)
  | None => None
  end.

(** [getNutritionData(ingredientName)] *)
Definition getNutritionData (ingredientName : string) : option NutritionRow :=
  match standardizeIngredientName ingredientName with
  | Some standardName =>
      if String.eqb standardName "" then None
      else findInNutritionDB standardName
  | None => None
  end.

End Mapper.

(** [s.split(sep)] as a list. *)
Definition splitOn (sep : ascii) (s : string) : list string :=
  let '(p, ps) := split sep s in p :: ps.

(** [values[j] ? values[j].trim() : ''] *)
Definition cellAt (values : list string) (j : nat) : string :=
  match nth_error values j with
  | Some v => if String.eqb v "" then "" else trim v
  | None => ""
  end.

(** The object built from one line: [row[headers[j].trim()] = cell j], for
    [j] from [0] on, a later column of the same name replacing an earlier
    one. *)
Fixpoint rowObject (headers values : list string) (j : nat)
    (row : gmap string string) : gmap string string :=
  match headers with
  | [] => row
  | h :: headers' =>
      rowObject headers' values (S j) (<[trim h := cellAt values j]> row)
  end.

(** [loadNutritionDBSync()] on the content of
    [data/processedNutritionDB.csv]: the objects pushed onto [nutritionDB].
    When the file does not exist, the table stays empty. *)
Definition loadNutritionDBSync (fileContent : option string)
    : list (gmap string string) :=
  match fileContent with
  | None => []
  | Some fileContent =>
      match splitOn "010" fileContent with
      | line0 :: lines =>
          let headers := splitOn "," line0 in
          map (fun line => rowObject headers (splitOn "," line) 0 empty)
            (List.filter (fun line => negb (String.eqb (trim line) "")) lines)
      | [] => []
      end
  end.

(** A loaded object as the mapper and the calculator read it. The name is
    [item.ingredient]; a numeric column that is missing reads as
    [undefined], which [parseFloat(cell || 0)] treats like an empty cell. *)
Definition rowOfObject (o : gmap string string) : option NutritionRow :=
  match o !! "ingredient" with
  | Some name =>
      let cell key := default "" (o !! key) in
      Some {| ingredient := name;
              calories_per_100g := cell "calories_per_100g";
              protein_per_100g := cell "protein_per_100g";
              carbs_per_100g := cell "carbs_per_100g";
              fat_per_100g := cell "fat_per_100g";
              fiber_per_100g := cell "fiber_per_100g" |}
  | None => None
  end.

End IngredientMapper.

(* ===================================================================== *)
(** ** [nutritionCalculator.js] *)
(* ===================================================================== *)

Module NutritionCalculator.

Import IngredientMapper.

(** An element of the ingredient list of a recipe. *)
Record Ingredient : Type := {
  name : jsval;
  quantity : jsval;
  standardQuantity : jsval
}.

Record Nutrition : Type := {
  calories : num;
  protein : num;
  carbs : num;
  fat : num;
  fiber : num
}.

(** An element of [processedIngredients]. *)
Record ProcessedIngredient : Type := {
  p_ingredient : jsval;
  mappedName : option string;
  p_quantity : jsval;
  weight_g : num;
  nutrition : option Nutrition;
  error : option string
}.

Record NutritionResult : Type := {
  totalNutrition : Nutrition;
  processedIngredients : list ProcessedIngredient;
  totalWeightInGrams : num
}.

Record PerServing : Type := {
  serving_size_g : num;
  s_calories : num;
  s_protein : num;
  s_carbs : num;
  s_fat : num;
  s_fiber : num
}.

(** [[a-z\s\-',.()]] under the [i] flag, which adds the upper-case letters. *)
Definition isDishNameChar (c : ascii) : bool :=
  isAlpha c || isSpace c || Ascii.eqb c "-" || Ascii.eqb c "'"
  || Ascii.eqb c "," || Ascii.eqb c "." || Ascii.eqb c "(" || Ascii.eqb c ")".

(** [/^[a-z\s\-',.()]{3,}$/i] *)
Definition reDishName : regex :=
  Seq Bol
    (Seq (Cls isDishNameChar)
       (Seq (Cls isDishNameChar)
          (Seq (Cls isDishNameChar) (Seq (Many isDishNameChar) Eol)))).

(** [isValidDishName(name)]; [/[a-z]/i] is the class of the letters. *)
Definition isValidDishName (name : string) : bool :=
  if (String.length name <? 3)%nat then false
  else if negb (test true (Cls isAlpha) name) then false
  else test true reDishName name.

(** [parseFloat(cell || 0)] for a cell of the table. *)
Definition perHundred (cell : string) : num :=
  if String.eqb cell "" then parseFloat "0" else parseFloat cell.

(** [if (isNaN(x)) x = 0] *)
Definition nanToZero (x : num) : num := if isNaN x then zero else x.

(** The loop [for (const key in n) if (isNaN(n[key])) n[key] = 0]. *)
Definition validateNutrition (n : Nutrition) : Nutrition :=
  {| calories := nanToZero (calories n);
     protein := nanToZero (protein n);
     carbs := nanToZero (carbs n);
     fat := nanToZero (fat n);
     fiber := nanToZero (fiber n) |}.

(** The nutrition of [quantityInGrams] grams of a table row. *)
Definition scaleRow (nutritionData : NutritionRow) (quantityInGrams : num)
    : Nutrition :=
  let per cell := ((perHundred cell * quantityInGrams) / ofZ 100)%num in
  {| calories := per (calories_per_100g nutritionData);
     protein := per (protein_per_100g nutritionData);
     carbs := per (carbs_per_100g nutritionData);
     fat := per (fat_per_100g nutritionData);
     fiber := per (fiber_per_100g nutritionData) |}.

(** The local variables of the callback that processes one ingredient. An
    assignment made before an exception is thrown stays in effect. *)
Record Locals : Type := {
  l_mappedName : option string;
  l_quantityInGrams : num;
  l_ingredientNutrition : option Nutrition;
  l_errorMsg : option string
}.

Definition initialLocals : Locals :=
  {| l_mappedName := None; l_quantityInGrams := zero;
     l_ingredientNutrition := None; l_errorMsg := None |}.

Definition noNutrition : Nutrition :=
  {| calories := zero; protein := zero; carbs := zero; fat := zero;
     fiber := zero |}.

Definition addNutrition (t n : Nutrition) : Nutrition :=
  {| calories := (calories t + calories n)%num;
     protein := (protein t + protein n)%num;
     carbs := (carbs t + carbs n)%num;
     fat := (fat t + fat n)%num;
     fiber := (fiber t + fiber n)%num |}.

(** One step of the [forEach] loop that accumulates the totals. *)
Definition accumulate (acc : Nutrition * num) (procIngredient : ProcessedIngredient)
    : Nutrition * num :=
  match nutrition procIngredient with
  | Some n => (addNutrition (fst acc) n, (snd acc + weight_g procIngredient)%num)
  | None => acc
  end.

Definition aggregate (processed : list ProcessedIngredient) : Nutrition * num :=
  fold_left accumulate processed (noNutrition, zero).

(** [Promise.all(list.map(callback))]: the results of the callbacks in list
    order; the first exception that escapes a callback is the exception of
    the whole. *)
Fixpoint mapAll {A B : Type} (callback : A -> outcome B) (l : list A)
    : outcome (list B) :=
  match l with
  | [] => Ret []
  | a :: l' =>
      do b <- callback a;
      do bs <- mapAll callback l';
      Ret (b :: bs)
  end.

(** *** The order in which the callbacks finish

    [ingredients.map] starts the callbacks in list order, and each runs at
    once up to its [await]. A callback whose name has no [toLowerCase]
    throws before the [await], so it pushes its record while [map] is still
    running. Every other callback pushes when the promise of
    [getNutritionData] has been settled and the callback is resumed. When
    that happens is decided by the mapper and by the event loop, not by the
    calculator: [turn i] is the turn at which the callback of position [i]
    is resumed, and callbacks of the same turn are resumed in list order. *)
Definition awaits (ingredient : Ingredient) : bool :=
  match toLowerCaseOf (name ingredient) with
  | Ret _ => true
  | Throw _ => false
  end.

(** The moment at which the callback of position [i] pushes its record: 0
    while [map] is running, later for a callback that awaits. *)
Definition pushedAt (turn : nat -> nat) (i : nat) (ingredient : Ingredient)
    : nat :=
  if awaits ingredient then S (turn i) else 0%nat.

Fixpoint moments (turn : nat -> nat) (i : nat) (ingredients : list Ingredient)
    : list nat :=
  match ingredients with
  | [] => []
  | ingredient :: rest =>
      pushedAt turn i ingredient :: moments turn (S i) rest
  end.

(** Insertion by moment, behind the records of earlier moments and before
    those of the same moment. *)
Fixpoint insertByMoment {A : Type} (x : nat * A) (l : list (nat * A))
    : list (nat * A) :=
  match l with
  | [] => [x]
  | y :: l' =>
      if (fst x <=? fst y)%nat then x :: l else y :: insertByMoment x l'
  end.

Definition byMoment {A : Type} (l : list (nat * A)) : list (nat * A) :=
  fold_right insertByMoment [] l.

(** The records in the order in which they are pushed: by moment, and in
    list order within a moment. *)
Definition inOrderOfCompletion {A : Type} (moments : list nat)
    (records : list A) : list A :=
  map snd (byMoment (combine moments records)).

Section Calculator.
(** The calculator receives its mapper as a constructor argument; all it
    uses is [getNutritionData], which yields a row, or [null], or throws. *)
Variable getNutritionData : string -> outcome (option NutritionRow).
Variable householdMeasurements : HouseholdMeasurements.

(** The body of the [try] block, run on the local variables. It returns
    the local variables at the point where it ended, and the message of
    the exception when it ended by one. *)
Definition tryBody (ingredient : Ingredient) (l : Locals)
    : Locals * outcome unit :=
  match toLowerCaseOf (name ingredient) with
  | Throw e => (l, Throw e)
  | Ret lowered =>
      let ingredientName := trim lowered in
      match getNutritionData ingredientName with
      | Throw e => (l, Throw e)
      | Ret None => (l, Ret tt)
      | Ret (Some nutritionData) =>
          let mapped := IngredientMapper.ingredient nutritionData in
          let l := {| l_mappedName := Some mapped;
                      l_quantityInGrams := l_quantityInGrams l;
                      l_ingredientNutrition := l_ingredientNutrition l;
                      l_errorMsg := l_errorMsg l |} in
          match QuantityStandardizer.standardizeToGrams householdMeasurements
                  (orVal (standardQuantity ingredient) (quantity ingredient))
                  (JStr mapped) with
          | Throw e => (l, Throw e)
          | Ret quantityInGrams =>
              ({| l_mappedName := l_mappedName l;
                  l_quantityInGrams := quantityInGrams;
                  l_ingredientNutrition :=
                    Some (validateNutrition
                            (scaleRow nutritionData quantityInGrams));
                  l_errorMsg := l_errorMsg l |}, Ret tt)
          end
      end
  end.

(** [try { ... } catch (error) { errorMsg = error.message }] *)
Definition tryCatchBody (ingredient : Ingredient) (l : Locals)
    : Locals * outcome unit :=
  match tryBody ingredient l with
  | (l', Ret tt) => (l', Ret tt)
  | (l', Throw e) =>
      ({| l_mappedName := l_mappedName l';
          l_quantityInGrams := l_quantityInGrams l';
          l_ingredientNutrition := l_ingredientNutrition l';
          l_errorMsg := Some e |}, Ret tt)
  end.

(** The callback given to [ingredients.map]: the [try] statement, then the
    record pushed onto [processedIngredients]. *)
Definition processIngredient (ingredient : Ingredient)
    : outcome ProcessedIngredient :=
  let '(l, r) := tryCatchBody ingredient initialLocals in
  do _ <- r;
  Ret {| p_ingredient := name ingredient;
         mappedName := l_mappedName l;
         p_quantity := orVal (standardQuantity ingredient) (quantity ingredient);
         weight_g := l_quantityInGrams l;
         nutrition := l_ingredientNutrition l;
         error := l_errorMsg l |}.

(** [calculateNutrition(ingredients)]. Each callback pushes its record when
    it finishes, so [processedIngredients] holds the records in order of
    completion, and the totals are accumulated in that order. *)
Definition calculateNutrition (turn : nat -> nat)
    (ingredients : list Ingredient) : outcome NutritionResult :=
  do records <- mapAll processIngredient ingredients;
  let processed :=
    inOrderOfCompletion (moments turn 0 ingredients) records in
  let '(total, totalWeight) := aggregate processed in
  Ret {| totalNutrition := validateNutrition total;
         processedIngredients := processed;
         totalWeightInGrams := totalWeight |}.

(** [servingSize / (totalWeight || 1)] *)
Definition servingRatio (servingSize totalWeight : num) : num :=
  (servingSize / (totalWeight || ofZ 1))%num.

(** [Math.round(x * ratio) || 0] *)
Definition roundedCalories (x ratio : num) : num :=
  (Num.round (x * ratio) || zero)%num.

(** [Math.round(x * ratio * 10) / 10 || 0] *)
Definition roundedTenth (x ratio : num) : num :=
  ((Num.round (x * ratio * ofZ 10) / ofZ 10) || zero)%num.

Definition scaled (servingSize : num) (totalNutrition : Nutrition)
    (ratio : num) : PerServing :=
  {| serving_size_g := servingSize;
     s_calories := roundedCalories (calories totalNutrition) ratio;
     s_protein := roundedTenth (protein totalNutrition) ratio;
     s_carbs := roundedTenth (carbs totalNutrition) ratio;
     s_fat := roundedTenth (fat totalNutrition) ratio;
     s_fiber := roundedTenth (fiber totalNutrition) ratio |}.

Definition validatePerServing (r : PerServing) : PerServing :=
  {| serving_size_g := nanToZero (serving_size_g r);
     s_calories := nanToZero (s_calories r);
     s_protein := nanToZero (s_protein r);
     s_carbs := nanToZero (s_carbs r);
     s_fat := nanToZero (s_fat r);
     s_fiber := nanToZero (s_fiber r) |}.

(** [calculatePerServing(totalNutrition, totalWeight, dishType)]. For a
    dish type that is the name of an inherited property, [foodTypes[dishType]]
    is a function or the prototype: it is truthy and has no [serving], so
    the serving size is [undefined], which the division and [isNaN] read as
    [NaN]. *)
Definition calculatePerServing (totalNutrition : Nutrition)
    (totalWeight : num) (dishType : string) : PerServing :=
  match getProperty (foodTypes householdMeasurements) dishType with
  | Absent =>
      let defaultServingSize := ofZ 150 in
      let ratio := servingRatio defaultServingSize totalWeight in
      scaled defaultServingSize totalNutrition ratio
  | Own entry =>
      let servingSize := serving entry in
      let ratio := servingRatio servingSize totalWeight in
      validatePerServing (scaled servingSize totalNutrition ratio)
  | Inherited =>
      let servingSize := NaN in
      let ratio := servingRatio servingSize totalWeight in
      validatePerServing (scaled servingSize totalNutrition ratio)
  end.

End Calculator.

End NutritionCalculator.

(* ===================================================================== *)
(** ** [errorHandler.js] *)
(* ===================================================================== *)

Module ErrorHandler.

Import NutritionCalculator.

Definition negToZero (x : num) : num := if Num.lt x zero then zero else x.

(** [validateNutritionValues(nutrition)] *)
Definition validateNutritionValues (nutrition : Nutrition) : Nutrition :=
  let validated := nutrition in
  let validated :=
    if Num.gt (calories nutrition) (ofZ 1000)
    then {| calories := ofZ 1000; protein := protein validated;
            carbs := carbs validated; fat := fat validated;
            fiber := fiber validated |}
    else validated in
  let validated :=
    {| calories := negToZero (calories validated);
       protein := negToZero (protein validated);
       carbs := negToZero (carbs validated);
       fat := negToZero (fat validated);
       fiber := negToZero (fiber validated) |} in
  let validated :=
    if Num.gt (protein nutrition) (ofZ 100)
    then {| calories := calories validated; protein := ofZ 100;
            carbs := carbs validated; fat := fat validated;
            fiber := fiber validated |}
    else validated in
  let validated :=
    if Num.gt (carbs nutrition) (ofZ 200)
    then {| calories := calories validated; protein := protein validated;
            carbs := ofZ 200; fat := fat validated;
            fiber := fiber validated |}
    else validated in
  if Num.gt (fat nutrition) (ofZ 100)
  then {| calories := calories validated; protein := protein validated;
          carbs := carbs validated; fat := ofZ 100;
          fiber := fiber validated |}
  else validated.

(** The names that every object literal inherits from [Object.prototype];
    reading one of them yields a function or an object, which is truthy. *)
Definition inheritedNames : list string :=
  [ "constructor"; "__defineGetter__"; "__defineSetter__"; "hasOwnProperty";
    "__lookupGetter__"; "__lookupSetter__"; "isPrototypeOf";
    "propertyIsEnumerable"; "toString"; "valueOf"; "__proto__";
    "toLocaleString" ].

Definition defaultWeights : gmap string num :=
  {[ "Wet Sabzi" := ofZ 800; "Dry Sabzi" := ofZ 600; "Dal" := ofZ 800;
     "Rice" := ofZ 600; "Roti" := ofZ 300; "Non-Veg Curry" := ofZ 900;
     "Unknown" := ofZ 700 ]}.

(** [validateTotalWeight(totalWeight, dishType)] *)
Definition validateTotalWeight (totalWeight : num) (dishType : string) : jsval :=
  if negb (truthy totalWeight) || Num.le totalWeight zero then
    match defaultWeights !! dishType with
    | Some w => JNum w
    | None =>
        if existsb (String.eqb dishType) inheritedNames then JObj
        else JNum (ofZ 700)
    end
  else if Num.gt totalWeight (ofZ 5000) then JNum (ofZ 5000)
  else JNum totalWeight.

End ErrorHandler.

(* ===================================================================== *)
(** ** [recipeFetcher.js]: the dishes known without the text generator *)
(* ===================================================================== *)

Module RecipeFetcher.
#[local] Open Scope list_scope.

(** [[...new Set(list)]]: the first occurrence of every element, in order. *)
Fixpoint unique (seen l : list string) : list string :=
  match l with
  | [] => []
  | x :: l' =>
      if existsb (String.eqb x) seen then unique seen l'
      else x :: unique (x :: seen) l'
  end.

Definition commonDishes : list string :=
  ["aloo gobi"; "aloo matar"; "aloo paratha"; "aloo tikki"; "aloo bhaji";
   "baingan bharta"; "bhindi masala"; "butter chicken"; "chana masala";
   "chicken biryani"; "chicken curry"; "chicken korma"; "chicken tikka masala";
   "dal makhani"; "dal tadka"; "fish curry"; "gobi paratha"; "idli";
   "kadhi"; "keema"; "khichdi"; "kofta"; "korma"; "ladoo"; "malai kofta";
   "mutton curry"; "naan"; "palak paneer"; "paneer butter masala"; "paneer tikka";
   "paneer"; "paratha"; "pulao"; "rajma"; "rasam"; "roti"; "samosa";
   "sambar"; "tandoori chicken"; "tikka"; "upma"; "vada"; "veg biryani"].

Section Fetcher.
(** [Object.keys(this.dummyRecipes)]: the names of the stored recipes. *)
Variable dummyRecipeNames : list string.

(** [loadKnownDishes()] *)
Definition loadKnownDishes : list string :=
  let knownDishes := dummyRecipeNames in
  unique [] (knownDishes ++ commonDishes).

Definition knownDishes : list string := loadKnownDishes.

(** [isValidKnownDish(dishName)] *)
Definition isValidKnownDish (dishName : jsval) : bool :=
  match dishName with
  | JStr s =>
      if String.eqb s "" then false
      else
        let normalizedName := trim (toLowerCase s) in
        existsb (fun dish => includes normalizedName dish
                             || includes dish normalizedName)
          knownDishes
  | _ => false
  end.
End Fetcher.
End RecipeFetcher.

(* ===================================================================== *)
(** ** [dishClassifier.js] *)
(* ===================================================================== *)

Module DishClassifier.



(** [[a-zA-Z\s\-.,'()]] *)
Definition isNameSymbol (c : ascii) : bool :=
  isAlpha c || isSpace c || Ascii.eqb c "-" || Ascii.eqb c "."
  || Ascii.eqb c "," || Ascii.eqb c "'" || Ascii.eqb c "(" || Ascii.eqb c ")".

(** [/^[a-zA-Z\s\-.,'()]+$/] *)
Definition validNameRegex : regex := Seq Bol (Seq (Plus isNameSymbol) Eol).

(** [isValidDishName(dishName)] *)
Definition isValidDishName (dishName : jsval) : bool :=
  match dishName with
  | JStr s =>
      if String.eqb s "" then false
      else
        let trimmedName := trim s in
        if (String.length trimmedName <? 3)%nat then false
        else if negb (test false (Cls isAlpha) trimmedName) then false
        else test false validNameRegex trimmedName
  | _ => false
  end.


End DishClassifier.

(* ===================================================================== *)
(** ** [scripts/processNutritionData.js] *)
(* ===================================================================== *)

Module ProcessNutritionData.

Definition selectedColumns : list string :=
  [ "food_name"; "energy_kcal"; "protein_g"; "carb_g"; "fat_g"; "fibre_g" ].

(** The values of [columnMap], in the order of the object literal. *)
Definition outputColumns : list string :=
  [ "ingredient"; "calories_per_100g"; "protein_per_100g"; "carbs_per_100g";
    "fat_per_100g"; "fiber_per_100g" ].

(** [[^\w\s]] *)
Definition isPunctuation (c : ascii) : bool := negb (isWord c || isSpace c).

(** The clean-up of [food_name]:
    [toLowerCase().replace(/[^\w\s]/g, '').replace(/\s+/g, '_').trim()]. *)
Definition cleanName (foodName : string) : string :=
  trim (replaceAll false (Plus isSpace) "_"
          (replaceAll false (Cls isPunctuation) "" (toLowerCase foodName))).

(** A row of [results]. *)
Record ProcessedRow : Type := {
  ingredient : string;
  calories_per_100g : num;
  protein_per_100g : num;
  carbs_per_100g : num;
  fat_per_100g : num;
  fiber_per_100g : num
}.

(** The name of a source row: cleaned when the column is there and not
    empty, [''] otherwise. *)
Definition nameOf (cell : option string) : string :=
  match cell with
  | Some text => if String.eqb text "" then "" else cleanName text
  | None => ""
  end.

(** A numeric column of a source row: [parseFloat(cell) || 0] when the
    column is there and not empty, [0] otherwise. *)
Definition numberOf (cell : option string) : num :=
  match cell with
  | Some text => if String.eqb text "" then zero else (parseFloat text || zero)%num
  | None => zero
  end.

(** The row made of a row of the source file, which the CSV reader gives as
    an object from column names to texts. *)
Definition processRow (row : gmap string string) : ProcessedRow :=
  {| ingredient := nameOf (row !! "food_name");
     calories_per_100g := numberOf (row !! "energy_kcal");
     protein_per_100g := numberOf (row !! "protein_g");
     carbs_per_100g := numberOf (row !! "carb_g");
     fat_per_100g := numberOf (row !! "fat_g");
     fiber_per_100g := numberOf (row !! "fibre_g") |}.

(** The handler of a ['data'] event, on [results] and the set
    [processedIngredients]. *)
Definition onData (state : list ProcessedRow * gset string)
    (row : gmap string string) : list ProcessedRow * gset string :=
  let '(results, processedIngredients) := state in
  let processedRow := processRow row in
  if negb (String.eqb (ingredient processedRow) "")
     && negb (bool_decide (ingredient processedRow ∈ processedIngredients))
  then ((results ++ [processedRow])%list,
        processedIngredients ∪ {[ ingredient processedRow ]})
  else state.

(** [results] when the source file has been read. *)
Definition processRows (rows : list (gmap string string)) : list ProcessedRow :=
  fst (fold_left onData rows ([], ∅)).

(** [parts.join(sep)] *)
Fixpoint join (sep : string) (parts : list string) : string :=
  match parts with
  | [] => ""
  | [part] => part
  | part :: parts' => part ++ sep ++ join sep parts'
  end.

Section Writer.
(** The text that [Array.prototype.join] makes of a number. *)
Variable numberToString : num -> string.

Definition cells (row : ProcessedRow) : list string :=
  [ ingredient row; numberToString (calories_per_100g row);
    numberToString (protein_per_100g row); numberToString (carbs_per_100g row);
    numberToString (fat_per_100g row); numberToString (fiber_per_100g row) ].

(** The content written to [data/processedNutritionDB.csv]. *)
Definition csvContent (results : list ProcessedRow) : string :=
  let header := join "," outputColumns in
  let rows := map (fun row => join "," (cells row)) results in
  join (String "010" "") (header :: rows).

End Writer.

End ProcessNutritionData.

(* ===================================================================== *)
(** ** Auxiliary notions used in the statements *)
(* ===================================================================== *)

Module Aux.

(** Every character of [s] satisfies [p]. *)
Fixpoint allChars (p : ascii -> bool) (s : string) : bool :=
  match s with
  | EmptyString => true
  | String c s' => p c && allChars p s'
  end.

(** The character before the position reached after reading [w], when
    [prev] is the character before [w]. *)
Fixpoint lastChar (prev : option ascii) (w : string) : option ascii :=
  match w with
  | EmptyString => prev
  | String c w' => lastChar (Some c) w'
  end.

Definition isNot (c x : ascii) : bool := negb (Ascii.eqb x c).

(** The groups that occur in a regular expression. *)
Fixpoint groupsOf (r : regex) : list nat :=
  match r with
  | Seq a b | Alt a b => groupsOf a ++ groupsOf b
  | Opt a => groupsOf a
  | Grp n a => n :: groupsOf a
  | _ => []
  end.

(** Group [n] takes part in every match of [r]. *)
Fixpoint binds (n : nat) (r : regex) : bool :=
  match r with
  | Seq a b => binds n a || binds n b
  | Alt a b => binds n a && binds n b
  | Grp m a => Nat.eqb m n || binds n a
  | _ => false
  end.

(** A character of the names that the table preparation script emits: a
    lower-case letter, a digit or an underscore. *)
Definition isNameChar (c : ascii) : bool :=
  inRange 97 122 c || isDigit c || (code c =? 95).

(** Every number stored in the object [o] satisfies [p]. *)
Definition allEntries (p : num -> bool) (o : gmap string num) : bool :=
  forallb (fun kv => p (snd kv)) (map_to_list o).

(** A usable conversion factor: finite and not negative. *)
Definition goodFactor (w : num) : bool := isFinite w && nonneg w.

Definition goodUnitData (d : unitData) : bool :=
  match d with
  | UNum n => goodFactor n
  | UObj o => allEntries goodFactor o
  end.

(** Every conversion factor of the table is finite and not negative. *)
Definition goodFactors (hm : HouseholdMeasurements) : bool :=
  forallb (fun kv => goodUnitData (snd kv)) (map_to_list (measurements hm))
  && forallb (fun kv => allEntries goodFactor (snd kv))
       (map_to_list (ingredientCategories hm)).

(** The head of [s], if any, fails [p]. *)
Definition headFails (p : ascii -> bool) (s : string) : bool :=
  match s with
  | String c _ => negb (p c)
  | EmptyString => true
  end.

(** A non-empty run of decimal digits. *)
Definition isDigits (s : string) : bool :=
  negb (String.eqb s "") && allChars isDigit s.

(** The text of a decimal numeral with integer digits [i] and, optionally,
    fraction digits. *)
Definition fractionText (f : option string) : string :=
  match f with
  | Some d => "." ++ d
  | None => ""
  end.

Definition numeralText (i : string) (f : option string) : string :=
  i ++ fractionText f.

Definition isNumeral (i : string) (f : option string) : bool :=
  isDigits i && match f with Some d => isDigits d | None => true end.

(** The integer that a run of digits denotes, after the digits [acc]. *)
Fixpoint digitsValue (acc : Z) (s : string) : Z :=
  match s with
  | EmptyString => acc
  | String c s' => digitsValue (10 * acc + digitVal c) s'
  end.

(** The number nearest to the rational that the numeral denotes. *)
Definition numeralValue (i : string) (f : option string) : num :=
  match f with
  | Some d => decimal (digitsValue 0 (i ++ d)) (- Z.of_nat (String.length d))
  | None => decimal (digitsValue 0 i) 0
  end.

(** A key that names neither an inherited property nor a method of
    numbers. *)
Definition plainKey (key : string) : bool :=
  negb (isInherited key) && negb (existsb (String.eqb key) numberMethods).

(** A factor as the table gives it: finite and not negative, or, under a
    key that is not plain, [NaN]. *)
Definition factorOK (plain : bool) (w : num) : Prop :=
  goodFactor w = true \/ (plain = false /\ w = NaN).

(** What holds of the grams computed from the parsed value [value]: the
    result is not negative, and with plain keys it is [NaN] only if [value]
    is [NaN] or infinite. *)
Definition gramsOK (plain : bool) (value g : num) : Prop :=
  nonneg g = true /\ (plain = true -> isFinite value = true -> isNaN g = false).

(** The keys of a conversion are plain: neither the unit nor the normalized
    name is the name of an inherited property. *)
Definition plainKeys (unit : option string) (ni : string) : bool :=
  plainKey ni && negb (isInherited (QuantityStandardizer.unitKey unit)).

(** *** Notions about the aggregation *)

Import IngredientMapper NutritionCalculator.

(** No field is [NaN]. *)
Definition numeric (n : Nutrition) : Prop :=
  isNaN (calories n) = false /\ isNaN (protein n) = false
  /\ isNaN (carbs n) = false /\ isNaN (fat n) = false
  /\ isNaN (fiber n) = false.

(** A number in the usual sense that is not negative: not [NaN], sign bit
    clear; [Infinity] is included. *)
Definition isAmount (x : num) : bool := nonneg x && negb (isNaN x).

(** [v] is [raw] with [NaN] replaced by zero: every other value, the
    infinite ones too, is left as it is. *)
Definition zeroForNaN (raw v : num) : Prop :=
  (isNaN raw = true -> v = zero) /\ (isNaN raw = false -> v = raw).

(** The five fields of [n] are those of [raw] with [NaN] replaced by zero. *)
Definition zeroedNaN (raw n : Nutrition) : Prop :=
  zeroForNaN (calories raw) (calories n)
  /\ zeroForNaN (protein raw) (protein n)
  /\ zeroForNaN (carbs raw) (carbs n)
  /\ zeroForNaN (fat raw) (fat n)
  /\ zeroForNaN (fiber raw) (fiber n).

(** The five fields are numbers that are not negative. *)
Definition amounts (n : Nutrition) : Prop :=
  isAmount (calories n) = true /\ isAmount (protein n) = true
  /\ isAmount (carbs n) = true /\ isAmount (fat n) = true
  /\ isAmount (fiber n) = true.

(** The turns of the callbacks when the callback of position [n] is taken
    away: the later ones move up by one position. *)
Definition skipTurn (n : nat) (turn : nat -> nat) (i : nat) : nat :=
  if (i <? n)%nat then turn i else turn (S i).

Definition hasNutrition (p : ProcessedIngredient) : bool :=
  match nutrition p with Some _ => true | None => false end.

(** The processed ingredients whose [nutrition] is not [null]. *)
Definition resolved (ps : list ProcessedIngredient) : list ProcessedIngredient :=
  List.filter hasNutrition ps.

(** The sum of a list of numbers, from [0], left to right. *)
Definition sum (xs : list num) : num := fold_left Num.add xs zero.

(** The value of a nutrient field of a processed ingredient. *)
Definition fieldOf (field : Nutrition -> num) (p : ProcessedIngredient) : num :=
  match nutrition p with
  | Some n => field n
  | None => zero
  end.

(** The sums that the specification describes: over the ingredients with a
    nutrition and over nothing else. *)
Definition sumField (field : Nutrition -> num) (ps : list ProcessedIngredient)
    : num :=
  sum (map (fieldOf field) (resolved ps)).

Definition sumWeights (ps : list ProcessedIngredient) : num :=
  sum (map weight_g (resolved ps)).

(** The five numeric cells of a table row are read as numbers that are not
    negative (or as [NaN], which the calculator replaces by zero). *)
Definition goodRow (row : NutritionRow) : bool :=
  nonneg (perHundred (calories_per_100g row))
  && nonneg (perHundred (protein_per_100g row))
  && nonneg (perHundred (carbs_per_100g row))
  && nonneg (perHundred (fat_per_100g row))
  && nonneg (perHundred (fiber_per_100g row)).

(** The scaling ratio in the words of the specification:
    [targetServingGrams / max(totalWeightGrams, 1)]. *)
Definition specRatio (targetServingGrams totalWeightGrams : num) : num :=
  (targetServingGrams / Num.max totalWeightGrams (ofZ 1))%num.

End Aux.

Import Aux.
(* ===================================================================== *)
(** ** Further notions used in the statements *)
(* ===================================================================== *)

Module Notions.

Import QuantityStandardizer.

Definition notDigit (c : ascii) : bool := negb (isDigit c).

Definition notAlpha (c : ascii) : bool := negb (isAlpha c).

(** [[a-z]] *)
Definition isLower (c : ascii) : bool := inRange 97 122 c.

Definition anyChar (c : ascii) : bool := true.

(** The condition of the last rule of [parseQuantity]. *)
Definition qualitative (q : string) : bool :=
  includes "to taste" (toLowerCase q) || includes "as needed" (toLowerCase q)
  || includes "as required" (toLowerCase q).

(** What is left of [s] from its first letter on. *)
Fixpoint fromAlpha (s : string) : string :=
  match s with
  | String c s' => if isAlpha c then s else fromAlpha s'
  | EmptyString => EmptyString
  end.

(** Every character that [r] can read satisfies [p]. *)
Fixpoint reads (p : ascii -> bool) (r : regex) : Prop :=
  match r with
  | Chr c => forall ci x, chrEq ci c x = true -> p x = true
  | Cls q | Many q => forall x, q x = true -> p x = true
  | Seq a b | Alt a b => reads p a /\ reads p b
  | Opt a | Grp _ a => reads p a
  | _ => True
  end.

(** A unit word that none of the rules for grams, pounds and millilitres
    takes for its own: letters only, and not beginning with ["g"] (unless
    it mentions ["glass"]), ["lb"], ["pound"] or ["ml"]. *)
Definition plainUnit (u : string) : bool :=
  negb (String.eqb u "") && allChars isAlpha u
  && (includes "glass" u || negb (String.prefix "g" u))
  && negb (String.prefix "lb" u) && negb (String.prefix "pound" u)
  && negb (String.prefix "ml" u).

(** A non-empty word of lower-case letters. *)
Definition unitWord (u : string) : bool :=
  negb (String.eqb u "") && allChars isLower u.

Definition unitOK (pq : ParsedQuantity) : Prop :=
  match unit pq with
  | Some u => unitWord u = true
  | None => True
  end.


(** A quantity that [parseQuantity] gives up on: anything that is not a
    string, and a phrase without digits that is not one of the qualitative
    ones. *)
Definition unparsed (quantity : jsval) : bool :=
  match quantity with
  | JStr q => allChars notDigit q && negb (qualitative q)
  | _ => true
  end.

(** A name of the table: not empty, and the name of one of its rows. *)
Definition inTable (nutritionDB : list IngredientMapper.NutritionRow)
    (s : string) : Prop :=
  s <> "" /\ exists row, In row nutritionDB /\ IngredientMapper.ingredient row = s.

(** A character that lower-casing leaves as it is. *)
Definition isLowered (c : ascii) : bool := Ascii.eqb (lowerChar c) c.

(** A text without comma and without white space, line ends included. *)
Definition plainCell (t : string) : bool :=
  allChars (fun c => negb (Ascii.eqb c "," || isSpace c)) t.

(** The row of texts that the writer makes of a row of numbers. *)
Definition writtenRow (numberToString : num -> string)
    (row : ProcessNutritionData.ProcessedRow) : IngredientMapper.NutritionRow :=
  {| IngredientMapper.ingredient := ProcessNutritionData.ingredient row;
     IngredientMapper.calories_per_100g :=
       numberToString (ProcessNutritionData.calories_per_100g row);
     IngredientMapper.protein_per_100g :=
       numberToString (ProcessNutritionData.protein_per_100g row);
     IngredientMapper.carbs_per_100g :=
       numberToString (ProcessNutritionData.carbs_per_100g row);
     IngredientMapper.fat_per_100g :=
       numberToString (ProcessNutritionData.fat_per_100g row);
     IngredientMapper.fiber_per_100g :=
       numberToString (ProcessNutritionData.fiber_per_100g row) |}.

(** What the script keeps true of [results] and of the set of the names
    seen so far. *)
Definition tableInvariant
    (state : list ProcessNutritionData.ProcessedRow * gset string) : Prop :=
  (forall n, n ∈ snd state
             <-> In n (map ProcessNutritionData.ingredient (fst state)))
  /\ NoDup (map ProcessNutritionData.ingredient (fst state))
  /\ Forall (fun row =>
               ProcessNutritionData.ingredient row <> ""
               /\ allChars isNameChar (ProcessNutritionData.ingredient row)
                  = true)
       (fst state).

(** Some character of [s] satisfies [p]. *)
Fixpoint existsChar (p : ascii -> bool) (s : string) : bool :=
  match s with
  | EmptyString => false
  | String c s' => p c || existsChar p s'
  end.

(** A dish name as both validators want it: at least three characters, at
    least one letter, and nothing but letters, white space and the
    punctuation marks [-',.()]. *)
Definition validName (s : string) : bool :=
  (3 <=? String.length s)%nat && existsChar isAlpha s
  && allChars NutritionCalculator.isDishNameChar s.

(** A weight above zero and of at most 5000. *)
Definition inRangeWeight (g : num) : bool :=
  Num.lt zero g && Num.le g (ofZ 5000).

(** [s] holds [sub] somewhere inside, as [s.includes(sub)] wants it. *)
Definition holds (s sub : string) : Prop :=
  exists before after, s = before ++ sub ++ after.

(** One of the two strings holds the other. *)
Definition overlap (a b : string) : Prop := holds a b \/ holds b a.

End Notions.

Import Notions.
(* ===================================================================== *)
(** ** Sample tables used by the examples *)
(* ===================================================================== *)

Module Sample.

Import IngredientMapper NutritionCalculator.

(** A conversion table in the shape of [householdMeasurements.json]. *)
Definition table : HouseholdMeasurements :=
  {| measurements :=
       {[ "cup" := UNum (ofZ 150);
          "piece" := UObj {[ "potato" := ofZ 150; "egg" := ofZ 50 ]};
          "medium" := UObj {[ "onion" := ofZ 120 ]} ]};
     ingredients := {[ "spinach" := "leafy_green" ]};
     ingredientCategories := {[ "leafy_green" := {[ "cup" := ofZ 30 ]} ]};
     foodTypes := {[ "Dal" := {| serving := ofZ 180 |} ]} |}.

Definition row (name kcal : string) : NutritionRow :=
  {| ingredient := name; calories_per_100g := kcal;
     protein_per_100g := "2"; carbs_per_100g := "3";
     fat_per_100g := "1"; fiber_per_100g := "" |}.

Definition ghee : NutritionRow :=
  {| ingredient := "ghee"; calories_per_100g := "900";
     protein_per_100g := "0"; carbs_per_100g := "0";
     fat_per_100g := "100"; fiber_per_100g := "0" |}.

(** A nutrition table. *)
Definition db : list NutritionRow :=
  [ row "cream" "300"; row "fresh cream" "250"; row "onion" "40";
    row "turmeric_powder" "312"; ghee ].

Definition synonyms : gmap string string :=
  {[ "onions" := "onion"; "haldi" := "turmeric_powder" ]}.

(** The mapper over the sample tables, without a text generator. *)
Definition getNutritionData (name : string) : outcome (option NutritionRow) :=
  Ret (IngredientMapper.getNutritionData db synonyms None name).

(** A table with a negative cell, and the mapper over it. *)
Definition corrupt : list NutritionRow := [ row "cream" "300"; row "ash" "-5" ].

Definition getCorrupt (name : string) : outcome (option NutritionRow) :=
  Ret (IngredientMapper.getNutritionData corrupt synonyms None name).

(** Every promise of the mapper is settled in the same turn. *)
Definition sameTurn (i : nat) : nat := 0%nat.

Definition item (name phrase : string) : Ingredient :=
  {| name := JStr name; quantity := JStr phrase;
     standardQuantity := JUndefined |}.

(** Rows of a source file, as the CSV reader gives them. *)
Definition source : list (gmap string string) :=
  [ {[ "food_name" := "Red Onion (raw)"; "energy_kcal" := "40" ]};
    {[ "food_name" := "Spring  Onion"; "energy_kcal" := "40.0";
       "protein_g" := "n/a" ]};
    {[ "food_name" := "red onion, raw"; "energy_kcal" := "40" ]} ].

(** Rows as the script keeps them. *)
Definition results : list ProcessNutritionData.ProcessedRow :=
  [ {| ProcessNutritionData.ingredient := "onion";
       ProcessNutritionData.calories_per_100g := ofZ 40;
       ProcessNutritionData.protein_per_100g := zero;
       ProcessNutritionData.carbs_per_100g := zero;
       ProcessNutritionData.fat_per_100g := zero;
       ProcessNutritionData.fiber_per_100g := zero |} ].

(** A printer of numbers that is right for 0 and 40, the numbers of
    [source] and of [results]. *)
Definition numberToString (x : num) : string :=
  if isNaN x then "NaN" else if truthy x then "40" else "0".

End Sample.


(* ===================================================================== *)
(** ** Facts about numbers *)
(* ===================================================================== *)

Module NumFacts.

(** *** Signs *)

Lemma round_aux_nonneg m e l :
  nonneg (binary_round_aux prec emax false m e l) = true.
Proof.
  unfold binary_round_aux.
  destruct (shr_fexp prec emax m e l) as [mrs e1].
  destruct (shr_fexp prec emax _ e1 loc_Exact) as [mrs2 e2].
  destruct (shr_m mrs2); [reflexivity | | reflexivity].
  destruct (e2 <=? emax - prec); reflexivity.
Qed.

Lemma binary_round_nonneg m e :
  nonneg (binary_round prec emax false m e) = true.
Proof.
  unfold binary_round.
  destruct (shl_align m e _) as [mz ez]. apply round_aux_nonneg.
Qed.

Lemma normalize_nonneg z e :
  0 <= z -> nonneg (binary_normalize prec emax z e false) = true.
Proof.
  intros Hz. destruct z; simpl; [reflexivity | apply binary_round_nonneg | lia].
Qed.

Lemma ofZ_nonneg z : 0 <= z -> nonneg (ofZ z) = true.
Proof. apply normalize_nonneg. Qed.

Lemma decimal_nonneg m e : nonneg (decimal m e) = true.
Proof.
  unfold decimal. destruct m as [|p|p]; try reflexivity.
  destruct (0 <=? e) eqn:He.
  - apply normalize_nonneg. apply Z.leb_le in He.
    apply Z.mul_nonneg_nonneg; [lia | apply Z.pow_nonneg; lia].
  - destruct (SFdiv_core_binary _ _ _ _ _ _) as [[q e'] l].
    apply round_aux_nonneg.
Qed.

Lemma mul_nonneg x y :
  nonneg x = true -> nonneg y = true -> nonneg (x * y)%num = true.
Proof.
  destruct x as [sx|sx| |sx mx ex], y as [sy|sy| |sy my ey]; simpl;
    intros Hx Hy; try reflexivity;
    apply negb_true_iff in Hx; apply negb_true_iff in Hy; subst;
    try reflexivity.
  apply round_aux_nonneg.
Qed.

Lemma div_nonneg x y :
  nonneg x = true -> nonneg y = true -> nonneg (x / y)%num = true.
Proof.
  destruct x as [sx|sx| |sx mx ex], y as [sy|sy| |sy my ey]; simpl;
    intros Hx Hy; try reflexivity;
    apply negb_true_iff in Hx; apply negb_true_iff in Hy; subst;
    try reflexivity.
  unfold SFdiv_core_binary.
  destruct (Z.div_eucl _ _) as [q r]. apply round_aux_nonneg.
Qed.

Lemma add_nonneg x y :
  nonneg x = true -> nonneg y = true -> nonneg (x + y)%num = true.
Proof.
  destruct x as [sx|sx| |sx mx ex], y as [sy|sy| |sy my ey]; simpl;
    intros Hx Hy; try reflexivity;
    apply negb_true_iff in Hx; apply negb_true_iff in Hy; subst;
    try reflexivity.
  apply binary_round_nonneg.
Qed.


(** *** Results that are numbers *)

Lemma iter_pos_invariant {A : Type} (P : A -> Prop) (f : A -> A) :
  (forall x, P x -> P (f x)) -> forall p x, P x -> P (SpecFloat.iter_pos f p x).
Proof.
  intros Hf. induction p as [p IH|p IH|]; intros x Hx; simpl; auto.
Qed.

Lemma shr_1_nonneg mrs : 0 <= shr_m mrs -> 0 <= shr_m (shr_1 mrs).
Proof.
  destruct mrs as [m r s]. simpl. intros Hm.
  destruct m as [|[p|p|]|p]; simpl; lia.
Qed.

Lemma shr_fexp_nonneg m e l :
  0 <= m -> 0 <= shr_m (fst (shr_fexp prec emax m e l)).
Proof.
  intros Hm. unfold shr_fexp, shr.
  assert (H0 : 0 <= shr_m (shr_record_of_loc m l))
    by (destruct l as [|[]]; simpl; exact Hm).
  destruct (fexp prec emax (Zdigits2 m + e) - e); simpl; auto.
  apply (iter_pos_invariant (fun x => 0 <= shr_m x)); auto using shr_1_nonneg.
Qed.

Lemma round_nearest_even_nonneg m l : 0 <= m -> 0 <= round_nearest_even m l.
Proof.
  intros Hm. destruct l as [|[]]; simpl; try lia.
  destruct (Z.even m); lia.
Qed.

Lemma round_aux_not_nan s m e l :
  0 <= m -> isNaN (binary_round_aux prec emax s m e l) = false.
Proof.
  intros Hm. unfold binary_round_aux.
  pose proof (shr_fexp_nonneg m e l Hm) as H1.
  destruct (shr_fexp prec emax m e l) as [mrs e1]. simpl in H1.
  pose proof (shr_fexp_nonneg _ e1 loc_Exact
                (round_nearest_even_nonneg _ (loc_of_shr_record mrs) H1)) as H2.
  destruct (shr_fexp prec emax _ e1 loc_Exact) as [mrs2 e2]. simpl in H2.
  destruct (shr_m mrs2); [reflexivity | | lia].
  destruct (e2 <=? emax - prec); reflexivity.
Qed.

Lemma binary_round_not_nan s m e :
  isNaN (binary_round prec emax s m e) = false.
Proof.
  unfold binary_round.
  destruct (shl_align m e _) as [mz ez]. apply round_aux_not_nan. lia.
Qed.

Lemma normalize_not_nan z e sz :
  isNaN (binary_normalize prec emax z e sz) = false.
Proof. destruct z; simpl; auto using binary_round_not_nan. Qed.

(** Multiplying numbers gives [NaN] only from [NaN] or from zero times
    infinity. *)
Lemma mul_finite_not_nan x y :
  isFinite x = true -> isFinite y = true -> isNaN (x * y)%num = false.
Proof.
  destruct x as [sx|sx| |sx mx ex], y as [sy|sy| |sy my ey]; simpl;
    intros Hx Hy; try discriminate; try reflexivity.
  apply round_aux_not_nan. lia.
Qed.

Lemma add_not_nan x y :
  nonneg x = true -> nonneg y = true -> isNaN x = false -> isNaN y = false ->
  isNaN (x + y)%num = false.
Proof.
  destruct x as [sx|sx| |sx mx ex], y as [sy|sy| |sy my ey]; simpl;
    intros Hx Hy Nx Ny; try discriminate; try reflexivity;
    apply negb_true_iff in Hx; apply negb_true_iff in Hy; subst;
    try reflexivity.
  apply binary_round_not_nan.
Qed.

End NumFacts.

Import NumFacts.

(* ===================================================================== *)
(** ** Facts about strings *)
(* ===================================================================== *)

Module StrFacts.

Lemma app_assoc (a b c : string) : (a ++ b) ++ c = a ++ (b ++ c).
Proof. induction a as [|x a IH]; simpl; [reflexivity | now rewrite IH]. Qed.

Lemma app_nil_r (a : string) : a ++ "" = a.
Proof. induction a as [|x a IH]; simpl; [reflexivity | now rewrite IH]. Qed.

Lemma length_app (a b : string) :
  String.length (a ++ b) = (String.length a + String.length b)%nat.
Proof. induction a as [|x a IH]; simpl; [reflexivity | now rewrite IH]. Qed.

Lemma lastChar_app prev a b :
  lastChar prev (a ++ b) = lastChar (lastChar prev a) b.
Proof. revert prev. induction a as [|x a IH]; intros prev; simpl; auto. Qed.

Lemma firstn_app (w s : string) : Str.firstn (String.length w) (w ++ s) = w.
Proof. induction w as [|x w IH]; simpl; [now destruct s | now rewrite IH]. Qed.

Lemma consumed_app (w s : string) : consumed (w ++ s) s = w.
Proof.
  unfold consumed. rewrite length_app.
  replace (String.length w + String.length s - String.length s)%nat
    with (String.length w) by lia.
  apply firstn_app.
Qed.

Lemma allChars_app p a b :
  allChars p (a ++ b) = allChars p a && allChars p b.
Proof.
  induction a as [|x a IH]; simpl; [reflexivity|].
  now rewrite IH, andb_assoc.
Qed.

End StrFacts.

Import StrFacts.

(* ===================================================================== *)
(** ** Facts about the matcher *)
(* ===================================================================== *)

Module RegexFacts.

Section Inversion.
Context {A : Type}.
Implicit Types (k : @cont A) (v : A).

Lemma many_inv p prev s cs k v :
  many p prev s cs k = Some v ->
  exists w s', s = w ++ s' /\ allChars p w = true
               /\ k (lastChar prev w) s' cs = Some v.
Proof.
  revert prev. induction s as [|c s IH]; intros prev H; simpl in H.
  - exists "", "". auto.
  - destruct (p c) eqn:Hc.
    + destruct (many p (Some c) s cs k) eqn:Hm.
      * injection H as ->. apply IH in Hm as (w & s' & -> & Hw & Hk).
        exists (String c w), s'. simpl. rewrite Hc, Hw. auto.
      * exists "", (String c s). auto.
    + exists "", (String c s). auto.
Qed.

(** Whenever a match attempt succeeds, the continuation has been run on a
    suffix of the input, after the captures of the groups of [r]. *)
Lemma rmatch_inv ci r : forall prev s cs k v,
  rmatch ci r prev s cs k = Some v ->
  exists w s' new,
    s = w ++ s'
    /\ k (lastChar prev w) s' (new ++ cs)%list = Some v
    /\ (forall n t, In (n, t) new -> In n (groupsOf r))
    /\ (forall n, binds n r = true -> exists t, In (n, t) new).
Proof.
  induction r as [|c|p|p|r1 IH1 r2 IH2|r1 IH1 r2 IH2|r1 IH1|g r1 IH1| | |];
    intros prev s cs k v H; simpl in H.
  - exists "", s, []. repeat split; auto; try (intros; simpl in *; easy).
  - destruct s as [|x s]; [discriminate|].
    destruct (chrEq ci c x); [|discriminate].
    exists (String x ""), s, []. repeat split; auto; intros; simpl in *; easy.
  - destruct s as [|x s]; [discriminate|].
    destruct (p x); [|discriminate].
    exists (String x ""), s, []. repeat split; auto; intros; simpl in *; easy.
  - apply many_inv in H as (w & s' & -> & _ & Hk).
    exists w, s', []. repeat split; auto; intros; simpl in *; easy.
  - apply IH1 in H as (w1 & s1 & new1 & -> & H & G1 & B1).
    apply IH2 in H as (w2 & s2 & new2 & -> & H & G2 & B2).
    exists (w1 ++ w2), s2, (new2 ++ new1)%list.
    rewrite app_assoc, lastChar_app, <- List.app_assoc.
    repeat split; auto.
    + intros n t Hin. simpl. apply in_app_iff. apply in_app_iff in Hin.
      destruct Hin; [right | left]; eauto.
    + intros n Hb. simpl in Hb. apply orb_true_iff in Hb as [Hb|Hb].
      * destruct (B1 n Hb) as [t Ht]. exists t. apply in_app_iff. auto.
      * destruct (B2 n Hb) as [t Ht]. exists t. apply in_app_iff. auto.
  - destruct (rmatch ci r1 prev s cs k) eqn:H1.
    + injection H as ->. apply IH1 in H1 as (w & s' & new & -> & H & G & B).
      exists w, s', new. repeat split; auto.
      * intros n t Hin. simpl. apply in_app_iff. eauto.
      * intros n Hb. simpl in Hb. apply andb_true_iff in Hb as [Hb _]. auto.
    + apply IH2 in H as (w & s' & new & -> & H & G & B).
      exists w, s', new. repeat split; auto.
      * intros n t Hin. simpl. apply in_app_iff. eauto.
      * intros n Hb. simpl in Hb. apply andb_true_iff in Hb as [_ Hb]. auto.
  - destruct (rmatch ci r1 prev s cs k) eqn:H1.
    + injection H as ->. apply IH1 in H1 as (w & s' & new & -> & H & G & B).
      exists w, s', new. repeat split; auto. intros; simpl in *; easy.
    + exists "", s, []. repeat split; auto; intros; simpl in *; easy.
  - apply IH1 in H as (w & s' & new & -> & H & G & B).
    exists w, s', ((g, consumed (w ++ s') s') :: new)%list.
    repeat split; auto.
    + intros n t [Hin|Hin]; simpl; [injection Hin as <- _; auto | eauto].
    + intros n Hb. simpl in Hb. apply orb_true_iff in Hb as [Hb|Hb].
      * apply Nat.eqb_eq in Hb as ->. eexists. left. reflexivity.
      * destruct (B n Hb) as [t Ht]. exists t. right. auto.
  - destruct prev; [discriminate|].
    exists "", s, []. repeat split; auto; intros; simpl in *; easy.
  - destruct s; [|discriminate].
    exists "", "", []. repeat split; auto; intros; simpl in *; easy.
  - destruct (boundary prev s); [|discriminate].
    exists "", s, []. repeat split; auto; intros; simpl in *; easy.
Qed.

End Inversion.

Lemma group_skip n new cs :
  (forall t, ~ In (n, t) new) -> group n (new ++ cs)%list = group n cs.
Proof.
  induction new as [|[m u] new IH]; intros H; simpl; [reflexivity|].
  destruct (Nat.eqb m n) eqn:E.
  - apply Nat.eqb_eq in E as ->. exfalso. apply (H u). left. reflexivity.
  - apply IH. intros t Ht. apply (H t). right. exact Ht.
Qed.

Lemma group_in n t cs : In (n, t) cs -> exists u, group n cs = Some u.
Proof.
  induction cs as [|[m u] cs IH]; intros H; [destruct H|]. simpl.
  destruct (Nat.eqb m n) eqn:E; [eauto|].
  destruct H as [H|H]; [|auto].
  injection H as -> _. rewrite Nat.eqb_refl in E. discriminate.
Qed.

(** The shape of the captures of a successful match attempt. *)
Lemma matchHere_inv ci r prev s s' cs :
  matchHere ci r prev s = Some (s', cs) ->
  exists w new,
    s = w ++ s' /\ cs = ((0%nat, w) :: new)%list
    /\ (forall n t, In (n, t) new -> In n (groupsOf r))
    /\ (forall n, binds n r = true -> exists t, In (n, t) new).
Proof.
  unfold matchHere. simpl. intros H.
  apply rmatch_inv in H as (w & s1 & new & -> & H & G & B).
  injection H as <- <-. exists w, new. rewrite consumed_app, List.app_nil_r.
  auto.
Qed.

Lemma search_inv ci r : forall s prev pre s' cs,
  search ci r prev s = Some (pre, s', cs) ->
  exists s0, s = pre ++ s0
             /\ matchHere ci r (lastChar prev pre) s0 = Some (s', cs).
Proof.
  induction s as [|c s IH]; intros prev pre s' cs H; simpl in H.
  - destruct (matchHere ci r prev "") as [[s1 cs1]|] eqn:Hm; [|discriminate].
    injection H as <- <- <-. exists "". auto.
  - destruct (matchHere ci r prev (String c s)) as [[s1 cs1]|] eqn:Hm.
    + injection H as <- <- <-. exists (String c s). auto.
    + destruct (search ci r (Some c) s) as [[[pre1 s1] cs1]|] eqn:Hs;
        [|discriminate].
      injection H as <- <- <-. apply IH in Hs as (s0 & -> & Hs).
      exists s0. auto.
Qed.

Lemma exec_inv ci r s cs :
  exec ci r s = Some cs ->
  exists prev s0 s', matchHere ci r prev s0 = Some (s', cs).
Proof.
  unfold exec. destruct (search ci r None s) as [[[pre s'] cs1]|] eqn:Hs;
    [|discriminate].
  intros H. injection H as <-. apply search_inv in Hs as (s0 & _ & Hs).
  eauto.
Qed.

(** A group that takes part in every match is defined in the result of
    [exec], and so is group 0. *)
Lemma exec_group ci r s cs n :
  exec ci r s = Some cs -> n = 0%nat \/ binds n r = true ->
  exists t, group n cs = Some t.
Proof.
  intros H Hn. apply exec_inv in H as (prev & s0 & s' & H).
  apply matchHere_inv in H as (w & new & _ & -> & _ & B).
  destruct Hn as [->|Hn]; [simpl; eauto|].
  destruct (B n Hn) as [t Ht]. apply (group_in n t). right. exact Ht.
Qed.

End RegexFacts.

Import RegexFacts.

(* ===================================================================== *)
(** ** Facts about number parsing and splitting *)
(* ===================================================================== *)

Module ParseFacts.

(** Case analysis on the 256 characters. *)
Ltac char_cases x :=
  destruct x as [[|] [|] [|] [|] [|] [|] [|] [|]];
  try discriminate; try reflexivity.

Lemma isDigit_not_space x : isDigit x = true -> isSpace x = false.
Proof. intros H. char_cases x. Qed.

Lemma isDigit_signed x t :
  isDigit x = true -> signed (String x t) = (false, String x t).
Proof. intros H. char_cases x. Qed.

Lemma digitVal_nonneg x : isDigit x = true -> 0 <= digitVal x.
Proof. intros H. char_cases x. Qed.

Lemma hexVal_nonneg x d : hexVal x = Some d -> 0 <= d.
Proof.
  unfold hexVal, isDigit, inRange.
  intros H.
  repeat match type of H with
         | (if ?b then _ else _) = _ => destruct b eqn:?
         end; try discriminate; injection H as <-; lia.
Qed.

Lemma takeDigits_nonneg s : forall acc n,
  0 <= acc -> 0 <= fst (fst (takeDigits s acc n)).
Proof.
  induction s as [|c s IH]; intros acc n Hacc; simpl; [exact Hacc|].
  destruct (isDigit c) eqn:Hc; [|exact Hacc].
  apply IH. pose proof (digitVal_nonneg c Hc). lia.
Qed.

Lemma takeHex_nonneg s : forall acc n, 0 <= acc -> 0 <= fst (takeHex s acc n).
Proof.
  induction s as [|c s IH]; intros acc n Hacc; simpl; [exact Hacc|].
  destruct (hexVal c) as [d|] eqn:Hc; [|exact Hacc].
  apply IH. pose proof (hexVal_nonneg c d Hc). lia.
Qed.

Lemma magnitude_nonneg s v : magnitude s = Some v -> nonneg v = true.
Proof.
  unfold magnitude. destruct (String.prefix "Infinity" s).
  - intros H. injection H as <-. reflexivity.
  - destruct (takeDigits s 0 0) as [[i ni] s2].
    destruct (match s2 with String "." r => _ | _ => _ end) as [[f nf] s3].
    destruct (ni + nf =? 0); [discriminate|].
    intros H. injection H as <-. apply decimal_nonneg.
Qed.

(** Without a leading minus sign, [parseFloat] yields [NaN] or a number whose
    sign bit is clear. *)
Lemma parseFloat_nonneg s :
  fst (signed (trimStart s)) = false -> nonneg (parseFloat s) = true.
Proof.
  unfold parseFloat. destruct (signed (trimStart s)) as [sg s1]. simpl.
  intros ->. destruct (magnitude s1) as [v|] eqn:Hm; [|reflexivity].
  eapply magnitude_nonneg; eauto.
Qed.

Lemma parseInt_nonneg s :
  fst (signed (trimStart s)) = false -> nonneg (parseInt s) = true.
Proof.
  unfold parseInt. destruct (signed (trimStart s)) as [sg s1]. simpl.
  intros ->.
  destruct (String.prefix "0x" s1 || String.prefix "0X" s1).
  - pose proof (takeHex_nonneg
                  (String.substring 2 (String.length s1 - 2) s1) 0 0) as H.
    destruct (takeHex _ 0 0) as [v n]. simpl in H.
    destruct (n =? 0); [reflexivity|]. apply ofZ_nonneg. apply H. lia.
  - pose proof (takeDigits_nonneg s1 0 0) as H.
    destruct (takeDigits s1 0 0) as [[v n] r]. simpl in H.
    destruct (n =? 0); [reflexivity|]. apply ofZ_nonneg. apply H. lia.
Qed.

Lemma trimStart_digit x t : isDigit x = true -> trimStart (String x t) = String x t.
Proof. intros H. simpl. now rewrite (isDigit_not_space x H). Qed.

Lemma parseFloat_digit_nonneg x t :
  isDigit x = true -> nonneg (parseFloat (String x t)) = true.
Proof.
  intros H. apply parseFloat_nonneg.
  now rewrite (trimStart_digit x t H), (isDigit_signed x t H).
Qed.

Lemma parseInt_digit_nonneg x t :
  isDigit x = true -> nonneg (parseInt (String x t)) = true.
Proof.
  intros H. apply parseInt_nonneg.
  now rewrite (trimStart_digit x t H), (isDigit_signed x t H).
Qed.

(** *** Strings without a given character *)

Lemma allChars_trimStart p s : allChars p s = true -> allChars p (trimStart s) = true.
Proof.
  induction s as [|c s IH]; simpl; [auto|].
  intros H. destruct (isSpace c); [|exact H].
  apply andb_true_iff in H as [_ H]. auto.
Qed.

Lemma allChars_trimEnd p s : allChars p s = true -> allChars p (trimEnd s) = true.
Proof.
  induction s as [|c s IH]; simpl; [auto|].
  intros H. apply andb_true_iff in H as [Hc H]. specialize (IH H).
  destruct (trimEnd s) as [|c' t].
  - destruct (isSpace c); simpl; [reflexivity | now rewrite Hc].
  - simpl in *. now rewrite Hc, IH.
Qed.

Lemma allChars_trim p s : allChars p s = true -> allChars p (trim s) = true.
Proof. intros H. apply allChars_trimEnd, allChars_trimStart, H. Qed.

Lemma no_minus_signed s :
  allChars (isNot "-") s = true -> fst (signed s) = false.
Proof.
  destruct s as [|c s]; [reflexivity|]. simpl. intros H.
  apply andb_true_iff in H as [Hc _]. char_cases c.
Qed.

Lemma parseFloat_no_minus s :
  allChars (isNot "-") s = true -> nonneg (parseFloat s) = true.
Proof.
  intros H. apply parseFloat_nonneg, no_minus_signed, allChars_trimStart, H.
Qed.

Lemma split_head sep s : allChars (isNot sep) (fst (split sep s)) = true.
Proof.
  induction s as [|c s IH]; simpl; [reflexivity|].
  destruct (split sep s) as [p ps]. simpl in IH.
  destruct (Ascii.eqb c sep) eqn:E; simpl; [reflexivity|].
  unfold isNot at 1. now rewrite E, IH.
Qed.

Lemma split_includes sep s :
  includes (String sep "") s = true ->
  exists p ps, snd (split sep s) = p :: ps.
Proof.
  induction s as [|c s IH]; simpl; [discriminate|].
  destruct (split sep s) as [p ps]. simpl in IH.
  destruct (Ascii.eqb c sep) eqn:E; simpl; [eauto|].
  destruct (ascii_dec sep c) as [->|Hne].
  - rewrite Ascii.eqb_refl in E. discriminate.
  - simpl. intros H. apply IH in H as (p1 & ps1 & ->). eauto.
Qed.

End ParseFacts.

Import ParseFacts.

(* ===================================================================== *)
(** ** Facts about the captures of the quantity patterns *)
(* ===================================================================== *)

Module CaptureFacts.

Import QuantityStandardizer.

Section Captures.
Context {A : Type}.
Implicit Types (k : @cont A) (v : A).

Lemma rmatch_Cls_Seq_inv ci p r prev s cs k v :
  rmatch ci (Seq (Cls p) r) prev s cs k = Some v ->
  exists x s1, s = String x s1 /\ p x = true
               /\ rmatch ci r (Some x) s1 cs k = Some v.
Proof.
  simpl. destruct s as [|x s1]; [discriminate|].
  destruct (p x) eqn:Hp; [|discriminate]. eauto.
Qed.

(** A group [(p...)] whose text begins with a character of class [p]. *)
Lemma rmatch_group_head ci n p r prev s cs k v :
  rmatch ci (Grp n (Seq (Cls p) r)) prev s cs k = Some v ->
  exists x t p' s' new,
    p x = true
    /\ k p' s' ((n, String x t) :: new ++ cs)%list = Some v
    /\ (forall m u, In (m, u) new -> In m (groupsOf r)).
Proof.
  intros H.
  change (rmatch ci (Seq (Cls p) r) prev s cs
            (fun p' s' cs' => k p' s' ((n, consumed s s') :: cs')%list) = Some v)
    in H.
  apply rmatch_Cls_Seq_inv in H as (x & s1 & -> & Hx & H).
  apply rmatch_inv in H as (w & s' & new & -> & H & G & _).
  change (String x (w ++ s')) with (String x w ++ s') in H.
  rewrite consumed_app in H. eauto 10.
Qed.

(** The text of the first group of [(\d+(\.\d+)?)] begins with a digit. *)
Lemma reNumber_head ci prev s cs k v :
  rmatch ci reNumber prev s cs k = Some v ->
  exists x t p' s' new,
    isDigit x = true
    /\ k p' s' ((1%nat, String x t) :: new ++ cs)%list = Some v.
Proof.
  intros H.
  change (rmatch ci
            (Grp 1 (Seq (Cls isDigit)
                      (Seq (Many isDigit)
                         (Opt (Grp 2 (Seq (Chr ".") (Plus isDigit)))))))
            prev s cs k = Some v) in H.
  apply rmatch_group_head in H as (x & t & p' & s' & new & Hx & H & _).
  eauto 10.
Qed.

End Captures.

Lemma no_groups new :
  (forall (m : nat) (u : string), In (m, u) new -> In m []) -> new = [].
Proof.
  destruct new as [|[m u] new]; [reflexivity|].
  intros H. destruct (H m u). left. reflexivity.
Qed.

(** The first group of a match of [(\d+(\.\d+)?)] followed by [tail] begins
    with a digit. *)
Lemma number_capture ci tail prev s s' cs :
  ~ In 1%nat (groupsOf tail) ->
  matchHere ci (Seq reNumber tail) prev s = Some (s', cs) ->
  exists x t, isDigit x = true /\ group 1 cs = Some (String x t).
Proof.
  intros Hfree H. unfold matchHere in H.
  change (rmatch ci reNumber prev s []
            (fun p1 s1 c1 =>
               rmatch ci tail p1 s1 c1
                 (fun p2 s2 c2 => Some (s2, ((0%nat, consumed s s2) :: c2)%list)))
          = Some (s', cs)) in H.
  apply reNumber_head in H as (x & t & p' & s1 & new & Hx & H).
  apply rmatch_inv in H as (w & s2 & new2 & -> & H & G & _).
  injection H as <- <-. exists x, t. split; [exact Hx|].
  simpl. rewrite group_skip; [simpl; reflexivity|].
  intros u Hu. apply Hfree. eapply G. exact Hu.
Qed.

Lemma number_capture_alone ci prev s s' cs :
  matchHere ci reNumber prev s = Some (s', cs) ->
  exists x t, isDigit x = true /\ group 1 cs = Some (String x t).
Proof.
  intros H. unfold matchHere in H.
  change (rmatch ci reNumber prev s []
            (fun p2 s2 c2 => Some (s2, ((0%nat, consumed s s2) :: c2)%list))
          = Some (s', cs)) in H.
  apply reNumber_head in H as (x & t & p' & s1 & new & Hx & H).
  injection H as <- <-. exists x, t. split; [exact Hx|]. reflexivity.
Qed.

Lemma fraction_capture ci prev s s' cs :
  matchHere ci reFraction prev s = Some (s', cs) ->
  exists x t y u,
    isDigit x = true /\ group 1 cs = Some (String x t)
    /\ isDigit y = true /\ group 2 cs = Some (String y u).
Proof.
  intros H. unfold matchHere in H.
  change (rmatch ci (Grp 1 (Seq (Cls isDigit) (Many isDigit))) prev s []
            (fun p1 s1 c1 =>
               rmatch ci (Seq (Many isSpace) (Seq (Chr "/") (Many isSpace))) p1 s1 c1
                 (fun p2 s2 c2 =>
                    rmatch ci (Grp 2 (Seq (Cls isDigit) (Many isDigit))) p2 s2 c2
                      (fun p3 s3 c3 =>
                         Some (s3, ((0%nat, consumed s s3) :: c3)%list))))
          = Some (s', cs)) in H.
  apply rmatch_group_head in H as (x & t & p1 & s1 & new1 & Hx & H & G1).
  apply rmatch_inv in H as (w & s2 & new2 & -> & H & G2 & _).
  apply rmatch_group_head in H as (y & u & p3 & s3 & new3 & Hy & H & G3).
  injection H as <- <-. exists x, t, y, u.
  apply no_groups in G1, G2, G3. subst. simpl. auto.
Qed.

End CaptureFacts.

Import CaptureFacts.

(* ===================================================================== *)
(** ** Facts about the quantity standardizer *)
(* ===================================================================== *)

Module StandardizerFacts.

Import QuantityStandardizer.

(** *** The rules of the parser never throw and yield no negative value *)

Ltac rule_none := exists None; split; [reflexivity | exact I].

Ltac rule_some := eexists; split; [reflexivity|]; cbn [value].

Lemma gramsRule_ok q :
  exists r, gramsRule q = Ret r
            /\ match r with Some pq => nonneg (value pq) = true | None => True end.
Proof.
  unfold gramsRule.
  destruct (includes "g" q && negb (includes "glass" q)); [|rule_none].
  destruct (exec false reGrams q) as [m|] eqn:E; [|rule_none].
  apply exec_inv in E as (prev & s0 & s' & E).
  apply number_capture in E as (x & t & Hx & Hg); [|simpl; tauto].
  unfold groupOf. rewrite Hg. cbn [bind defined]. rule_some.
  now apply parseFloat_digit_nonneg.
Qed.

Lemma poundsRule_ok q :
  exists r, poundsRule q = Ret r
            /\ match r with Some pq => nonneg (value pq) = true | None => True end.
Proof.
  unfold poundsRule.
  destruct (includes "pound" q || includes "lb" q); [|rule_none].
  destruct (exec false rePounds q) as [m|] eqn:E; [|rule_none].
  apply exec_inv in E as (prev & s0 & s' & E).
  apply number_capture in E as (x & t & Hx & Hg); [|simpl; lia].
  unfold groupOf. rewrite Hg. cbn [bind defined]. rule_some.
  apply mul_nonneg; [now apply parseFloat_digit_nonneg|].
  unfold literal. apply decimal_nonneg.
Qed.

Lemma mlRule_ok q :
  exists r, mlRule q = Ret r
            /\ match r with Some pq => nonneg (value pq) = true | None => True end.
Proof.
  unfold mlRule.
  destruct (includes "ml" q); [|rule_none].
  destruct (exec false reMl q) as [m|] eqn:E; [|rule_none].
  apply exec_inv in E as (prev & s0 & s' & E).
  apply number_capture in E as (x & t & Hx & Hg); [|simpl; tauto].
  unfold groupOf. rewrite Hg. cbn [bind defined]. rule_some.
  now apply parseFloat_digit_nonneg.
Qed.

Lemma unitOf_ok n r s :
  n = 0%nat \/ binds n r = true ->
  exists u, unitOf n (exec false r s) = Ret u.
Proof.
  intros Hn. unfold unitOf. destruct (exec false r s) as [cs|] eqn:E; [|eauto].
  destruct (exec_group false r s cs n E Hn) as [t Ht].
  unfold groupOf. rewrite Ht. cbn [bind defined]. eauto.
Qed.

Lemma rangeRule_ok q :
  exists r, rangeRule q = Ret r
            /\ match r with Some pq => nonneg (value pq) = true | None => True end.
Proof.
  unfold rangeRule.
  destruct (includes "-" q) eqn:Hi; [|rule_none].
  pose proof (split_head "-" q) as Hhead.
  apply split_includes in Hi as (p1 & ps & Hsnd).
  destruct (split "-" q) as [parts0 rest]. simpl in Hhead, Hsnd. subst rest.
  cbn [bind defined head].
  destruct (exec false reNumber p1) as [m|] eqn:E; [|rule_none].
  apply exec_inv in E as (prev & s0 & s' & E).
  apply number_capture_alone in E as (x & t & Hx & Hg).
  unfold groupOf at 1. rewrite Hg. cbn [bind defined].
  destruct (unitOf_ok 0 reLetters p1) as [u ->]; [now left|]. cbn [bind].
  rule_some.
  apply div_nonneg; [|reflexivity].
  apply add_nonneg.
  - apply parseFloat_no_minus, allChars_trim, Hhead.
  - now apply parseFloat_digit_nonneg.
Qed.

Lemma fractionRule_ok q :
  exists r, fractionRule q = Ret r
            /\ match r with Some pq => nonneg (value pq) = true | None => True end.
Proof.
  unfold fractionRule.
  destruct (includes "/" q); [|rule_none].
  destruct (exec false reFraction q) as [m|] eqn:E; [|rule_none].
  apply exec_inv in E as (prev & s0 & s' & E).
  apply fraction_capture in E as (x & t & y & u & Hx & Hg1 & Hy & Hg2).
  unfold groupOf. rewrite Hg1, Hg2. cbn [bind defined].
  destruct (unitOf_ok 1 reFractionUnit q) as [un Hun]; [now right|].
  rewrite Hun. cbn [bind defined].
  rule_some.
  apply div_nonneg; now apply parseInt_digit_nonneg.
Qed.

Lemma generalRule_ok q :
  exists r, generalRule q = Ret r
            /\ match r with Some pq => nonneg (value pq) = true | None => True end.
Proof.
  unfold generalRule.
  destruct (exec false reGeneral q) as [m|] eqn:E; [|rule_none].
  destruct (exec_group false reGeneral q m 3 E) as [t3 Hg3]; [now right|].
  apply exec_inv in E as (prev & s0 & s' & E).
  apply number_capture in E as (x & t & Hx & Hg); [|simpl; lia].
  unfold groupOf. rewrite Hg, Hg3. cbn [bind defined]. rule_some.
  now apply parseFloat_digit_nonneg.
Qed.

Lemma qualitativeRule_ok q :
  exists r, qualitativeRule q = Ret r
            /\ match r with Some pq => nonneg (value pq) = true | None => True end.
Proof.
  unfold qualitativeRule.
  destruct (_ || _); [|rule_none]. rule_some. reflexivity.
Qed.

Lemma firstOf_ok rules q :
  Forall (fun rule =>
            forall q, exists r, rule q = Ret r
              /\ match r with
                 | Some pq => nonneg (value pq) = true
                 | None => True
                 end) rules ->
  exists pq, firstOf rules q = Ret pq /\ nonneg (value pq) = true.
Proof.
  induction 1 as [|rule rules Hrule _ IH]; simpl.
  - exists unparseable. auto.
  - destruct (Hrule q) as (r & -> & Hr). cbn [bind].
    destruct r as [pq|]; [eauto|exact IH].
Qed.

(** [parseQuantity] returns for every argument, and never a negative
    value. *)
Lemma parseQuantity_ok quantityStr :
  exists pq, parseQuantity quantityStr = Ret pq /\ nonneg (value pq) = true.
Proof.
  destruct quantityStr as [| | | |q|]; try (exists unparseable; auto; fail).
  unfold parseQuantity. destruct (String.eqb q ""); [exists unparseable; auto|].
  apply firstOf_ok.
  repeat constructor;
    auto using gramsRule_ok, poundsRule_ok, mlRule_ok, rangeRule_ok,
      fractionRule_ok, generalRule_ok, qualitativeRule_ok.
Qed.

(** *** Conversion factors *)

Lemma allEntries_lookup p (o : gmap string num) key w :
  allEntries p o = true -> o !! key = Some w -> p w = true.
Proof.
  unfold allEntries. intros H Hk.
  rewrite forallb_forall in H.
  apply (H (key, w)). apply list_elem_of_In.
  now apply elem_of_map_to_list.
Qed.

Lemma measurements_good hm u d :
  goodFactors hm = true -> measurements hm !! u = Some d ->
  goodUnitData d = true.
Proof.
  unfold goodFactors. intros H Hk. apply andb_true_iff in H as [H _].
  rewrite forallb_forall in H.
  apply (H (u, d)). apply list_elem_of_In. now apply elem_of_map_to_list.
Qed.

Lemma categories_good hm c o :
  goodFactors hm = true -> ingredientCategories hm !! c = Some o ->
  allEntries goodFactor o = true.
Proof.
  unfold goodFactors. intros H Hk. apply andb_true_iff in H as [_ H].
  rewrite forallb_forall in H.
  apply (H (c, o)). apply list_elem_of_In. now apply elem_of_map_to_list.
Qed.

Lemma defaultConversions_good : allEntries goodFactor defaultConversions = true.
Proof. vm_compute. reflexivity. Qed.

(** *** Factors under keys that come from the input *)

Lemma factorOK_weaken p q w : (q = true -> p = true) -> factorOK p w -> factorOK q w.
Proof.
  intros Hpq [H|[Hp ->]]; [now left|]. right. split; [|reflexivity].
  destruct q; [|reflexivity]. rewrite Hpq in Hp; [discriminate|reflexivity].
Qed.

Lemma plainKey_inherited key : plainKey key = true -> isInherited key = false.
Proof.
  unfold plainKey. intros H. apply andb_true_iff in H as [H _].
  now apply negb_true_iff in H.
Qed.

Lemma truthyEntry_factor o key w :
  allEntries goodFactor o = true -> truthyEntry o key = Some w ->
  factorOK (negb (isInherited key)) w.
Proof.
  unfold truthyEntry, getProperty. intros H.
  destruct (o !! key) as [v|] eqn:Hk.
  - destruct (truthy v); [|discriminate]. intros E. injection E as <-.
    left. eapply allEntries_lookup; eauto.
  - destruct (isInherited key); [|discriminate].
    intros E. injection E as <-. now right.
Qed.

Lemma truthyOfPrototype_factor key w :
  truthyOfPrototype key = Some w -> factorOK (negb (isInherited key)) w.
Proof.
  unfold truthyOfPrototype. destruct (String.eqb key "__proto__"); [discriminate|].
  destruct (isInherited key); [|discriminate].
  intros E. injection E as <-. now right.
Qed.

Lemma truthyOfInherited_factor name key w :
  truthyOfInherited name key = Some w -> factorOK (negb (isInherited key)) w.
Proof.
  unfold truthyOfInherited. destruct (String.eqb name "__proto__");
    [apply truthyOfPrototype_factor|].
  destruct (isInherited key); [|discriminate].
  intros E. injection E as <-. now right.
Qed.

Lemma truthyOfNumber_factor key w :
  truthyOfNumber key = Some w -> factorOK (plainKey key) w.
Proof.
  unfold truthyOfNumber, plainKey.
  destruct (String.eqb key "__proto__").
  { intros E. injection E as <-. now left. }
  destruct (isInherited key); cbn [orb negb andb].
  { intros E. injection E as <-. now right. }
  destruct (existsb _ numberMethods); [|discriminate].
  intros E. injection E as <-. now right.
Qed.

Lemma truthyProp_factor hm u key w :
  goodFactors hm = true ->
  truthyProp (measurements hm !! u) key = Some w -> factorOK (plainKey key) w.
Proof.
  intros H. unfold truthyProp.
  destruct (measurements hm !! u) as [[n|o]|] eqn:Hu; [| |discriminate].
  - destruct (truthy n); [|discriminate]. apply truthyOfNumber_factor.
  - pose proof (measurements_good hm u _ H Hu) as Ho. simpl in Ho.
    intros E. apply (truthyEntry_factor o key w Ho) in E.
    revert E. apply factorOK_weaken. intros Hp.
    now rewrite (plainKey_inherited key Hp).
Qed.

Lemma mul_nan_r value : (value * NaN)%num = NaN.
Proof. now destruct value. Qed.

(** A product of a value that is not negative with a good factor. *)
Lemma scaled_ok value w :
  nonneg value = true -> goodFactor w = true ->
  nonneg (value * w)%num = true
  /\ (isFinite value = true -> isNaN (value * w)%num = false).
Proof.
  intros Hv Hw. apply andb_true_iff in Hw as [Hf Hn]. split.
  - now apply mul_nonneg.
  - intros Hfv. now apply mul_finite_not_nan.
Qed.

Lemma scaled_factor plain value w :
  nonneg value = true -> factorOK plain w -> gramsOK plain value (value * w)%num.
Proof.
  intros Hv [Hw|[Hp ->]].
  - destruct (scaled_ok value w Hv Hw) as [H1 H2]. split; auto.
  - rewrite mul_nan_r. split; [reflexivity|]. congruence.
Qed.

Lemma gramsOK_weaken p q value g :
  (q = true -> p = true) -> gramsOK p value g -> gramsOK q value g.
Proof. intros Hpq [H1 H2]. split; auto. Qed.

Lemma ofZ_good z : 0 <= z -> isFinite (ofZ z) = true -> goodFactor (ofZ z) = true.
Proof. intros Hz Hf. unfold goodFactor. now rewrite Hf, ofZ_nonneg. Qed.

Section Conversion.
Variable hm : HouseholdMeasurements.
Hypothesis Hgood : goodFactors hm = true.

Lemma plainKeys_name unit ni : plainKeys unit ni = true -> plainKey ni = true.
Proof. unfold plainKeys. intros H. now apply andb_true_iff in H as [H _]. Qed.

Lemma plainKeys_unit unit ni :
  plainKeys unit ni = true -> negb (isInherited (unitKey unit)) = true.
Proof. unfold plainKeys. intros H. now apply andb_true_iff in H as [_ H]. Qed.

Lemma plainKeys_inherited unit ni :
  plainKeys unit ni = true -> negb (isInherited ni) = true.
Proof.
  intros H. apply plainKeys_name, plainKey_inherited in H. now rewrite H.
Qed.

Lemma pieceRule_ok value unit ni g :
  nonneg value = true -> pieceRule hm value unit ni = Some g ->
  gramsOK (plainKeys unit ni) value g.
Proof.
  intros Hv. unfold pieceRule. destruct (unitIs unit "piece"); [|discriminate].
  destruct (truthyProp _ ni) as [w|] eqn:E1.
  - intros E. injection E as <-.
    apply (gramsOK_weaken (plainKey ni)); [apply plainKeys_name|].
    eapply scaled_factor, truthyProp_factor; eauto.
  - destruct (truthyProp _ "default") as [w|] eqn:E2; [|discriminate].
    intros E. injection E as <-.
    apply (gramsOK_weaken (plainKey "default")); [reflexivity|].
    eapply scaled_factor, truthyProp_factor; eauto.
Qed.

Lemma mediumRule_ok value unit ni g :
  nonneg value = true -> mediumRule hm value unit ni = Some g ->
  gramsOK (plainKeys unit ni) value g.
Proof.
  intros Hv. unfold mediumRule. destruct (unitIs unit "medium"); [|discriminate].
  destruct (truthyProp _ ni) as [w|] eqn:E1.
  - intros E. injection E as <-.
    apply (gramsOK_weaken (plainKey ni)); [apply plainKeys_name|].
    eapply scaled_factor, truthyProp_factor; eauto.
  - intros E. injection E as <-. apply scaled_factor; [exact Hv|now left].
Qed.

Lemma categoryRule_ok value unit ni g :
  nonneg value = true -> categoryRule hm value unit ni = Some g ->
  gramsOK (plainKeys unit ni) value g.
Proof.
  intros Hv. unfold categoryRule. cbv zeta.
  destruct (match getProperty (ingredients hm) ni with
            | Own category => _ | Inherited => _ | Absent => _ end)
    as [category|]; [|discriminate].
  unfold getProperty.
  destruct (ingredientCategories hm !! category) as [o|] eqn:Hc.
  - destruct (truthyEntry o _) as [w|] eqn:E1; [|discriminate].
    intros E. injection E as <-.
    apply (gramsOK_weaken (negb (isInherited (unitKey unit))));
      [apply plainKeys_unit|].
    eapply scaled_factor, truthyEntry_factor; eauto using categories_good.
  - destruct (isInherited category); [|discriminate].
    destruct (truthyOfInherited category _) as [w|] eqn:E1; [|discriminate].
    intros E. injection E as <-.
    apply (gramsOK_weaken (negb (isInherited (unitKey unit))));
      [apply plainKeys_unit|].
    eapply scaled_factor, truthyOfInherited_factor; eauto.
Qed.

Lemma standardRule_ok value unit ni g :
  nonneg value = true -> standardRule hm value unit ni = Some g ->
  gramsOK (plainKeys unit ni) value g.
Proof.
  intros Hv. unfold standardRule.
  destruct unit as [u|]; [|discriminate].
  destruct (String.eqb u ""); [discriminate|].
  unfold getProperty.
  destruct (measurements hm !! u) as [[n|o]|] eqn:Hu.
  - destruct (truthy n); [|discriminate]. intros E. injection E as <-.
    apply scaled_factor; [exact Hv|]. left.
    exact (measurements_good hm u _ Hgood Hu).
  - pose proof (measurements_good hm u _ Hgood Hu) as Ho. simpl in Ho.
    destruct (truthyEntry o ni) as [w|] eqn:E1.
    + intros E. injection E as <-.
      apply (gramsOK_weaken (negb (isInherited ni)));
        [apply plainKeys_inherited|].
      eapply scaled_factor, truthyEntry_factor; eauto.
    + destruct (truthyEntry o "default") as [w|] eqn:E2.
      * intros E. injection E as <-.
        apply (gramsOK_weaken (negb (isInherited "default"))); [reflexivity|].
        eapply scaled_factor, truthyEntry_factor; eauto.
      * intros E. injection E as <-. apply scaled_factor; [exact Hv|now left].
  - destruct (isInherited u) eqn:Hi; [|discriminate].
    assert (Hu' : plainKeys (Some u) ni = true -> false = true).
    { intros H. apply plainKeys_unit in H. cbn [unitKey] in H.
      now rewrite Hi in H. }
    destruct (String.eqb u "__proto__").
    + destruct (truthyOfPrototype ni) as [w|] eqn:E1.
      * intros E. injection E as <-.
        apply (gramsOK_weaken (negb (isInherited ni)));
          [apply plainKeys_inherited|].
        eapply scaled_factor, truthyOfPrototype_factor; eauto.
      * intros E. injection E as <-. apply scaled_factor; [exact Hv|now left].
    + intros E. injection E as <-.
      apply (gramsOK_weaken false); [exact Hu'|].
      apply scaled_factor; [exact Hv|now right].
Qed.

Lemma fallbackRule_ok value unit ni :
  nonneg value = true -> gramsOK (plainKeys unit ni) value (fallbackRule value unit).
Proof.
  intros Hv. unfold fallbackRule.
  destruct (truthyEntry defaultConversions _) as [w|] eqn:E1.
  - apply (gramsOK_weaken (negb (isInherited (unitKey unit))));
      [apply plainKeys_unit|].
    eapply scaled_factor, truthyEntry_factor;
      eauto using defaultConversions_good.
  - apply scaled_factor; [exact Hv|now left].
Qed.

(** [convertToGrams] with a string as the name returns, and what it returns is
    not negative; with plain keys it is [NaN] only for a value that is [NaN]
    or infinite. *)
Lemma convertToGrams_ok pq name :
  nonneg (value pq) = true ->
  exists g, convertToGrams hm pq (JStr name) = Ret g
            /\ gramsOK (plainKeys (unit pq) (trim (toLowerCase name)))
                 (value pq) g.
Proof.
  intros Hv. unfold convertToGrams.
  destruct (unitIs (unit pq) "g").
  { eexists; split; [reflexivity|]. split; [exact Hv|].
    destruct (value pq); simpl; congruence. }
  destruct (unitIs (unit pq) "ml").
  { eexists; split; [reflexivity|]. split; [exact Hv|].
    destruct (value pq); simpl; congruence. }
  assert (Hn : (if truthyVal (JStr name)
                then do l <- toLowerCaseOf (JStr name); Ret (trim l)
                else Ret "") = Ret (trim (toLowerCase name))).
  { cbn [truthyVal]. destruct name; reflexivity. }
  rewrite Hn. cbn [bind].
  destruct (pieceRule hm _ _ _) as [g|] eqn:E1; [eauto using pieceRule_ok|].
  destruct (mediumRule hm _ _ _) as [g|] eqn:E2; [eauto using mediumRule_ok|].
  destruct (categoryRule hm _ _ _) as [g|] eqn:E3; [eauto using categoryRule_ok|].
  destruct (standardRule hm _ _ _) as [g|] eqn:E4; [eauto using standardRule_ok|].
  eauto using fallbackRule_ok.
Qed.

(** Parsing then converting returns, and never a negative weight. *)
Lemma standardizeToGrams_nonneg quantity name :
  exists g, standardizeToGrams hm quantity (JStr name) = Ret g
            /\ nonneg g = true.
Proof.
  destruct (parseQuantity_ok quantity) as (pq & Hpq & Hv).
  destruct (convertToGrams_ok pq name Hv) as (g & Hg & Hn & _).
  exists g. unfold standardizeToGrams. rewrite Hpq. cbn [bind]. auto.
Qed.

End Conversion.

End StandardizerFacts.

Import StandardizerFacts.

(* ===================================================================== *)
(** ** Running the patterns on numerals *)
(* ===================================================================== *)

Module RunFacts.

Import QuantityStandardizer.

Section Run.
Context {A : Type}.
Implicit Types (k : @cont A) (v : A).

Lemma consumed_suffix w s full : full = w ++ s -> consumed full s = w.
Proof. intros ->. apply consumed_app. Qed.

Lemma rmatch_Seq ci a b prev s cs k :
  rmatch ci (Seq a b) prev s cs k
  = rmatch ci a prev s cs (fun p s' c => rmatch ci b p s' c k).
Proof. reflexivity. Qed.

Lemma rmatch_Grp ci n r prev s cs k :
  rmatch ci (Grp n r) prev s cs k
  = rmatch ci r prev s cs (fun p s' c => k p s' ((n, consumed s s') :: c)%list).
Proof. reflexivity. Qed.

(** A greedy run takes every character of [w] when what follows does not
    continue the run and the rest of the pattern then succeeds. *)
Lemma many_greedy p w : forall prev s cs k v,
  allChars p w = true -> headFails p s = true ->
  k (lastChar prev w) s cs = Some v ->
  many p prev (w ++ s) cs k = Some v.
Proof.
  induction w as [|c w IH]; intros prev s cs k v Hw Hs Hk.
  - simpl. destruct s as [|c s]; simpl in *; [exact Hk|].
    apply negb_true_iff in Hs. now rewrite Hs.
  - simpl in Hw. apply andb_true_iff in Hw as [Hc Hw].
    simpl. rewrite Hc. now rewrite (IH (Some c) s cs k v).
Qed.

Lemma plus_greedy ci p x w prev s cs k v :
  p x = true -> allChars p w = true -> headFails p s = true ->
  k (lastChar (Some x) w) s cs = Some v ->
  rmatch ci (Plus p) prev (String x (w ++ s)) cs k = Some v.
Proof.
  intros Hx Hw Hs Hk. unfold Plus. simpl. rewrite Hx.
  now apply many_greedy.
Qed.

Lemma many_rmatch_greedy ci p w prev s cs k v :
  allChars p w = true -> headFails p s = true ->
  k (lastChar prev w) s cs = Some v ->
  rmatch ci (Many p) prev (w ++ s) cs k = Some v.
Proof. intros. simpl. now apply many_greedy. Qed.

(** The pattern [(\d+(\.\d+)?)] on a numeral that is followed neither by a
    digit nor by a point. *)
Lemma reNumber_run ci i f prev rest cs k v :
  isNumeral i f = true ->
  headFails (fun c => isDigit c || Ascii.eqb c ".") rest = true ->
  k (lastChar prev (numeralText i f)) rest
    ((1%nat, numeralText i f)
       :: match f with
          | Some d => [(2%nat, ("." ++ d)%string)]
          | None => []
          end ++ cs)%list
  = Some v ->
  rmatch ci reNumber prev (numeralText i f ++ rest) cs k = Some v.
Proof.
  intros Hn Hrest Hk. unfold isNumeral, isDigits in Hn.
  apply andb_true_iff in Hn as [Hi Hf].
  apply andb_true_iff in Hi as [Hi0 Hi].
  destruct i as [|x i]; [discriminate|]. simpl in Hi.
  apply andb_true_iff in Hi as [Hx Hi].
  assert (Hrd : headFails isDigit rest = true).
  { destruct rest as [|c rest]; [reflexivity|]. simpl in *.
    apply negb_true_iff in Hrest. apply orb_false_iff in Hrest as [-> _].
    reflexivity. }
  unfold reNumber. rewrite rmatch_Grp, rmatch_Seq.
  unfold numeralText in *. rewrite app_assoc.
  change (String x i ++ (fractionText f ++ rest))
    with (String x (i ++ (fractionText f ++ rest))).
  apply plus_greedy; [exact Hx | exact Hi | |].
  { destruct f as [d|]; [reflexivity | exact Hrd]. }
  change (lastChar (Some x) i) with (lastChar prev (String x i)).
  destruct f as [d|].
  - apply andb_true_iff in Hf as [Hd0 Hd].
    destruct d as [|y d]; [discriminate|]. simpl in Hd.
    apply andb_true_iff in Hd as [Hy Hd].
    cbn [rmatch].
    change (fractionText (Some (String y d)) ++ rest)
      with (String "." (String y (d ++ rest))).
    unfold Plus. cbn [rmatch]. rewrite Hy.
    rewrite (many_greedy isDigit d (Some y) rest _ _ v Hd Hrd);
      [now destruct ci|].
    rewrite (consumed_suffix (String x i ++ String "." (String y d)) rest)
      by (simpl; now rewrite app_assoc).
    rewrite (consumed_suffix (String "." (String y d)) rest) by reflexivity.
    rewrite lastChar_app in Hk. exact Hk.
  - cbn [rmatch]. simpl fractionText in *. cbn [String.append].
    rewrite app_nil_r in Hk.
    rewrite (consumed_suffix (String x i) rest) by reflexivity.
    destruct rest as [|c rest]; [exact Hk|].
    simpl in Hrest. apply negb_true_iff in Hrest.
    apply orb_false_iff in Hrest as [_ Hc].
    replace (chrEq ci "." c) with false; [exact Hk|].
    symmetry. clear -Hc. destruct ci; simpl; char_cases c.
Qed.

End Run.

Lemma search_here ci r prev s s' cs :
  matchHere ci r prev s = Some (s', cs) ->
  search ci r prev s = Some ("", s', cs).
Proof. intros H. destruct s; simpl; now rewrite H. Qed.

(** *** Substring tests *)

Lemma prefix_refl s : String.prefix s s = true.
Proof.
  induction s as [|c s IH]; [reflexivity|]. simpl.
  destruct (ascii_dec c c); [exact IH | congruence].
Qed.

Lemma prefix_app s t : String.prefix s (s ++ t) = true.
Proof.
  induction s as [|c s IH]; simpl; [now destruct t|].
  destruct (ascii_dec c c); [exact IH | congruence].
Qed.

Lemma includes_prefix sub s : String.prefix sub s = true -> includes sub s = true.
Proof. intros H. destruct s; cbn [includes]; now rewrite H. Qed.

Lemma includes_app sub a b : includes sub (a ++ sub ++ b) = true.
Proof.
  induction a as [|c a IH]; simpl.
  - apply includes_prefix, prefix_app.
  - rewrite IH. apply orb_true_r.
Qed.

Lemma includes_suffix sub a : includes sub (a ++ sub) = true.
Proof. rewrite <- (app_nil_r sub) at 2. apply includes_app. Qed.

Lemma no_l_no_glass s :
  allChars (isNot "l") s = true -> includes "glass" s = false.
Proof.
  induction s as [|c s IH]; [reflexivity|]. intros H. simpl in H.
  apply andb_true_iff in H as [_ H].
  cbn [includes]. rewrite (IH H), orb_false_r.
  cbn [String.prefix].
  destruct (ascii_dec "g" c); [|reflexivity].
  destruct s as [|b s]; [reflexivity|]. simpl in H.
  apply andb_true_iff in H as [Hb _]. cbn [String.prefix].
  destruct (ascii_dec "l" b) as [<-|]; [discriminate | reflexivity].
Qed.

Lemma allChars_impl (p q : ascii -> bool) s :
  (forall c, p c = true -> q c = true) ->
  allChars p s = true -> allChars q s = true.
Proof.
  intros Hpq. induction s as [|c s IH]; simpl; [auto|].
  intros H. apply andb_true_iff in H as [Hc H]. now rewrite (Hpq c Hc), IH.
Qed.

Lemma isDigit_not_l c : isDigit c = true -> isNot "l" c = true.
Proof. intros H. char_cases c. Qed.

Lemma isSpace_not_l c : isSpace c = true -> isNot "l" c = true.
Proof. intros H. char_cases c. Qed.

Lemma isSpace_not_digit_point c :
  isSpace c = true -> isDigit c || Ascii.eqb c "." = false.
Proof. intros H. char_cases c. Qed.

Lemma numeral_no_l i f :
  isNumeral i f = true -> allChars (isNot "l") (numeralText i f) = true.
Proof.
  unfold isNumeral, isDigits, numeralText. intros H.
  apply andb_true_iff in H as [Hi Hf]. apply andb_true_iff in Hi as [_ Hi].
  rewrite allChars_app, (allChars_impl _ _ i isDigit_not_l Hi).
  destruct f as [d|]; [|reflexivity].
  apply andb_true_iff in Hf as [_ Hd]. simpl.
  exact (allChars_impl _ _ d isDigit_not_l Hd).
Qed.

(** *** The grams rule on a numeral followed by ["g"] *)

(** The captures of [/(\d+(\.\d+)?)\s*g/] on such a phrase. *)
Lemma exec_reGrams i f sp :
  isNumeral i f = true -> allChars isSpace sp = true ->
  exists cs,
    exec false reGrams (numeralText i f ++ sp ++ "g") = Some cs
    /\ group 1 cs = Some (numeralText i f).
Proof.
  intros Hn Hsp.
  eexists. split.
  - unfold exec. erewrite search_here; [reflexivity|].
    unfold matchHere. rewrite rmatch_Grp. unfold reGrams. rewrite rmatch_Seq.
    apply reNumber_run; [exact Hn | |].
    { destruct sp as [|c sp]; [reflexivity|]. simpl in *.
      apply andb_true_iff in Hsp as [Hc _].
      now rewrite (isSpace_not_digit_point c Hc). }
    rewrite rmatch_Seq. apply many_rmatch_greedy; [exact Hsp | reflexivity|].
    cbn [rmatch chrEq]. rewrite Ascii.eqb_refl.
    rewrite (consumed_suffix (numeralText i f ++ sp ++ "g") "")
      by (now rewrite app_nil_r).
    reflexivity.
  - reflexivity.
Qed.

Lemma gramsRule_numeral i f sp :
  isNumeral i f = true -> allChars isSpace sp = true ->
  gramsRule (numeralText i f ++ sp ++ "g")
  = Ret (Some {| value := parseFloat (numeralText i f); unit := Some "g" |}).
Proof.
  intros Hn Hsp. unfold gramsRule.
  rewrite <- app_assoc, includes_suffix, app_assoc.
  rewrite no_l_no_glass.
  - destruct (exec_reGrams i f sp Hn Hsp) as (cs & -> & Hg).
    cbn [andb negb]. unfold groupOf. rewrite Hg. reflexivity.
  - rewrite !allChars_app, (numeral_no_l i f Hn),
      (allChars_impl _ _ sp isSpace_not_l Hsp). reflexivity.
Qed.

Lemma numeral_nonempty i f rest :
  isNumeral i f = true -> String.eqb (numeralText i f ++ rest) "" = false.
Proof.
  unfold isNumeral, isDigits. intros H.
  apply andb_true_iff in H as [Hi _]. apply andb_true_iff in Hi as [Hi _].
  destruct i; [discriminate | reflexivity].
Qed.

Lemma parseQuantity_numeral i f sp :
  isNumeral i f = true -> allChars isSpace sp = true ->
  parseQuantity (JStr (numeralText i f ++ sp ++ "g"))
  = Ret {| value := parseFloat (numeralText i f); unit := Some "g" |}.
Proof.
  intros Hn Hsp. unfold parseQuantity.
  rewrite (numeral_nonempty i f _ Hn). cbn [firstOf].
  now rewrite (gramsRule_numeral i f sp Hn Hsp).
Qed.

(** *** The value of a numeral *)

Lemma takeDigits_run w : forall rest acc n,
  allChars isDigit w = true -> headFails isDigit rest = true ->
  takeDigits (w ++ rest) acc n
  = (digitsValue acc w, n + Z.of_nat (String.length w), rest).
Proof.
  induction w as [|c w IH]; intros rest acc n Hw Hrest.
  - simpl. rewrite Z.add_0_r. destruct rest as [|c rest]; [reflexivity|].
    simpl in *. apply negb_true_iff in Hrest. now rewrite Hrest.
  - simpl in Hw. apply andb_true_iff in Hw as [Hc Hw].
    cbn [String.append takeDigits digitsValue String.length]. rewrite Hc.
    rewrite (IH rest _ _ Hw Hrest). f_equal. f_equal. lia.
Qed.

Lemma digitsValue_app a b acc :
  digitsValue acc (a ++ b) = digitsValue (digitsValue acc a) b.
Proof. revert acc. induction a as [|c a IH]; intros acc; simpl; auto. Qed.

Lemma digit_not_Infinity x t :
  isDigit x = true -> String.prefix "Infinity" (String x t) = false.
Proof.
  intros H. cbn [String.prefix].
  destruct (ascii_dec "I" x) as [<-|]; [discriminate | reflexivity].
Qed.

(** [parseFloat] of a numeral is the number nearest to the rational it
    denotes. *)
Lemma parseFloat_numeral i f :
  isNumeral i f = true -> parseFloat (numeralText i f) = numeralValue i f.
Proof.
  unfold isNumeral, isDigits. intros H.
  apply andb_true_iff in H as [Hi Hf]. apply andb_true_iff in Hi as [Hi0 Hi].
  destruct i as [|x i]; [discriminate|].
  pose proof Hi as Hxi. simpl in Hxi. apply andb_true_iff in Hxi as [Hx _].
  unfold parseFloat, numeralText.
  change (String x i ++ fractionText f) with (String x (i ++ fractionText f)).
  rewrite (trimStart_digit x _ Hx), (isDigit_signed x _ Hx).
  unfold magnitude. rewrite (digit_not_Infinity x _ Hx).
  change (String x (i ++ fractionText f)) with (String x i ++ fractionText f).
  destruct f as [d|].
  - apply andb_true_iff in Hf as [Hd0 Hd].
    rewrite (takeDigits_run (String x i) _ 0 0 Hi); [|reflexivity].
    cbn [fractionText String.append].
    rewrite <- (app_nil_r d) at 1.
    rewrite (takeDigits_run d "" _ 0 Hd); [|reflexivity].
    replace (0 + Z.of_nat (String.length (String x i))
             + (0 + Z.of_nat (String.length d)) =? 0) with false
      by (symmetry; apply Z.eqb_neq; simpl String.length; lia).
    unfold numeralValue. rewrite digitsValue_app.
    cbn [exponentPart]. f_equal; lia.
  - rewrite (takeDigits_run (String x i) _ 0 0 Hi); [|reflexivity].
    cbn [fractionText].
    replace (0 + Z.of_nat (String.length (String x i)) + 0 =? 0) with false
      by (symmetry; apply Z.eqb_neq; simpl String.length; lia).
    reflexivity.
Qed.

End RunFacts.

Import RunFacts.

(* ===================================================================== *)
(** ** Facts about the nutrition calculator *)
(* ===================================================================== *)

Module CompletionFacts.
Import NutritionCalculator.
#[local] Open Scope list_scope.

Section Order.
Context {A : Type}.
Implicit Types (x y : nat * A) (l : list (nat * A)).

(** No element of [l] is of an earlier moment than [x]. *)
Abbreviation notBefore x l := (Forall (fun y => (fst x <= fst y)%nat) l).

Lemma insertByMoment_Permutation x l : Permutation (insertByMoment x l) (x :: l).
Proof.
  induction l as [|y l IH]; cbn [insertByMoment]; [reflexivity|].
  destruct (fst x <=? fst y)%nat; [reflexivity|].
  rewrite IH. apply perm_swap.
Qed.

Lemma byMoment_Permutation l : Permutation (byMoment l) l.
Proof.
  induction l as [|x l IH]; [reflexivity|].
  cbn [byMoment fold_right]. fold (byMoment l).
  rewrite insertByMoment_Permutation. now constructor.
Qed.

Lemma insertByMoment_first x l : notBefore x l -> insertByMoment x l = x :: l.
Proof.
  destruct l as [|y l]; [reflexivity|]. intros H. inversion H; subst.
  cbn [insertByMoment]. destruct (Nat.leb_spec (fst x) (fst y)); [reflexivity|lia].
Qed.

Lemma insertByMoment_sorted x l :
  StronglySorted (fun a b => (fst a <= fst b)%nat) l ->
  StronglySorted (fun a b => (fst a <= fst b)%nat) (insertByMoment x l).
Proof.
  induction 1 as [|y l Hs IH Hy]; cbn [insertByMoment].
  - repeat constructor.
  - destruct (Nat.leb_spec (fst x) (fst y)) as [Hle|Hlt].
    + constructor; [now constructor|]. constructor; [exact Hle|].
      eapply List.Forall_impl; [|exact Hy]. cbv beta. intros; lia.
    + constructor; [exact IH|].
      rewrite insertByMoment_Permutation. constructor; [lia|exact Hy].
Qed.

Lemma byMoment_sorted l :
  StronglySorted (fun a b => (fst a <= fst b)%nat) (byMoment l).
Proof.
  induction l as [|x l IH]; [constructor|].
  cbn [byMoment fold_right]. now apply insertByMoment_sorted.
Qed.

Lemma Forall_filter (P : nat * A -> Prop) f l : Forall P l -> Forall P (List.filter f l).
Proof.
  induction 1 as [|y l Hy _ IH]; cbn [List.filter]; [constructor|].
  destruct (f y); [now constructor|exact IH].
Qed.

(** Filtering commutes with the insertion into a sorted list. *)
Lemma filter_insertByMoment f x l :
  StronglySorted (fun a b => (fst a <= fst b)%nat) l ->
  List.filter f (insertByMoment x l)
  = if f x then insertByMoment x (List.filter f l) else List.filter f l.
Proof.
  induction 1 as [|y l Hs IH Hy]; cbn [insertByMoment List.filter].
  - now destruct (f x).
  - destruct (Nat.leb_spec (fst x) (fst y)) as [Hle|Hlt].
    + cbn [List.filter]. destruct (f x); [|reflexivity].
      symmetry. apply insertByMoment_first.
      assert (H : notBefore x (y :: l)).
      { constructor; [exact Hle|].
        eapply List.Forall_impl; [|exact Hy]. cbv beta. intros; lia. }
      apply (Forall_filter _ f) in H. exact H.
    + cbn [List.filter]. rewrite IH.
      destruct (f y), (f x); try reflexivity.
      cbn [insertByMoment].
      destruct (Nat.leb_spec (fst x) (fst y)); [lia|reflexivity].
Qed.

Lemma filter_byMoment f l : List.filter f (byMoment l) = byMoment (List.filter f l).
Proof.
  induction l as [|x l IH]; [reflexivity|].
  cbn [byMoment fold_right List.filter]. fold (byMoment l).
  rewrite filter_insertByMoment by apply byMoment_sorted.
  rewrite IH. now destruct (f x).
Qed.

End Order.

Lemma map_snd_combine {A B} (l : list A) (k : list B) :
  length l = length k -> map snd (combine l k) = k.
Proof.
  revert k. induction l as [|a l IH]; intros [|b k]; cbn; try discriminate;
    [reflexivity|].
  intros H. f_equal. apply IH. lia.
Qed.

Lemma inOrderOfCompletion_Permutation {A} (ms : list nat) (rs : list A) :
  length ms = length rs -> Permutation (inOrderOfCompletion ms rs) rs.
Proof.
  intros H. unfold inOrderOfCompletion.
  rewrite (byMoment_Permutation (combine ms rs)).
  now rewrite map_snd_combine.
Qed.

(** Filtering the records in order of completion is the same as putting the
    filtered records in order. *)
Lemma filter_inOrderOfCompletion {A} (f : A -> bool) (ms : list nat) (rs : list A) :
  List.filter f (inOrderOfCompletion ms rs)
  = map snd (byMoment (List.filter (fun x => f (snd x)) (combine ms rs))).
Proof.
  unfold inOrderOfCompletion. rewrite <- filter_byMoment.
  induction (byMoment (combine ms rs)) as [|x l IH]; [reflexivity|].
  cbn [map List.filter]. destruct (f (snd x)); cbn [map]; now rewrite IH.
Qed.

End CompletionFacts.

Import CompletionFacts.

Module CalculatorFacts.

Import IngredientMapper NutritionCalculator.

#[local] Open Scope list_scope.

Lemma mapAll_ret {A B : Type} (callback : A -> outcome B) (l : list A) :
  (forall a, exists b, callback a = Ret b) ->
  exists bs, mapAll callback l = Ret bs
             /\ Forall2 (fun a b => callback a = Ret b) l bs.
Proof.
  intros Hcb. induction l as [|a l (bs & IH & Hall)]; simpl.
  - exists []. split; [reflexivity | constructor].
  - destruct (Hcb a) as [b Hb]. rewrite Hb, IH. simpl.
    exists (b :: bs). split; [reflexivity | now constructor].
Qed.

Lemma mapAll_app {A B : Type} (callback : A -> outcome B) l1 l2 bs1 bs2 :
  mapAll callback l1 = Ret bs1 -> mapAll callback l2 = Ret bs2 ->
  mapAll callback (l1 ++ l2) = Ret (bs1 ++ bs2).
Proof.
  revert bs1. induction l1 as [|a l1 IH]; intros bs1 H1 H2; simpl in *.
  - injection H1 as <-. exact H2.
  - destruct (callback a) as [b|e]; [|discriminate]. simpl in *.
    destruct (mapAll callback l1) as [bs|e]; [|discriminate]. simpl in *.
    injection H1 as <-. now rewrite (IH bs eq_refl H2).
Qed.

Lemma nanToZero_not_nan x : isNaN (nanToZero x) = false.
Proof. unfold nanToZero. destruct (isNaN x) eqn:E; [reflexivity | exact E]. Qed.

Lemma validateNutrition_numeric n : numeric (validateNutrition n).
Proof. repeat split; apply nanToZero_not_nan. Qed.

Lemma nanToZero_id x : isNaN x = false -> nanToZero x = x.
Proof. unfold nanToZero. now intros ->. Qed.

Lemma nanToZero_amount x : nonneg x = true -> isAmount (nanToZero x) = true.
Proof.
  intros H. unfold isAmount. rewrite nanToZero_not_nan.
  unfold nanToZero. destruct (isNaN x); [reflexivity | now rewrite H].
Qed.

Section Calculator.
Variable getNutritionData : string -> outcome (option NutritionRow).
Variable hm : HouseholdMeasurements.

Abbreviation tryBody := (tryBody getNutritionData hm).
Abbreviation processIngredient := (processIngredient getNutritionData hm).
Abbreviation calculateNutrition := (calculateNutrition getNutritionData hm).

(** What the callback pushes, by the way the [try] block ended. *)
Lemma processIngredient_cases ing :
  exists p,
    processIngredient ing = Ret p
    /\ p_ingredient p = name ing
    /\ ((exists e, snd (tryBody ing initialLocals) = Throw e
                   /\ error p = Some e /\ nutrition p = None)
        \/ (snd (tryBody ing initialLocals) = Ret tt
            /\ error p = None
            /\ ((exists s, name ing = JStr s
                           /\ getNutritionData (trim (toLowerCase s)) = Ret None
                           /\ nutrition p = None /\ mappedName p = None
                           /\ weight_g p = zero)
                \/ (exists s row g,
                       name ing = JStr s
                       /\ getNutritionData (trim (toLowerCase s)) = Ret (Some row)
                       /\ QuantityStandardizer.standardizeToGrams hm
                            (orVal (standardQuantity ing) (quantity ing))
                            (JStr (ingredient row)) = Ret g
                       /\ mappedName p = Some (ingredient row)
                       /\ weight_g p = g
                       /\ nutrition p
                          = Some (validateNutrition (scaleRow row g)))))).
Proof.
  unfold NutritionCalculator.processIngredient, tryCatchBody,
    NutritionCalculator.tryBody.
  destruct (name ing) as [| | | |s|] eqn:Hname; cbn [toLowerCaseOf];
    try (eexists; split; [reflexivity|]; split; [reflexivity|];
         left; eexists; cbn; eauto; fail).
  destruct (getNutritionData (trim (toLowerCase s))) as [[row|]|e] eqn:Hg.
  - destruct (QuantityStandardizer.standardizeToGrams hm _ _) as [g|e] eqn:Hs.
    + eexists; split; [reflexivity|]; split; [reflexivity|].
      right. cbn. repeat split. right. exists s, row, g. auto 10.
    + eexists; split; [reflexivity|]; split; [reflexivity|].
      left; eexists; cbn; eauto.
  - eexists; split; [reflexivity|]; split; [reflexivity|].
    right. cbn. repeat split. left. exists s. auto 10.
  - eexists; split; [reflexivity|]; split; [reflexivity|].
    left; eexists; cbn; eauto.
Qed.

Lemma processIngredient_ret ing : exists p, processIngredient ing = Ret p.
Proof. destruct (processIngredient_cases ing) as (p & H & _). eauto. Qed.

Lemma moments_length turn l : forall i, length (moments turn i l) = length l.
Proof.
  induction l as [|x l IH]; intros i; [reflexivity|].
  cbn [moments length]. now rewrite IH.
Qed.

(** [calculateNutrition] returns. Its records are those of the ingredients,
    each the result of processing that ingredient, in order of completion,
    and the totals are accumulated over the records in that order. *)
Lemma calculateNutrition_ret turn l :
  exists r ps,
    calculateNutrition turn l = Ret r
    /\ Forall2 (fun ing p => processIngredient ing = Ret p) l ps
    /\ processedIngredients r = inOrderOfCompletion (moments turn 0 l) ps
    /\ totalNutrition r
       = validateNutrition (fst (aggregate (processedIngredients r)))
    /\ totalWeightInGrams r = snd (aggregate (processedIngredients r)).
Proof.
  unfold NutritionCalculator.calculateNutrition.
  destruct (mapAll_ret processIngredient l processIngredient_ret)
    as (ps & -> & Hall).
  cbn [bind]. cbv zeta.
  destruct (aggregate (inOrderOfCompletion (moments turn 0 l) ps))
    as [total w] eqn:Ha.
  eexists. exists ps. split; [reflexivity|].
  cbn [processedIngredients totalNutrition totalWeightInGrams].
  rewrite Ha. auto.
Qed.


(** The records are a rearrangement of the records of the ingredients. *)
Lemma completion_Permutation turn l ps :
  Forall2 (fun ing p => processIngredient ing = Ret p) l ps ->
  Permutation (inOrderOfCompletion (moments turn 0 l) ps) ps.
Proof.
  intros Hall. apply inOrderOfCompletion_Permutation.
  rewrite moments_length. eapply Forall2_length, Hall.
Qed.

(** Every record that is returned is the record of an ingredient. *)
Lemma completion_In turn l ps p :
  Forall2 (fun ing p => processIngredient ing = Ret p) l ps ->
  In p (inOrderOfCompletion (moments turn 0 l) ps) ->
  exists ing, In ing l /\ processIngredient ing = Ret p.
Proof.
  intros Hall Hin.
  apply (Permutation_in _ (completion_Permutation turn l ps Hall)) in Hin.
  clear turn. induction Hall as [|x y l k Hxy _ IH]; [destruct Hin|].
  destruct Hin as [->|Hin]; [exists x; simpl; auto|].
  destruct (IH Hin) as (x' & Hx' & HP). exists x'. simpl. auto.
Qed.

End Calculator.

(** *** The accumulation loop *)

Lemma fold_accumulate ps : forall acc,
  fold_left accumulate ps acc
  = ({| calories := fold_left Num.add (map (fieldOf calories) (resolved ps))
                      (calories (fst acc));
        protein := fold_left Num.add (map (fieldOf protein) (resolved ps))
                     (protein (fst acc));
        carbs := fold_left Num.add (map (fieldOf carbs) (resolved ps))
                   (carbs (fst acc));
        fat := fold_left Num.add (map (fieldOf fat) (resolved ps))
                 (fat (fst acc));
        fiber := fold_left Num.add (map (fieldOf fiber) (resolved ps))
                   (fiber (fst acc)) |},
     fold_left Num.add (map weight_g (resolved ps)) (snd acc)).
Proof.
  induction ps as [|p ps IH]; intros [[c pr cb f fi] w]; [reflexivity|].
  cbn [fold_left]. rewrite IH. unfold accumulate, resolved, fieldOf, hasNutrition.
  cbn [List.filter]. unfold hasNutrition.
  destruct (nutrition p) as [n|] eqn:Hn; [|reflexivity].
  cbn [map fold_left]. rewrite Hn. reflexivity.
Qed.

Lemma aggregate_sums ps :
  aggregate ps
  = ({| calories := sumField calories ps; protein := sumField protein ps;
        carbs := sumField carbs ps; fat := sumField fat ps;
        fiber := sumField fiber ps |},
     sumWeights ps).
Proof. unfold aggregate. now rewrite fold_accumulate. Qed.

(** *** Amounts *)

Lemma add_amount x y :
  isAmount x = true -> isAmount y = true -> isAmount (x + y)%num = true.
Proof.
  unfold isAmount. intros Hx Hy.
  apply andb_true_iff in Hx as [Hx Nx]. apply andb_true_iff in Hy as [Hy Ny].
  apply negb_true_iff in Nx, Ny.
  now rewrite add_nonneg, add_not_nan.
Qed.

Lemma sum_amount xs : forall acc,
  isAmount acc = true -> Forall (fun x => isAmount x = true) xs ->
  isAmount (fold_left Num.add xs acc) = true.
Proof.
  induction xs as [|x xs IH]; intros acc Hacc Hxs; [exact Hacc|].
  inversion Hxs; subst. cbn [fold_left]. apply IH; auto using add_amount.
Qed.

Lemma amount_not_nan x : isAmount x = true -> isNaN x = false.
Proof.
  unfold isAmount. intros H. apply andb_true_iff in H as [_ H].
  now apply negb_true_iff in H.
Qed.

(** The share of a nutrient in [g] grams, once [NaN] has been replaced. *)
Lemma share_amount cell g :
  nonneg (perHundred cell) = true -> nonneg g = true ->
  isAmount (nanToZero ((perHundred cell * g) / ofZ 100)%num) = true.
Proof.
  intros Hc Hg. apply nanToZero_amount, div_nonneg; [|reflexivity].
  now apply mul_nonneg.
Qed.

Section GoodTables.
Variable getNutritionData : string -> outcome (option NutritionRow).
Variable hm : HouseholdMeasurements.
Hypothesis Hfactors : goodFactors hm = true.
Hypothesis Hrows :
  forall n row, getNutritionData n = Ret (Some row) -> goodRow row = true.

(** With tables that hold no negative number, every nutrient of a processed
    ingredient is an amount. *)
Lemma processed_amounts ing p n :
  NutritionCalculator.processIngredient getNutritionData hm ing = Ret p ->
  nutrition p = Some n ->
  isAmount (calories n) = true /\ isAmount (protein n) = true
  /\ isAmount (carbs n) = true /\ isAmount (fat n) = true
  /\ isAmount (fiber n) = true.
Proof.
  intros Hp Hn.
  destruct (processIngredient_cases getNutritionData hm ing)
    as (p' & Hp' & _ & Hcases).
  rewrite Hp in Hp'. injection Hp' as <-.
  destruct Hcases as [(e & _ & _ & Hnone)|(_ & _ & [Hnone|Hsome])].
  - congruence.
  - destruct Hnone as (s & _ & _ & Hnone & _). congruence.
  - destruct Hsome as (s & row & g & _ & Hrow & Hg & _ & _ & Hnut).
    rewrite Hnut in Hn. injection Hn as <-.
    pose proof (Hrows _ row Hrow) as Hgood. unfold goodRow in Hgood.
    repeat (apply andb_true_iff in Hgood as [Hgood ?]).
    assert (Hgn : nonneg g = true).
    { destruct (standardizeToGrams_nonneg hm Hfactors
                  (orVal (standardQuantity ing) (quantity ing))
                  (ingredient row)) as (g' & Hg' & Hnn).
      rewrite Hg in Hg'. now injection Hg' as <-. }
    cbn [validateNutrition scaleRow calories protein carbs fat fiber].
    repeat split; now apply share_amount.
Qed.

Lemma sumField_amount field ps :
  (forall n, isAmount (calories n) = true /\ isAmount (protein n) = true
             /\ isAmount (carbs n) = true /\ isAmount (fat n) = true
             /\ isAmount (fiber n) = true ->
             isAmount (field n) = true) ->
  (forall p, In p ps ->
     exists ing,
       NutritionCalculator.processIngredient getNutritionData hm ing = Ret p) ->
  isAmount (sumField field ps) = true.
Proof.
  intros Hfield Hall. unfold sumField, sum. apply sum_amount; [reflexivity|].
  apply List.Forall_forall. intros x Hx. apply in_map_iff in Hx as (p & <- & Hp).
  unfold resolved in Hp. apply filter_In in Hp as [Hin Hhas].
  unfold hasNutrition in Hhas. unfold fieldOf.
  destruct (nutrition p) as [n|] eqn:Hn; [|discriminate].
  destruct (Hall p Hin) as (ing & Hing).
  apply Hfield. eapply processed_amounts; eauto.
Qed.

End GoodTables.

End CalculatorFacts.

Import CalculatorFacts.

(* ===================================================================== *)
(** ** Facts about the mapper and about the order of numbers *)
(* ===================================================================== *)

Module MapperFacts.
Import IngredientMapper.

(** The mapper only returns rows of its table. *)
Lemma getNutritionData_in_db db syn ai n row :
  getNutritionData db syn ai n = Some row -> In row db.
Proof.
  unfold getNutritionData.
  destruct (standardizeIngredientName db syn ai n) as [std|]; [|discriminate].
  destruct (String.eqb std ""); [discriminate|].
  unfold findInNutritionDB. intros H. now apply find_some in H.
Qed.

End MapperFacts.

Import MapperFacts.

Module OrderFacts.

Lemma compare_cont_swap m n :
  Pos.compare_cont Eq m n = CompOpp (Pos.compare_cont Eq n m).
Proof. symmetry. apply (Pos.compare_cont_antisym n m Eq). Qed.

(** [x <= y] excludes [y < x]. *)
Lemma le_not_gt x y : Num.le x y = true -> Num.lt y x = false.
Proof.
  unfold Num.le, Num.lt, SFleb, SFltb.
  destruct x as [sx|sx| |sx mx ex], y as [sy|sy| |sy my ey]; simpl;
    try discriminate; try reflexivity;
    try (destruct sx; try destruct sy; simpl; try discriminate; reflexivity);
    try (destruct sy; simpl; try discriminate; reflexivity).
  destruct sx, sy; simpl; try discriminate; try reflexivity.
  - rewrite (Z.compare_antisym ey ex).
    destruct (ey ?= ex); simpl; try discriminate; try reflexivity.
    rewrite (compare_cont_swap mx my).
    destruct (Pos.compare_cont Eq my mx); simpl; try discriminate; reflexivity.
  - rewrite (Z.compare_antisym ey ex).
    destruct (ey ?= ex); simpl; try discriminate; try reflexivity.
    rewrite (compare_cont_swap mx my).
    destruct (Pos.compare_cont Eq my mx); simpl; try discriminate; reflexivity.
Qed.

Lemma le_one_truthy w : Num.le (ofZ 1) w = true -> truthy w = true.
Proof. destruct w as [s|s| |s m e]; try reflexivity; discriminate. Qed.

Lemma between_truthy w :
  Num.lt zero w = true -> truthy w = true.
Proof. destruct w as [s|s| |s m e]; try reflexivity; discriminate. Qed.

End OrderFacts.

Import OrderFacts.

(* ===================================================================== *)
(** ** Facts about the normalisation of ingredient names *)
(* ===================================================================== *)

Module PreprocessFacts.

Import IngredientMapper.

(** *** Characters of names *)

Lemma isNameChar_word c : isNameChar c = true -> isWord c = true.
Proof. intros H. char_cases c. Qed.

Lemma isNameChar_not_space c : isNameChar c = true -> negb (isSpace c) = true.
Proof. intros H. char_cases c. Qed.

Lemma isNameChar_not_punct c : isNameChar c = true -> negb (isPunct c) = true.
Proof. intros H. char_cases c. Qed.

Lemma isNameChar_not_hyphen c : isNameChar c = true -> isNot "-" c = true.
Proof. intros H. char_cases c. Qed.

Lemma isNameChar_lower c : isNameChar c = true -> lowerChar c = c.
Proof. intros H. char_cases c. Qed.

Lemma toLowerCase_name s : allChars isNameChar s = true -> toLowerCase s = s.
Proof.
  induction s as [|c s IH]; simpl; [reflexivity|]. intros H.
  apply andb_true_iff in H as [Hc H]. now rewrite (isNameChar_lower c Hc), IH.
Qed.

Lemma trimStart_no_space s :
  allChars (fun c => negb (isSpace c)) s = true -> trimStart s = s.
Proof.
  destruct s as [|c s]; simpl; [reflexivity|]. intros H.
  apply andb_true_iff in H as [Hc _]. apply negb_true_iff in Hc.
  now rewrite Hc.
Qed.

Lemma trimEnd_no_space s :
  allChars (fun c => negb (isSpace c)) s = true -> trimEnd s = s.
Proof.
  induction s as [|c s IH]; simpl; [reflexivity|]. intros H.
  apply andb_true_iff in H as [Hc H]. apply negb_true_iff in Hc.
  rewrite (IH H). destruct s; [now rewrite Hc | reflexivity].
Qed.

Lemma trim_no_space s :
  allChars (fun c => negb (isSpace c)) s = true -> trim s = s.
Proof.
  intros H. unfold trim. now rewrite (trimStart_no_space s H), trimEnd_no_space.
Qed.

(** *** Word boundaries inside a run of word characters *)

Lemma lastChar_word x u :
  allChars isWord (String x u) = true ->
  exists y, lastChar (Some x) u = Some y /\ isWord y = true.
Proof.
  revert x. induction u as [|z u IH]; intros x H; simpl in H.
  - apply andb_true_iff in H as [Hx _]. exists x. auto.
  - apply andb_true_iff in H as [_ H]. simpl. apply IH. exact H.
Qed.

(** In a run of word characters a boundary after a non-empty prefix is the
    end of the run. *)
Lemma boundary_inside x u s' :
  allChars isWord (String x u ++ s') = true ->
  boundary (lastChar (Some x) u) s' = true -> s' = "".
Proof.
  intros H Hb. rewrite allChars_app in H. apply andb_true_iff in H as [Hu Hs].
  destruct (lastChar_word x u Hu) as (y & Hy & Hw). rewrite Hy in Hb.
  unfold boundary in Hb. simpl in Hb. rewrite Hw in Hb.
  destruct s' as [|z s']; [reflexivity|]. simpl in Hs, Hb.
  apply andb_true_iff in Hs as [Hz _]. rewrite Hz in Hb. discriminate.
Qed.

Lemma boundary_split u s' :
  allChars isWord (u ++ s') = true ->
  boundary (lastChar None u) s' = true -> s' = "" \/ u = "".
Proof.
  destruct u as [|x u]; [now right|]. intros H Hb. left.
  now apply (boundary_inside x u s').
Qed.

Lemma boundary_interior c s :
  isWord c = true -> allChars isWord s = true ->
  boundary (Some c) s = true -> s = "".
Proof.
  intros Hc Hs Hb. destruct s as [|z s]; [reflexivity|].
  simpl in Hs. apply andb_true_iff in Hs as [Hz _].
  unfold boundary in Hb. simpl in Hb. rewrite Hc, Hz in Hb. discriminate.
Qed.

(** *** Replacing a modifier word *)

Section Words.
Context {A : Type}.
Implicit Types (k : @cont A) (v : A).

(** A literal word of at least one character consumes at least one
    character. *)
Lemma Lit_inv ci a w prev s cs k v :
  rmatch ci (Lit (String a w)) prev s cs k = Some v ->
  exists x u s' new,
    s = String x (u ++ s')
    /\ k (lastChar (Some x) u) s' (new ++ cs)%list = Some v.
Proof.
  destruct w as [|b w]; cbn [Lit]; intros H.
  - cbn [rmatch] in H. destruct s as [|x s]; [discriminate|].
    destruct (chrEq ci a x); [|discriminate].
    exists x, "", s, []. auto.
  - change (rmatch ci (Chr a) prev s cs
              (fun p s' c => rmatch ci (Lit (String b w)) p s' c k) = Some v)
      in H.
    cbn [rmatch] in H.
    destruct s as [|x s]; [discriminate|].
    destruct (chrEq ci a x); [|discriminate].
    apply rmatch_inv in H as (u & s' & new & -> & H & _).
    exists x, u, s', new. auto.
Qed.

Lemma Lit_empty ci a w prev cs k :
  rmatch ci (Lit (String a w)) prev "" cs k = None.
Proof. destruct w; reflexivity. Qed.

End Words.

(** A match of [\bword\b] at the start of a run of word characters takes
    the whole run. *)
Lemma wordRegex_matchHere_start a w s s' cs :
  allChars isWord s = true ->
  matchHere true (wordRegex (String a w)) None s = Some (s', cs) ->
  s' = "".
Proof.
  intros Hs H. unfold matchHere, wordRegex in H.
  rewrite rmatch_Grp, rmatch_Seq in H. cbn [rmatch] in H.
  destruct (boundary None s); [|discriminate].
  apply Lit_inv in H as (x & u & s1 & new & -> & H).
  cbn [rmatch] in H.
  destruct (boundary (lastChar (Some x) u) s1) eqn:Hb; [|discriminate].
  injection H as <- _.
  now apply (boundary_inside x u s1).
Qed.

(** There is no match of [\bword\b] inside or at the end of the run. *)
Lemma wordRegex_matchHere_interior a w c s :
  isWord c = true -> allChars isWord s = true ->
  matchHere true (wordRegex (String a w)) (Some c) s = None.
Proof.
  intros Hc Hs. unfold matchHere, wordRegex.
  rewrite rmatch_Grp, rmatch_Seq. cbn [rmatch].
  destruct (boundary (Some c) s) eqn:Hb; [|reflexivity].
  rewrite (boundary_interior c s Hc Hs Hb).
  apply Lit_empty.
Qed.

Lemma replaceAllFrom_interior a w s : forall c,
  isWord c = true -> allChars isWord s = true ->
  replaceAllFrom true (wordRegex (String a w)) "" 0 (Some c) s = s.
Proof.
  induction s as [|z s IH]; intros c Hc Hs.
  - cbn [replaceAllFrom]. now rewrite wordRegex_matchHere_interior.
  - cbn [replaceAllFrom]. rewrite wordRegex_matchHere_interior by assumption.
    simpl in Hs. apply andb_true_iff in Hs as [Hz Hs]. now rewrite IH.
Qed.

(** Dropping as many characters as are left, and replacing by nothing,
    leaves nothing. *)
Lemma replaceAllFrom_drop ci r s : forall prev,
  replaceAllFrom ci r "" (String.length s) prev s = "".
Proof.
  induction s as [|c s IH]; intros prev.
  - cbn [String.length replaceAllFrom].
    destruct (matchHere ci r prev "") as [[s' cs]|]; [|reflexivity].
    now destruct (String.length "" - String.length s')%nat.
  - cbn [String.length replaceAllFrom]. apply IH.
Qed.

Lemma replaceAll_empty ci r : replaceAll ci r "" "" = "".
Proof. apply (replaceAllFrom_drop ci r "" None). Qed.

(** Removing a modifier word from a run of word characters leaves the run
    or nothing. *)
Lemma replaceAll_word a w s :
  allChars isWord s = true ->
  replaceAll true (wordRegex (String a w)) "" s = s
  \/ replaceAll true (wordRegex (String a w)) "" s = "".
Proof.
  intros Hs. destruct s as [|c s]; [left; apply replaceAll_empty|].
  unfold replaceAll. cbn [replaceAllFrom].
  destruct (matchHere true (wordRegex (String a w)) None (String c s))
    as [[s' cs]|] eqn:Hm.
  - right. apply wordRegex_matchHere_start in Hm; [|exact Hs]. subst s'.
    cbn [String.length Nat.sub]. cbn [String.append].
    apply replaceAllFrom_drop.
  - left. simpl in Hs. apply andb_true_iff in Hs as [Hc Hs].
    now rewrite replaceAllFrom_interior.
Qed.

Lemma removeWords_name s :
  allChars isWord s = true -> removeWords s = s \/ removeWords s = "".
Proof.
  intros Hs. unfold removeWords.
  assert (Hwords : Forall (fun w => exists a w', w = String a w') wordsToRemove)
    by (repeat constructor; eauto).
  revert Hwords. generalize wordsToRemove as ws.
  assert (Hgen : forall ws x,
             Forall (fun w => exists a w', w = String a w') ws ->
             x = s \/ x = "" ->
             let y := fold_left
                        (fun name word => replaceAll true (wordRegex word) "" name)
                        ws x in
             y = s \/ y = "").
  { induction ws as [|w ws IH]; intros x Hws Hx; [exact Hx|].
    inversion Hws as [|? ? (a & w' & ->) Hws']; subst.
    cbn [fold_left]. apply IH; [exact Hws'|].
    destruct Hx as [->| ->].
    - now apply replaceAll_word.
    - right. apply replaceAll_empty. }
  intros ws Hws. apply (Hgen ws s Hws). now left.
Qed.

(** *** Stripping a quantity *)

(** A match of [quantityRegex] at the start of a run of word characters
    takes the whole run or nothing. *)
Lemma quantityRegex_matchHere_start s s' cs :
  allChars isWord s = true ->
  matchHere true quantityRegex None s = Some (s', cs) ->
  s' = "" \/ s' = s.
Proof.
  intros Hs H. unfold matchHere, quantityRegex in H.
  rewrite rmatch_Grp in H. cbn [rmatch] in H.
  match type of H with
  | match ?first with Some _ => _ | None => ?second end = _ =>
      destruct first as [v1|] eqn:H1; [injection H as ->|]
  end.
  - (* the alternative anchored at the start *)
    apply rmatch_inv in H1 as (u & s1 & new & -> & H1 & _).
    destruct (boundary (lastChar None u) s1) eqn:Hb; [|discriminate].
    injection H1 as <- _.
    destruct (boundary_split u s1 Hs Hb) as [->| ->]; auto.
  - (* the alternative anchored at the end *)
    destruct (boundary None s); [|discriminate].
    apply rmatch_inv in H as (u & s1 & new & -> & H & _).
    destruct s1; [|discriminate]. injection H as <- _. now left.
Qed.

Lemma quantityRegex_matchHere_interior c s :
  isWord c = true -> allChars isWord s = true ->
  matchHere true quantityRegex (Some c) s = None.
Proof.
  intros Hc Hs. unfold matchHere, quantityRegex.
  rewrite rmatch_Grp. cbn [rmatch].
  destruct (boundary (Some c) s) eqn:Hb; [|reflexivity].
  now rewrite (boundary_interior c s Hc Hs Hb).
Qed.

Lemma quantityRegex_search_interior s : forall c,
  isWord c = true -> allChars isWord s = true ->
  search true quantityRegex (Some c) s = None.
Proof.
  induction s as [|z s IH]; intros c Hc Hs; cbn [search];
    rewrite quantityRegex_matchHere_interior by assumption; [reflexivity|].
  simpl in Hs. apply andb_true_iff in Hs as [Hz Hs]. now rewrite IH.
Qed.

Lemma replace_quantity_name s :
  allChars isWord s = true ->
  replace true quantityRegex "" s = s \/ replace true quantityRegex "" s = "".
Proof.
  intros Hs. unfold replace.
  destruct s as [|c s]; cbn [search].
  - destruct (matchHere true quantityRegex None "") as [[s' cs]|] eqn:Hm;
      [|now left].
    destruct (quantityRegex_matchHere_start "" s' cs Hs Hm) as [->| ->];
      now left.
  - destruct (matchHere true quantityRegex None (String c s)) as [[s' cs]|] eqn:Hm.
    + destruct (quantityRegex_matchHere_start _ s' cs Hs Hm) as [->| ->];
        [now right | now left].
    + simpl in Hs. apply andb_true_iff in Hs as [Hc Hs].
      rewrite quantityRegex_search_interior by assumption. now left.
Qed.

(** *** Replacing characters that do not occur *)

Lemma replaceAll_class_absent ci p repl s : forall prev,
  allChars (fun c => negb (p c)) s = true ->
  replaceAllFrom ci (Cls p) repl 0 prev s = s.
Proof.
  induction s as [|c s IH]; intros prev Hs; [reflexivity|].
  simpl in Hs. apply andb_true_iff in Hs as [Hc Hs].
  apply negb_true_iff in Hc.
  cbn [replaceAllFrom]. unfold matchHere. cbn [rmatch]. rewrite Hc.
  now rewrite IH.
Qed.

Lemma replaceAll_plus_absent ci p repl s : forall prev,
  allChars (fun c => negb (p c)) s = true ->
  replaceAllFrom ci (Plus p) repl 0 prev s = s.
Proof.
  induction s as [|c s IH]; intros prev Hs; [reflexivity|].
  simpl in Hs. apply andb_true_iff in Hs as [Hc Hs].
  apply negb_true_iff in Hc.
  cbn [replaceAllFrom]. unfold matchHere, Plus. cbn [rmatch]. rewrite Hc.
  now rewrite IH.
Qed.

Lemma no_hyphen_not_ginger_garlic s :
  allChars (isNot "-") s = true -> String.eqb s "ginger-garlic" = false.
Proof.
  intros H. apply String.eqb_neq. intros ->. discriminate.
Qed.

(** *** Names of lower-case letters, digits and underscores *)

Section Names.
Variable s : string.
Hypothesis Hname : allChars isNameChar s = true.
Hypothesis Hnonempty : s <> "".

Lemma name_word : allChars isWord s = true.
Proof. exact (allChars_impl _ _ s isNameChar_word Hname). Qed.

Lemma name_no_space : allChars (fun c => negb (isSpace c)) s = true.
Proof. exact (allChars_impl _ _ s isNameChar_not_space Hname). Qed.

Lemma name_no_punct : allChars (fun c => negb (isPunct c)) s = true.
Proof. exact (allChars_impl _ _ s isNameChar_not_punct Hname). Qed.

Lemma name_no_hyphen : allChars (isNot "-") s = true.
Proof. exact (allChars_impl _ _ s isNameChar_not_hyphen Hname). Qed.

(** Preprocessing leaves such a name as it is. *)
Lemma preprocess_name : preprocessIngredientName s = s.
Proof.
  unfold preprocessIngredientName.
  destruct (String.eqb_spec s "") as [E|_]; [contradiction|].
  rewrite (toLowerCase_name s Hname), (trim_no_space s name_no_space).
  assert (Hclean : forall x, x = s \/ x = "" ->
            (if String.eqb
                  (trim (replaceAll false (Plus isSpace) " "
                           (replaceAll false (Cls isPunct) "" x)))
                  "ginger-garlic"
             then "ginger-garlic paste"
             else if String.eqb
                       (trim (replaceAll false (Plus isSpace) " "
                                (replaceAll false (Cls isPunct) "" x))) ""
                  then s
                  else trim (replaceAll false (Plus isSpace) " "
                               (replaceAll false (Cls isPunct) "" x)))
            = s).
  { intros x [->| ->].
    - unfold replaceAll.
      rewrite (replaceAll_class_absent false isPunct "" s None name_no_punct).
      rewrite (replaceAll_plus_absent false isSpace " " s None name_no_space).
      rewrite (trim_no_space s name_no_space).
      rewrite (no_hyphen_not_ginger_garlic s name_no_hyphen).
      destruct (String.eqb_spec s "") as [E|_]; [contradiction | reflexivity].
    - reflexivity. }
  apply Hclean.
  destruct (replace_quantity_name s name_word) as [-> | ->].
  - rewrite (trim_no_space s name_no_space). apply removeWords_name, name_word.
  - right. reflexivity.
Qed.

Variable nutritionDB : list NutritionRow.
Variable ingredientSynonyms : gmap string string.
Variable aiModel : option (string -> list string -> outcome string).
Hypothesis Hpresent : exists row, In row nutritionDB /\ ingredient row = s.

Lemma name_found : found nutritionDB s = true.
Proof.
  unfold found, findInNutritionDB.
  destruct (find _ nutritionDB) as [row|] eqn:Hf; [reflexivity|].
  destruct Hpresent as (row & Hin & Hrow).
  pose proof (find_none _ _ Hf row Hin) as Hno. cbn beta in Hno.
  rewrite Hrow, String.eqb_refl in Hno. discriminate.
Qed.

Lemma standardize_name :
  standardizeIngredientName nutritionDB ingredientSynonyms aiModel s = Some s.
Proof.
  unfold standardizeIngredientName.
  destruct (String.eqb_spec s "") as [E|_]; [contradiction|].
  rewrite preprocess_name, (trim_no_space s name_no_space).
  destruct (String.eqb_spec s "") as [E|_]; [contradiction|].
  unfold replaceAll.
  rewrite (replaceAll_plus_absent false isSpace "_" s None name_no_space).
  now rewrite name_found.
Qed.

End Names.

End PreprocessFacts.

Import PreprocessFacts.
(* ===================================================================== *)
(** ** More facts about the quantity parser *)
(* ===================================================================== *)

(** *** Phrases without digits *)

Module PhraseFacts.
Import QuantityStandardizer.

Lemma notDigit_headFails s : allChars notDigit s = true -> headFails isDigit s = true.
Proof. destruct s as [|c s]; [reflexivity|]. simpl. intros H. now apply andb_true_iff in H as [H _]. Qed.

Section Needs.
Context {A : Type}.
Implicit Types (k : @cont A).

Lemma cls_needs ci p r prev s cs k :
  headFails p s = true -> rmatch ci (Seq (Cls p) r) prev s cs k = None.
Proof.
  intros H. destruct s as [|c s]; [reflexivity|]. simpl in *.
  apply negb_true_iff in H. now rewrite H.
Qed.

Lemma reNumber_needs ci prev s cs k :
  headFails isDigit s = true -> rmatch ci reNumber prev s cs k = None.
Proof.
  intros H. unfold reNumber. rewrite rmatch_Grp, rmatch_Seq.
  unfold Plus. rewrite rmatch_Seq. destruct s as [|c s]; [reflexivity|].
  simpl in *. apply negb_true_iff in H. now rewrite H.
Qed.

Lemma number_first_needs ci r prev s cs k :
  headFails isDigit s = true -> rmatch ci (Seq reNumber r) prev s cs k = None.
Proof. intros H. rewrite rmatch_Seq. now apply reNumber_needs. Qed.

Lemma reFraction_needs ci prev s cs k :
  headFails isDigit s = true -> rmatch ci reFraction prev s cs k = None.
Proof.
  intros H. unfold reFraction. rewrite rmatch_Seq, rmatch_Grp.
  unfold Plus. rewrite rmatch_Seq. destruct s as [|c s]; [reflexivity|].
  simpl in *. apply negb_true_iff in H. now rewrite H.
Qed.

End Needs.

(** A pattern that has to read a digit first is found nowhere in a text
    without digits. *)
Lemma search_needs ci r :
  (forall prev s cs k, headFails isDigit s = true ->
     @rmatch ci (string * captures) r prev s cs k = None) ->
  forall s prev, allChars notDigit s = true -> search ci r prev s = None.
Proof.
  intros Hr. induction s as [|c s IH]; intros prev Hs.
  - simpl. unfold matchHere. rewrite rmatch_Grp. now rewrite Hr.
  - cbn [search]. unfold matchHere. rewrite rmatch_Grp.
    rewrite Hr by now apply notDigit_headFails.
    simpl in Hs. apply andb_true_iff in Hs as [_ Hs]. now rewrite IH.
Qed.

Lemma exec_needs ci r s :
  (forall prev s cs k, headFails isDigit s = true ->
     @rmatch ci (string * captures) r prev s cs k = None) ->
  allChars notDigit s = true -> exec ci r s = None.
Proof. intros Hr Hs. unfold exec. now rewrite search_needs. Qed.

Lemma split_allChars p sep s :
  allChars p s = true ->
  allChars p (fst (split sep s)) = true
  /\ Forall (fun x => allChars p x = true) (snd (split sep s)).
Proof.
  induction s as [|c s IH]; intros H.
  - simpl. split; [reflexivity | constructor].
  - simpl in H. apply andb_true_iff in H as [Hc H].
    destruct (IH H) as [H1 H2]. simpl.
    destruct (split sep s) as [p0 ps]. simpl in *.
    destruct (Ascii.eqb c sep); simpl.
    + split; [reflexivity|]. constructor; assumption.
    + split; [now rewrite Hc | assumption].
Qed.

Lemma gramsRule_no_digit q : allChars notDigit q = true -> gramsRule q = Ret None.
Proof.
  intros H. unfold gramsRule.
  rewrite (exec_needs false reGrams q); [now destruct (_ && _)| |exact H].
  intros. now apply number_first_needs.
Qed.

Lemma poundsRule_no_digit q : allChars notDigit q = true -> poundsRule q = Ret None.
Proof.
  intros H. unfold poundsRule.
  rewrite (exec_needs false rePounds q); [now destruct (_ || _)| |exact H].
  intros. now apply number_first_needs.
Qed.

Lemma mlRule_no_digit q : allChars notDigit q = true -> mlRule q = Ret None.
Proof.
  intros H. unfold mlRule.
  rewrite (exec_needs false reMl q); [now destruct (includes _ _)| |exact H].
  intros. now apply number_first_needs.
Qed.

Lemma rangeRule_no_digit q : allChars notDigit q = true -> rangeRule q = Ret None.
Proof.
  intros H. unfold rangeRule.
  destruct (includes "-" q) eqn:Hinc; [|reflexivity].
  destruct (split_includes "-" q Hinc) as (p & ps & Hsplit).
  destruct (split_allChars notDigit "-" q H) as [_ Hall].
  destruct (split "-" q) as [parts0 rest]. simpl in Hsplit, Hall. subst rest.
  cbn [head defined bind].
  inversion Hall as [|? ? Hp _]; subst.
  rewrite (exec_needs false reNumber p); [reflexivity| |exact Hp].
  intros. now apply reNumber_needs.
Qed.

Lemma fractionRule_no_digit q : allChars notDigit q = true -> fractionRule q = Ret None.
Proof.
  intros H. unfold fractionRule.
  rewrite (exec_needs false reFraction q); [now destruct (includes _ _)| |exact H].
  intros. now apply reFraction_needs.
Qed.

Lemma generalRule_no_digit q : allChars notDigit q = true -> generalRule q = Ret None.
Proof.
  intros H. unfold generalRule.
  rewrite (exec_needs false reGeneral q); [reflexivity| |exact H].
  intros. now apply number_first_needs.
Qed.

End PhraseFacts.

Import PhraseFacts.

(** *** What a pattern reads *)

Module ReadFacts.
Import QuantityStandardizer.

Section Reads.
Context {A : Type}.
Implicit Types (k : @cont A) (v : A).

Lemma rmatch_reads ci p r : reads p r -> forall prev s cs k v,
  rmatch ci r prev s cs k = Some v ->
  exists w s' cs', s = w ++ s' /\ allChars p w = true
                   /\ k (lastChar prev w) s' cs' = Some v.
Proof.
  induction r as [|c|q|q|r1 IH1 r2 IH2|r1 IH1 r2 IH2|r1 IH1|g r1 IH1| | |];
    intros Hr prev s cs k v H; simpl in H, Hr.
  - exists "", s, cs. auto.
  - destruct s as [|x s]; [discriminate|].
    destruct (chrEq ci c x) eqn:E; [|discriminate].
    exists (String x ""), s, cs. simpl. rewrite (Hr ci x E). auto.
  - destruct s as [|x s]; [discriminate|].
    destruct (q x) eqn:E; [|discriminate].
    exists (String x ""), s, cs. simpl. rewrite (Hr x E). auto.
  - apply many_inv in H as (w & s' & -> & Hw & Hk).
    exists w, s', cs. split; [reflexivity|]. split; [|exact Hk].
    eapply allChars_impl; eauto.
  - destruct Hr as [Hr1 Hr2].
    apply (IH1 Hr1) in H as (w1 & s1 & cs1 & -> & Hw1 & H).
    apply (IH2 Hr2) in H as (w2 & s2 & cs2 & -> & Hw2 & H).
    exists (w1 ++ w2), s2, cs2.
    rewrite app_assoc, lastChar_app, allChars_app, Hw1, Hw2. auto.
  - destruct Hr as [Hr1 Hr2].
    destruct (rmatch ci r1 prev s cs k) eqn:H1.
    + injection H as ->. now apply (IH1 Hr1) in H1.
    + now apply (IH2 Hr2) in H.
  - destruct (rmatch ci r1 prev s cs k) eqn:H1.
    + injection H as ->. now apply (IH1 Hr) in H1.
    + exists "", s, cs. auto.
  - apply (IH1 Hr) in H as (w & s' & cs' & -> & Hw & H). eauto 6.
  - destruct prev; [discriminate|]. exists "", s, cs. auto.
  - destruct s; [|discriminate]. exists "", "", cs. auto.
  - destruct (boundary prev s); [|discriminate]. exists "", s, cs. auto.
Qed.

(** A group around [p+] captures a non-empty run of [p]. *)
Lemma group_plus_inv ci n p prev s cs k v :
  rmatch ci (Grp n (Plus p)) prev s cs k = Some v ->
  exists x w s', s = String x w ++ s' /\ p x = true /\ allChars p w = true
                 /\ k (lastChar (Some x) w) s' ((n, String x w) :: cs)%list
                    = Some v.
Proof.
  rewrite rmatch_Grp. unfold Plus. rewrite rmatch_Seq. intros H.
  destruct s as [|x s]; [discriminate|]. cbn [rmatch] in H.
  destruct (p x) eqn:Hx; [|discriminate].
  apply many_inv in H as (w & s' & -> & Hw & H).
  exists x, w, s'. repeat split; auto.
  change (String x (w ++ s')) with (String x w ++ s') in H.
  now rewrite consumed_app in H.
Qed.

End Reads.

Lemma chrEq_false_eq c x : chrEq false c x = true -> x = c.
Proof. unfold chrEq. intros H. now apply Ascii.eqb_eq in H. Qed.

Lemma fromAlpha_skip m t : allChars notAlpha m = true -> fromAlpha (m ++ t) = fromAlpha t.
Proof.
  induction m as [|c m IH]; [reflexivity|]. simpl. intros H.
  apply andb_true_iff in H as [Hc H]. unfold notAlpha in Hc.
  apply negb_true_iff in Hc. rewrite Hc. auto.
Qed.

Lemma reads_reNumber : reads notAlpha reNumber.
Proof.
  unfold reNumber, Plus. simpl.
  repeat split; try (intros x H; char_cases x);
    intros ci x H; destruct ci; char_cases x.
Qed.

Lemma reads_space : reads notAlpha (Many isSpace).
Proof. simpl. intros x H. char_cases x. Qed.

End ReadFacts.

Import ReadFacts.
Module SkipFacts.
Import QuantityStandardizer.

Section Literals.
Context {A : Type}.
Implicit Types (k : @cont A) (v : A).

(** A literal word, compared exactly, reads itself. *)
Lemma Lit_exact w : forall prev s cs k v,
  rmatch false (Lit w) prev s cs k = Some v ->
  exists s', s = w ++ s' /\ k (lastChar prev w) s' cs = Some v.
Proof.
  induction w as [|c w IH]; intros prev s cs k v H.
  - exists s. auto.
  - destruct w as [|c' w].
    + cbn [Lit rmatch] in H. destruct s as [|x s]; [discriminate|].
      destruct (chrEq false c x) eqn:E; [|discriminate].
      apply chrEq_false_eq in E as ->. exists s. auto.
    + change (Lit (String c (String c' w)))
        with (Seq (Chr c) (Lit (String c' w))) in H.
      rewrite rmatch_Seq in H. cbn [rmatch] in H.
      destruct s as [|x s]; [discriminate|].
      destruct (chrEq false c x) eqn:E; [|discriminate].
      apply chrEq_false_eq in E as ->.
      apply IH in H as (s' & -> & H). exists s'. auto.
Qed.

End Literals.

Lemma fromAlpha_alpha u : headFails notAlpha u = true -> fromAlpha u = u.
Proof.
  destruct u as [|c u]; [reflexivity|]. cbn [headFails fromAlpha].
  unfold notAlpha. rewrite negb_involutive. now intros ->.
Qed.

Lemma alpha_headFails u : allChars isAlpha u = true -> headFails notAlpha u = true.
Proof.
  destruct u as [|c u]; [reflexivity|]. cbn [allChars headFails]. intros H.
  apply andb_true_iff in H as [H _]. unfold notAlpha. now rewrite H.
Qed.

Lemma alpha_notDigit u : allChars isAlpha u = true -> allChars notDigit u = true.
Proof. apply allChars_impl. intros c H. char_cases c. Qed.

(** Where the three unit rules can match. *)
Lemma reGrams_here prev s s' cs :
  matchHere false reGrams prev s = Some (s', cs) ->
  String.prefix "g" (fromAlpha s) = true.
Proof.
  unfold matchHere, reGrams. rewrite rmatch_Grp, rmatch_Seq. intros H.
  apply (rmatch_reads false notAlpha reNumber reads_reNumber) in H
    as (w1 & s1 & cs1 & -> & Hw1 & H).
  rewrite rmatch_Seq in H.
  apply (rmatch_reads false notAlpha (Many isSpace) reads_space) in H
    as (w2 & s2 & cs2 & -> & Hw2 & H).
  cbn [rmatch] in H. destruct s2 as [|x s2]; [discriminate|].
  destruct (chrEq false "g" x) eqn:E; [|discriminate].
  apply chrEq_false_eq in E as ->.
  rewrite !fromAlpha_skip by assumption. apply (prefix_app "g").
Qed.

Lemma rePounds_here prev s s' cs :
  matchHere false rePounds prev s = Some (s', cs) ->
  String.prefix "pound" (fromAlpha s) || String.prefix "lb" (fromAlpha s) = true.
Proof.
  unfold matchHere, rePounds. rewrite rmatch_Grp, rmatch_Seq. intros H.
  apply (rmatch_reads false notAlpha reNumber reads_reNumber) in H
    as (w1 & s1 & cs1 & -> & Hw1 & H).
  rewrite rmatch_Seq in H.
  apply (rmatch_reads false notAlpha (Many isSpace) reads_space) in H
    as (w2 & s2 & cs2 & -> & Hw2 & H).
  rewrite !fromAlpha_skip by assumption.
  rewrite rmatch_Seq, rmatch_Grp in H. cbn [rmatch] in H.
  match type of H with
  | match ?a with _ => _ end = _ => destruct a eqn:H1
  end.
  - apply Lit_exact in H1 as (t & -> & _).
    change (fromAlpha ("pound" ++ t)) with ("pound" ++ t).
    now rewrite prefix_app.
  - apply Lit_exact in H as (t & -> & _).
    change (fromAlpha ("lb" ++ t)) with ("lb" ++ t).
    rewrite (prefix_app "lb"). apply orb_true_r.
Qed.

Lemma reMl_here prev s s' cs :
  matchHere false reMl prev s = Some (s', cs) ->
  String.prefix "ml" (fromAlpha s) = true.
Proof.
  unfold matchHere, reMl. rewrite rmatch_Grp, rmatch_Seq. intros H.
  apply (rmatch_reads false notAlpha reNumber reads_reNumber) in H
    as (w1 & s1 & cs1 & -> & Hw1 & H).
  rewrite rmatch_Seq in H.
  apply (rmatch_reads false notAlpha (Many isSpace) reads_space) in H
    as (w2 & s2 & cs2 & -> & Hw2 & H).
  rewrite !fromAlpha_skip by assumption.
  apply Lit_exact in H as (t & -> & _).
  change (fromAlpha ("ml" ++ t)) with ("ml" ++ t). apply prefix_app.
Qed.

(** A pattern that starts with a number and can only match where the first
    letter begins a word that [P] accepts is not found in a text whose
    letters start with another word. *)
Lemma search_alpha r (P : string -> bool) :
  (forall prev s s' cs, matchHere false r prev s = Some (s', cs) ->
     P (fromAlpha s) = true) ->
  (forall prev s cs k, headFails isDigit s = true ->
     @rmatch false (string * captures) r prev s cs k = None) ->
  forall np u prev,
    allChars notAlpha np = true -> allChars isAlpha u = true ->
    P u = false -> search false r prev (np ++ u) = None.
Proof.
  intros Hhere Hneeds np u. induction np as [|c np IH]; intros prev Hnp Hu HP.
  - apply PhraseFacts.search_needs; [exact Hneeds|]. now apply alpha_notDigit.
  - pose proof Hnp as Hnp'. simpl in Hnp'. apply andb_true_iff in Hnp' as [_ Hnp'].
    cbn [String.append search].
    destruct (matchHere false r prev (String c (np ++ u))) as [[s' cs]|] eqn:Hm.
    + apply Hhere in Hm.
      change (String c (np ++ u)) with (String c np ++ u) in Hm.
      rewrite (fromAlpha_skip _ _ Hnp), (fromAlpha_alpha u) in Hm
        by now apply alpha_headFails.
      congruence.
    + now rewrite IH.
Qed.

Lemma includes_app_r sub pre s : includes sub s = true -> includes sub (pre ++ s) = true.
Proof.
  intros H. induction pre as [|c pre IH]; [exact H|].
  cbn [String.append includes]. rewrite IH. apply orb_true_r.
Qed.

Section Units.
Variables (np u : string).
Hypothesis Hnp : allChars notAlpha np = true.
Hypothesis Hu : allChars isAlpha u = true.

Lemma gramsRule_skipped :
  includes "glass" u || negb (String.prefix "g" u) = true ->
  gramsRule (np ++ u) = Ret None.
Proof.
  intros H. unfold gramsRule. apply orb_true_iff in H as [H|H].
  - rewrite (includes_app_r "glass" np u H). now rewrite andb_false_r.
  - apply negb_true_iff in H. unfold exec.
    rewrite (search_alpha reGrams (String.prefix "g")); auto.
    + now destruct (_ && _).
    + exact reGrams_here.
    + intros. now apply PhraseFacts.number_first_needs.
Qed.

Lemma poundsRule_skipped :
  String.prefix "pound" u = false -> String.prefix "lb" u = false ->
  poundsRule (np ++ u) = Ret None.
Proof.
  intros H1 H2. unfold poundsRule, exec.
  rewrite (search_alpha rePounds
             (fun s => String.prefix "pound" s || String.prefix "lb" s)); auto.
  - now destruct (_ || _).
  - exact rePounds_here.
  - intros. now apply PhraseFacts.number_first_needs.
  - now rewrite H1, H2.
Qed.

Lemma mlRule_skipped :
  String.prefix "ml" u = false -> mlRule (np ++ u) = Ret None.
Proof.
  intros H. unfold mlRule, exec.
  rewrite (search_alpha reMl (String.prefix "ml")); auto.
  - now destruct (includes _ _).
  - exact reMl_here.
  - intros. now apply PhraseFacts.number_first_needs.
Qed.

End Units.

End SkipFacts.

Import SkipFacts.
Module UnitRunFacts.
Import QuantityStandardizer.

Lemma isAlpha_not_space c : isAlpha c = true -> isSpace c = false.
Proof. intros H. char_cases c. Qed.
Lemma isAlpha_not_digit c : isAlpha c = true -> isDigit c = false.
Proof. intros H. char_cases c. Qed.
Lemma isAlpha_not_digit_point c :
  isAlpha c = true -> isDigit c || Ascii.eqb c "." = false.
Proof. intros H. char_cases c. Qed.
Lemma isSpace_not_alpha c : isSpace c = true -> notAlpha c = true.
Proof. intros H. char_cases c. Qed.
Lemma isDigit_not_alpha c : isDigit c = true -> notAlpha c = true.
Proof. intros H. char_cases c. Qed.
Lemma isSpace_not_digit c : isSpace c = true -> isDigit c = false.
Proof. intros H. char_cases c. Qed.

Lemma numeral_not_alpha i f :
  isNumeral i f = true -> allChars notAlpha (numeralText i f) = true.
Proof.
  unfold isNumeral, isDigits, numeralText. intros H.
  apply andb_true_iff in H as [Hi Hf]. apply andb_true_iff in Hi as [_ Hi].
  rewrite allChars_app, (allChars_impl _ _ i isDigit_not_alpha Hi).
  destruct f as [d|]; [|reflexivity].
  apply andb_true_iff in Hf as [_ Hd]. simpl.
  exact (allChars_impl _ _ d isDigit_not_alpha Hd).
Qed.

(** The captures of [/(\d+(\.\d+)?)\s+([a-zA-Z]+)/] on a numeral, white
    space and a word. *)
Lemma exec_reGeneral i f x sp y u :
  isNumeral i f = true -> isSpace x = true -> allChars isSpace sp = true ->
  isAlpha y = true -> allChars isAlpha u = true ->
  exists cs,
    exec false reGeneral (numeralText i f ++ String x sp ++ String y u) = Some cs
    /\ group 1 cs = Some (numeralText i f)
    /\ group 3 cs = Some (String y u).
Proof.
  intros Hn Hx Hsp Hy Hu.
  eexists. split.
  - unfold exec. erewrite search_here; [reflexivity|].
    unfold matchHere. rewrite rmatch_Grp. unfold reGeneral. rewrite rmatch_Seq.
    apply reNumber_run; [exact Hn | |].
    { cbn [String.append headFails]. now rewrite (isSpace_not_digit_point x Hx). }
    rewrite rmatch_Seq.
    change (String x sp ++ String y u) with (String x (sp ++ String y u)).
    apply plus_greedy; [exact Hx | exact Hsp | |].
    { cbn [headFails]. now rewrite (isAlpha_not_space y Hy). }
    rewrite rmatch_Grp.
    rewrite <- (app_nil_r u) at 1.
    apply plus_greedy; [exact Hy | exact Hu | reflexivity |].
    rewrite (consumed_suffix (String y u) "" (String y u))
      by (symmetry; apply StrFacts.app_nil_r).
    reflexivity.
  - split; reflexivity.
Qed.

End UnitRunFacts.

Import UnitRunFacts.
Module MoreRunFacts.
Import QuantityStandardizer.

(** *** Substrings and splitting *)

Lemma includes_skip c sub pre s :
  allChars (isNot c) pre = true ->
  includes (String c sub) (pre ++ s) = includes (String c sub) s.
Proof.
  induction pre as [|x pre IH]; [reflexivity|]. intros H. simpl in H.
  apply andb_true_iff in H as [Hx H].
  cbn [String.append includes String.prefix].
  destruct (ascii_dec c x) as [<-|_].
  - unfold isNot in Hx. now rewrite Ascii.eqb_refl in Hx.
  - now rewrite IH.
Qed.

Lemma includes_absent c sub s :
  allChars (isNot c) s = true -> includes (String c sub) s = false.
Proof.
  intros H. rewrite <- (app_nil_r s). now rewrite includes_skip.
Qed.

Lemma split_none sep s :
  allChars (isNot sep) s = true -> split sep s = (s, []).
Proof.
  induction s as [|c s IH]; [reflexivity|]. intros H. simpl in H.
  apply andb_true_iff in H as [Hc H]. simpl. rewrite (IH H).
  unfold isNot in Hc. apply negb_true_iff in Hc. now rewrite Hc.
Qed.

Lemma split_first sep a b :
  allChars (isNot sep) a = true -> allChars (isNot sep) b = true ->
  split sep (a ++ String sep b) = (a, [b]).
Proof.
  intros Ha Hb. induction a as [|c a IH].
  - cbn [String.append split]. rewrite (split_none sep b Hb).
    now rewrite Ascii.eqb_refl.
  - simpl in Ha. apply andb_true_iff in Ha as [Hc Ha].
    cbn [String.append split]. rewrite (IH Ha).
    unfold isNot in Hc. apply negb_true_iff in Hc. now rewrite Hc.
Qed.

(** *** Skipping what a pattern cannot start with *)

Lemma search_skip ci r (p : ascii -> bool) :
  (forall prev s cs k, headFails p s = true ->
     @rmatch ci (string * captures) r prev s cs k = None) ->
  forall np rest prev s' cs,
    allChars (fun c => negb (p c)) np = true ->
    matchHere ci r (lastChar prev np) rest = Some (s', cs) ->
    search ci r prev (np ++ rest) = Some (np, s', cs).
Proof.
  intros Hr np rest. induction np as [|c np IH]; intros prev s' cs Hnp Hm.
  - now apply search_here.
  - simpl in Hnp. apply andb_true_iff in Hnp as [Hc Hnp].
    cbn [String.append search]. unfold matchHere at 1. rewrite rmatch_Grp.
    rewrite Hr by (cbn [headFails]; exact Hc).
    now rewrite (IH (Some c) s' cs Hnp Hm).
Qed.

Lemma exec_skip ci r (p : ascii -> bool) np rest s' cs :
  (forall prev s cs k, headFails p s = true ->
     @rmatch ci (string * captures) r prev s cs k = None) ->
  allChars (fun c => negb (p c)) np = true ->
  matchHere ci r (lastChar None np) rest = Some (s', cs) ->
  exec ci r (np ++ rest) = Some cs.
Proof.
  intros Hr Hnp Hm. unfold exec.
  now rewrite (search_skip ci r p Hr np rest None s' cs Hnp Hm).
Qed.

(** [/[a-zA-Z]+/] finds the first word. *)
Lemma exec_reLetters np y u :
  allChars notAlpha np = true -> isAlpha y = true -> allChars isAlpha u = true ->
  exec false reLetters (np ++ String y u) = Some [(0%nat, String y u)].
Proof.
  intros Hnp Hy Hu.
  apply (exec_skip false reLetters isAlpha np (String y u) "").
  - intros prev s cs k H. now apply PhraseFacts.cls_needs.
  - exact Hnp.
  - unfold matchHere. rewrite rmatch_Grp. unfold reLetters.
    rewrite <- (app_nil_r u) at 1.
    apply plus_greedy; [exact Hy | exact Hu | reflexivity |].
    rewrite (consumed_suffix (String y u) "" (String y u))
      by (symmetry; apply StrFacts.app_nil_r).
    reflexivity.
Qed.

(** *** Millilitres and pounds *)

Lemma exec_reMl i f sp :
  isNumeral i f = true -> allChars isSpace sp = true ->
  exists cs,
    exec false reMl (numeralText i f ++ sp ++ "ml") = Some cs
    /\ group 1 cs = Some (numeralText i f).
Proof.
  intros Hn Hsp.
  eexists. split.
  - unfold exec. erewrite search_here; [reflexivity|].
    unfold matchHere. rewrite rmatch_Grp. unfold reMl. rewrite rmatch_Seq.
    apply reNumber_run; [exact Hn | |].
    { destruct sp as [|c sp]; [reflexivity|]. simpl in *.
      apply andb_true_iff in Hsp as [Hc _].
      now rewrite (isSpace_not_digit_point c Hc). }
    rewrite rmatch_Seq. apply many_rmatch_greedy; [exact Hsp | reflexivity|].
    simpl. reflexivity.
  - reflexivity.
Qed.

Lemma exec_rePounds i f sp w :
  isNumeral i f = true -> allChars isSpace sp = true ->
  In w ["lb"; "lbs"; "pound"; "pounds"] ->
  exists cs,
    exec false rePounds (numeralText i f ++ sp ++ w) = Some cs
    /\ group 1 cs = Some (numeralText i f).
Proof.
  intros Hn Hsp Hw.
  assert (Hhead : headFails (fun c => isDigit c || Ascii.eqb c ".") (sp ++ w) = true).
  { destruct sp as [|c sp].
    - destruct Hw as [<-|[<-|[<-|[<-|[]]]]]; reflexivity.
    - simpl in *. apply andb_true_iff in Hsp as [Hc _].
      now rewrite (isSpace_not_digit_point c Hc). }
  destruct Hw as [<-|[<-|[<-|[<-|[]]]]];
    (eexists; split;
     [ unfold exec; erewrite search_here; [reflexivity|];
       unfold matchHere; rewrite rmatch_Grp; unfold rePounds;
       rewrite rmatch_Seq;
       apply reNumber_run; [exact Hn | exact Hhead |];
       rewrite rmatch_Seq;
       apply many_rmatch_greedy; [exact Hsp | reflexivity|];
       simpl; reflexivity
     | reflexivity ]).
Qed.

(** The grams pattern on a numeral and a word that begins with ["g"]. *)
Lemma exec_reGrams_word i f sp rest :
  isNumeral i f = true -> allChars isSpace sp = true ->
  exists cs,
    exec false reGrams (numeralText i f ++ sp ++ String "g" rest) = Some cs
    /\ group 1 cs = Some (numeralText i f).
Proof.
  intros Hn Hsp.
  eexists. split.
  - unfold exec. erewrite search_here; [reflexivity|].
    unfold matchHere. rewrite rmatch_Grp. unfold reGrams. rewrite rmatch_Seq.
    apply reNumber_run; [exact Hn | |].
    { destruct sp as [|c sp]; [reflexivity|]. simpl in *.
      apply andb_true_iff in Hsp as [Hc _].
      now rewrite (isSpace_not_digit_point c Hc). }
    rewrite rmatch_Seq. apply many_rmatch_greedy; [exact Hsp | reflexivity|].
    simpl. reflexivity.
  - reflexivity.
Qed.

End MoreRunFacts.

Import MoreRunFacts.
Module FractionFacts.
Import QuantityStandardizer.

Lemma digits_headFails_space x a rest :
  isDigit x = true -> headFails isSpace (String x a ++ rest) = true.
Proof. intros H. cbn [String.append headFails]. now rewrite (isDigit_not_space x H). Qed.

Lemma space_then_headFails_digit sp rest :
  allChars isSpace sp = true -> headFails isDigit rest = true ->
  headFails isDigit (sp ++ rest) = true.
Proof.
  intros Hsp Hrest. destruct sp as [|c sp]; [exact Hrest|].
  simpl in Hsp. apply andb_true_iff in Hsp as [Hc _].
  cbn [String.append headFails]. now rewrite (isSpace_not_digit c Hc).
Qed.

Lemma rmatch_Chr_same {A : Type} c prev s cs (k : @cont A) :
  rmatch false (Chr c) prev (String c s) cs k = k (Some c) s cs.
Proof. cbn [rmatch chrEq]. now rewrite Ascii.eqb_refl. Qed.

(** The captures of [/(\d+)\s*\/\s*(\d+)/] on a fraction. *)
Lemma exec_reFraction x a sp1 sp2 y b rest :
  allChars isDigit (String x a) = true -> allChars isSpace sp1 = true ->
  allChars isSpace sp2 = true -> allChars isDigit (String y b) = true ->
  headFails isDigit rest = true ->
  exists cs,
    exec false reFraction
      (String x a ++ sp1 ++ "/" ++ sp2 ++ String y b ++ rest) = Some cs
    /\ group 1 cs = Some (String x a) /\ group 2 cs = Some (String y b).
Proof.
  intros Ha Hsp1 Hsp2 Hb Hrest.
  simpl in Ha, Hb.
  apply andb_true_iff in Ha as [Hx Ha]. apply andb_true_iff in Hb as [Hy Hb].
  eexists. split.
  - unfold exec. erewrite search_here; [reflexivity|].
    unfold matchHere. rewrite rmatch_Grp. unfold reFraction.
    rewrite rmatch_Seq, rmatch_Grp.
    change (String x a ++ sp1 ++ "/" ++ sp2 ++ String y b ++ rest)
      with (String x (a ++ sp1 ++ "/" ++ sp2 ++ String y b ++ rest)).
    apply plus_greedy; [exact Hx | exact Ha | |].
    { now apply space_then_headFails_digit. }
    cbv beta. erewrite (consumed_suffix (String x a)) by reflexivity.
    rewrite rmatch_Seq. apply many_rmatch_greedy; [exact Hsp1 | reflexivity |].
    rewrite rmatch_Seq.
    change ("/" ++ sp2 ++ String y b ++ rest)
      with (String "/" (sp2 ++ String y b ++ rest)).
    rewrite rmatch_Chr_same.
    rewrite rmatch_Seq. apply many_rmatch_greedy; [exact Hsp2 | |].
    { now apply digits_headFails_space. }
    rewrite rmatch_Grp.
    change (String y b ++ rest) with (String y (b ++ rest)).
    apply plus_greedy; [exact Hy | exact Hb | exact Hrest |].
    cbv beta.
    rewrite (consumed_suffix (String y b) rest (String y (b ++ rest)) eq_refl).
    reflexivity.
  - split; reflexivity.
Qed.

Lemma slash_needs {A : Type} ci r prev s cs (k : @cont A) :
  headFails (fun c => Ascii.eqb c "/") s = true ->
  rmatch ci (Seq (Chr "/") r) prev s cs k = None.
Proof.
  intros H. destruct s as [|c s]; [reflexivity|]. cbn [rmatch].
  cbn [headFails] in H. apply negb_true_iff in H.
  replace (chrEq ci "/" c) with false; [reflexivity|].
  symmetry. clear -H. destruct ci; simpl; char_cases c.
Qed.

Lemma isDigit_not_slash c : isDigit c = true -> negb (Ascii.eqb c "/") = true.
Proof. intros H. char_cases c. Qed.
Lemma isSpace_not_slash c : isSpace c = true -> negb (Ascii.eqb c "/") = true.
Proof. intros H. char_cases c. Qed.

(** The unit that [/\/\s*\d+\s+([a-zA-Z]+)/] finds after a fraction. *)
Lemma exec_reFractionUnit a sp1 sp2 y b z sp3 l u :
  allChars isDigit a = true -> allChars isSpace sp1 = true ->
  allChars isSpace sp2 = true -> allChars isDigit (String y b) = true ->
  allChars isSpace (String z sp3) = true ->
  allChars isAlpha (String l u) = true ->
  exists cs,
    exec false reFractionUnit
      (a ++ sp1 ++ "/" ++ sp2 ++ String y b ++ String z sp3 ++ String l u)
    = Some cs
    /\ group 1 cs = Some (String l u).
Proof.
  intros Ha Hsp1 Hsp2 Hb Hsp3 Hu.
  simpl in Hb, Hsp3, Hu.
  apply andb_true_iff in Hb as [Hy Hb]. apply andb_true_iff in Hsp3 as [Hz Hsp3].
  apply andb_true_iff in Hu as [Hl Hu].
  eexists. split.
  - rewrite <- (app_assoc a sp1).
    eapply (exec_skip false reFractionUnit (fun c => Ascii.eqb c "/")).
    + intros prev s cs k H. now apply slash_needs.
    + rewrite allChars_app.
      rewrite (allChars_impl _ _ a isDigit_not_slash Ha).
      now rewrite (allChars_impl _ _ sp1 isSpace_not_slash Hsp1).
    + unfold matchHere. rewrite rmatch_Grp. unfold reFractionUnit.
      rewrite rmatch_Seq.
      change ("/" ++ sp2 ++ String y b ++ String z sp3 ++ String l u)
        with (String "/" (sp2 ++ String y b ++ String z sp3 ++ String l u)).
      rewrite rmatch_Chr_same.
      rewrite rmatch_Seq. apply many_rmatch_greedy; [exact Hsp2 | |].
      { now apply digits_headFails_space. }
      rewrite rmatch_Seq.
      change (String y b ++ String z sp3 ++ String l u)
        with (String y (b ++ String z (sp3 ++ String l u))).
      apply plus_greedy; [exact Hy | exact Hb | |].
      { cbn [headFails]. now rewrite (isSpace_not_digit z Hz). }
      rewrite rmatch_Seq.
      apply plus_greedy; [exact Hz | exact Hsp3 | |].
      { cbn [headFails]. now rewrite (isAlpha_not_space l Hl). }
      rewrite rmatch_Grp. rewrite <- (app_nil_r u) at 1.
      apply plus_greedy; [exact Hl | exact Hu | reflexivity |].
      rewrite (consumed_suffix (String l u) "" (String l u))
        by (symmetry; apply StrFacts.app_nil_r).
      reflexivity.
  - reflexivity.
Qed.

(** [parseInt] of a run of digits. *)
Lemma parseInt_digits x a :
  allChars isDigit (String x a) = true ->
  parseInt (String x a) = ofZ (digitsValue 0 (String x a)).
Proof.
  intros H. pose proof H as H'. simpl in H'.
  apply andb_true_iff in H' as [Hx Ha].
  unfold parseInt.
  rewrite (trimStart_digit x a Hx), (isDigit_signed x a Hx).
  assert (Hp : String.prefix "0x" (String x a) || String.prefix "0X" (String x a)
               = false).
  { destruct a as [|y a].
    - cbn [String.prefix]. now destruct (ascii_dec "0" x).
    - simpl in Ha. apply andb_true_iff in Ha as [Hy _].
      cbn [String.prefix]. destruct (ascii_dec "0" x); [|reflexivity].
      destruct (ascii_dec "x" y) as [<-|]; [discriminate|].
      destruct (ascii_dec "X" y) as [<-|]; [discriminate|]. reflexivity. }
  rewrite Hp.
  rewrite <- (app_nil_r (String x a)) at 1.
  rewrite (takeDigits_run (String x a) "" 0 0 H eq_refl).
  replace (0 + Z.of_nat (String.length (String x a)) =? 0) with false
    by (symmetry; apply Z.eqb_neq; simpl String.length; lia).
  reflexivity.
Qed.

End FractionFacts.

Import FractionFacts.
Module RuleFacts.
Import QuantityStandardizer.

Lemma isDigit_not_hyphen c : isDigit c = true -> isNot "-" c = true.
Proof. intros H. char_cases c. Qed.
Lemma isSpace_not_hyphen c : isSpace c = true -> isNot "-" c = true.
Proof. intros H. char_cases c. Qed.
Lemma isAlpha_not_hyphen c : isAlpha c = true -> isNot "-" c = true.
Proof. intros H. char_cases c. Qed.
Lemma isDigit_not_fslash c : isDigit c = true -> isNot "/" c = true.
Proof. intros H. char_cases c. Qed.
Lemma isSpace_not_fslash c : isSpace c = true -> isNot "/" c = true.
Proof. intros H. char_cases c. Qed.
Lemma isAlpha_not_fslash c : isAlpha c = true -> isNot "/" c = true.
Proof. intros H. char_cases c. Qed.
Lemma isDigit_no_space c : isDigit c = true -> negb (isSpace c) = true.
Proof. intros H. char_cases c. Qed.
Lemma isAlpha_no_space c : isAlpha c = true -> negb (isSpace c) = true.
Proof. intros H. char_cases c. Qed.
Lemma isDigit_not_g c : isDigit c = true -> isNot "g" c = true.
Proof. intros H. char_cases c. Qed.
Lemma isSpace_not_g c : isSpace c = true -> isNot "g" c = true.
Proof. intros H. char_cases c. Qed.

(** A property that digits and the point have holds of a numeral. *)
Lemma numeral_chars (p : ascii -> bool) i f :
  (forall c, isDigit c = true -> p c = true) -> p "."%char = true ->
  isNumeral i f = true -> allChars p (numeralText i f) = true.
Proof.
  intros Hd Hp. unfold isNumeral, isDigits, numeralText. intros H.
  apply andb_true_iff in H as [Hi Hf]. apply andb_true_iff in Hi as [_ Hi].
  rewrite allChars_app, (allChars_impl _ _ i Hd Hi).
  destruct f as [d|]; [|reflexivity].
  apply andb_true_iff in Hf as [_ Hf]. cbn [fractionText String.append allChars].
  now rewrite Hp, (allChars_impl _ _ d Hd Hf).
Qed.

Lemma trim_alpha u : allChars isAlpha u = true -> trim u = u.
Proof.
  intros H. apply trim_no_space. exact (allChars_impl _ _ u isAlpha_no_space H).
Qed.

Lemma trim_numeral i f : isNumeral i f = true -> trim (numeralText i f) = numeralText i f.
Proof.
  intros H. apply trim_no_space.
  now apply numeral_chars; [exact isDigit_no_space | reflexivity |].
Qed.

Lemma exec_reNumber i f rest :
  isNumeral i f = true ->
  headFails (fun c => isDigit c || Ascii.eqb c ".") rest = true ->
  exists cs,
    exec false reNumber (numeralText i f ++ rest) = Some cs
    /\ group 1 cs = Some (numeralText i f).
Proof.
  intros Hn Hrest. eexists. split.
  - unfold exec. erewrite search_here; [reflexivity|].
    unfold matchHere. rewrite rmatch_Grp.
    apply reNumber_run; [exact Hn | exact Hrest |]. reflexivity.
  - reflexivity.
Qed.

Lemma plainUnit_inv u :
  plainUnit u = true ->
  exists y u', u = String y u' /\ isAlpha y = true /\ allChars isAlpha u' = true
    /\ allChars isAlpha u = true
    /\ includes "glass" u || negb (String.prefix "g" u) = true
    /\ String.prefix "lb" u = false /\ String.prefix "pound" u = false
    /\ String.prefix "ml" u = false.
Proof.
  unfold plainUnit. intros H.
  repeat (apply andb_true_iff in H as [H ?]).
  destruct u as [|y u']; [discriminate|].
  exists y, u'. pose proof H4 as H5. cbn [allChars] in H5.
  apply andb_true_iff in H5 as [Hy Hu'].
  repeat split; auto; now apply negb_true_iff.
Qed.

(** The three rules for grams, pounds and millilitres fall through on a
    text without letters that is followed by a plain unit. *)
Lemma unit_rules_skipped np u :
  allChars notAlpha np = true -> plainUnit u = true ->
  gramsRule (np ++ u) = Ret None /\ poundsRule (np ++ u) = Ret None
  /\ mlRule (np ++ u) = Ret None.
Proof.
  intros Hnp Hu.
  destruct (plainUnit_inv u Hu) as (y & u' & _ & _ & _ & Ha & Hg & Hlb & Hp & Hml).
  split; [|split].
  - now apply gramsRule_skipped.
  - now apply poundsRule_skipped.
  - now apply mlRule_skipped.
Qed.

Lemma generalRule_unit i f sp u :
  isNumeral i f = true -> sp <> "" -> allChars isSpace sp = true ->
  plainUnit u = true ->
  generalRule (numeralText i f ++ sp ++ u)
  = Ret (Some {| value := numeralValue i f; unit := Some (toLowerCase u) |}).
Proof.
  intros Hn Hsp0 Hsp Hu.
  destruct (plainUnit_inv u Hu) as (y & u' & -> & Hy & Hu' & Ha & _).
  destruct sp as [|x sp]; [congruence|].
  simpl in Hsp. apply andb_true_iff in Hsp as [Hx Hsp].
  destruct (exec_reGeneral i f x sp y u' Hn Hx Hsp Hy Hu') as (cs & He & H1 & H3).
  unfold generalRule. rewrite He. unfold groupOf. rewrite H1, H3.
  cbn [defined bind]. rewrite (trim_alpha _ Ha), (parseFloat_numeral i f Hn).
  reflexivity.
Qed.

Lemma rangeRule_skipped q : allChars (isNot "-") q = true -> rangeRule q = Ret None.
Proof. intros H. unfold rangeRule. now rewrite includes_absent. Qed.

Lemma fractionRule_skipped q : allChars (isNot "/") q = true -> fractionRule q = Ret None.
Proof. intros H. unfold fractionRule. now rewrite includes_absent. Qed.

Lemma nonempty_eqb a b : a <> "" -> String.eqb (a ++ b) "" = false.
Proof. destruct a; [congruence | reflexivity]. Qed.

End RuleFacts.
Import RuleFacts.


(** *** The factor of a conversion *)

Module FactorFacts.
Import QuantityStandardizer.

Section Factor.
Variable hm : HouseholdMeasurements.
Hypothesis Hgood : goodFactors hm = true.

(** Without a unit only the rule of the categories and the last resort can
    apply, and the key that they read is ["null"], which no object
    inherits. *)
Lemma categoryRule_unitless value ni g :
  categoryRule hm value None ni = Some g ->
  exists w, goodFactor w = true /\ g = (value * w)%num.
Proof.
  unfold categoryRule. cbv zeta.
  destruct (match getProperty (ingredients hm) ni with
            | Own category => _ | Inherited => _ | Absent => _ end)
    as [category|]; [|discriminate].
  unfold getProperty.
  destruct (ingredientCategories hm !! category) as [o|] eqn:Hc.
  - destruct (truthyEntry o _) as [w|] eqn:E1; [|discriminate].
    intros E. injection E as <-. exists w. split; [|reflexivity].
    destruct (truthyEntry_factor o _ w (categories_good hm _ _ Hgood Hc) E1)
      as [H|[H _]]; [exact H|discriminate].
  - destruct (isInherited category); [|discriminate].
    unfold truthyOfInherited, truthyOfPrototype. cbn [unitKey].
    now destruct (String.eqb category "__proto__").
Qed.

Lemma fallbackRule_unitless value : fallbackRule value None = (value * ofZ 10)%num.
Proof. reflexivity. Qed.

(** The weight of a quantity without a unit is the product of the parsed
    value with one factor that is finite and not negative. *)
Lemma convertToGrams_unitless pq name :
  unit pq = None ->
  exists w, goodFactor w = true
            /\ convertToGrams hm pq (JStr name) = Ret (value pq * w)%num.
Proof.
  intros Hu. unfold convertToGrams. rewrite Hu. cbn [unitIs].
  assert (Hn : exists ni,
             (if truthyVal (JStr name)
              then do l <- toLowerCaseOf (JStr name); Ret (trim l)
              else Ret "") = Ret ni)
    by (destruct (truthyVal (JStr name)); simpl; eauto).
  destruct Hn as [ni ->]. cbn [bind].
  unfold pieceRule, mediumRule. cbn [unitIs].
  destruct (categoryRule hm _ None ni) as [g|] eqn:E3.
  - apply categoryRule_unitless in E3 as (w & Hw & ->). eauto.
  - cbn [standardRule]. rewrite fallbackRule_unitless.
    exists (ofZ 10). split; reflexivity.
Qed.

End Factor.

Lemma zero_times_factor w : goodFactor w = true -> (zero * w)%num = zero.
Proof.
  unfold goodFactor. intros H. apply andb_true_iff in H as [Hf Hn].
  destruct w as [[|]|[|]| |[|] m e]; try discriminate; reflexivity.
Qed.

Lemma convertToGrams_zero hm pq name :
  goodFactors hm = true -> value pq = zero -> unit pq = None ->
  convertToGrams hm pq (JStr name) = Ret zero.
Proof.
  intros Hgood Hz Hu.
  destruct (convertToGrams_unitless hm Hgood pq name Hu) as (w & Hw & ->).
  now rewrite Hz, zero_times_factor.
Qed.

End FactorFacts.

Import FactorFacts.

(** *** The unit of a parsed quantity *)

Module UnitFacts.
Import QuantityStandardizer.

Lemma reads_any r : reads anyChar r.
Proof. induction r; simpl; auto. Qed.

Lemma lowerChar_alpha c : isAlpha c = true -> isLower (lowerChar c) = true.
Proof. intros H. char_cases c. Qed.

Lemma toLowerCase_word x w :
  isAlpha x = true -> allChars isAlpha w = true ->
  unitWord (toLowerCase (trim (String x w))) = true.
Proof.
  intros Hx Hw.
  rewrite trim_alpha by (cbn [allChars]; now rewrite Hx).
  unfold unitWord. cbn [toLowerCase String.eqb allChars].
  rewrite (lowerChar_alpha x Hx).
  replace (String.eqb (String (lowerChar x) (toLowerCase w)) "") with false
    by reflexivity.
  cbn [negb andb].
  induction w as [|c w IH]; [reflexivity|].
  simpl in Hw. apply andb_true_iff in Hw as [Hc Hw].
  cbn [toLowerCase allChars]. now rewrite (lowerChar_alpha c Hc), IH.
Qed.

(** The word that a final group [([a-zA-Z]+)] captures. *)
Lemma final_word_capture n r prev s s' cs :
  n <> 0%nat ->
  matchHere false (Seq r (Grp n (Plus isAlpha))) prev s = Some (s', cs) ->
  exists x w, isAlpha x = true /\ allChars isAlpha w = true
              /\ group n cs = Some (String x w).
Proof.
  intros Hn. unfold matchHere. rewrite rmatch_Grp, rmatch_Seq. intros H.
  apply (rmatch_reads false anyChar r (reads_any r)) in H
    as (w1 & s1 & cs1 & -> & _ & H).
  apply group_plus_inv in H as (x & w & s2 & -> & Hx & Hw & H).
  injection H as <- <-. exists x, w. repeat split; auto.
  cbn [group]. apply Nat.eqb_neq in Hn. rewrite Nat.eqb_sym, Hn.
  now rewrite Nat.eqb_refl.
Qed.

Lemma whole_word_capture prev s s' cs :
  matchHere false reLetters prev s = Some (s', cs) ->
  exists x w, isAlpha x = true /\ allChars isAlpha w = true
              /\ group 0 cs = Some (String x w).
Proof.
  unfold matchHere, reLetters. intros H.
  apply group_plus_inv in H as (x & w & s2 & -> & Hx & Hw & H).
  injection H as <- <-. exists x, w. auto.
Qed.

Lemma unitOf_letters s u :
  unitOf 0 (exec false reLetters s) = Ret (Some u) -> unitWord u = true.
Proof.
  unfold unitOf. destruct (exec false reLetters s) as [cs|] eqn:E; [|discriminate].
  apply exec_inv in E as (prev & s0 & s' & E).
  apply whole_word_capture in E as (x & w & Hx & Hw & Hg).
  unfold groupOf. rewrite Hg. cbn [defined bind]. intros H. injection H as <-.
  now apply toLowerCase_word.
Qed.

Lemma unitOf_fraction s u :
  unitOf 1 (exec false reFractionUnit s) = Ret (Some u) -> unitWord u = true.
Proof.
  unfold unitOf.
  destruct (exec false reFractionUnit s) as [cs|] eqn:E; [|discriminate].
  apply exec_inv in E as (prev & s0 & s' & E).
  assert (E' : matchHere false
                 (Seq (Seq (Chr "/") (Seq (Many isSpace) (Seq (Plus isDigit)
                    (Plus isSpace)))) (Grp 1 (Plus isAlpha))) prev s0
               = Some (s', cs)) by exact E.
  apply final_word_capture in E' as (x & w & Hx & Hw & Hg); [|discriminate].
  unfold groupOf. rewrite Hg. cbn [defined bind]. intros H. injection H as <-.
  now apply toLowerCase_word.
Qed.

Lemma gramsRule_unitOK q pq : gramsRule q = Ret (Some pq) -> unitOK pq.
Proof.
  unfold gramsRule. destruct (_ && _); [|discriminate].
  destruct (exec false reGrams q) as [m|]; [|discriminate].
  destruct (groupOf 1 m); [|discriminate]. cbn [bind].
  intros H. injection H as <-. reflexivity.
Qed.

Lemma poundsRule_unitOK q pq : poundsRule q = Ret (Some pq) -> unitOK pq.
Proof.
  unfold poundsRule. destruct (_ || _); [|discriminate].
  destruct (exec false rePounds q) as [m|]; [|discriminate].
  destruct (groupOf 1 m); [|discriminate]. cbn [bind].
  intros H. injection H as <-. reflexivity.
Qed.

Lemma mlRule_unitOK q pq : mlRule q = Ret (Some pq) -> unitOK pq.
Proof.
  unfold mlRule. destruct (includes _ _); [|discriminate].
  destruct (exec false reMl q) as [m|]; [|discriminate].
  destruct (groupOf 1 m); [|discriminate]. cbn [bind].
  intros H. injection H as <-. reflexivity.
Qed.

Lemma rangeRule_unitOK q pq : rangeRule q = Ret (Some pq) -> unitOK pq.
Proof.
  unfold rangeRule. destruct (includes "-" q); [|discriminate].
  destruct (split "-" q) as [parts0 rest].
  destruct (defined (head rest)) as [parts1|]; [|discriminate]. cbn [bind].
  destruct (exec false reNumber parts1) as [m|]; [|discriminate].
  destruct (groupOf 1 m); [|discriminate]. cbn [bind].
  destruct (unitOf 0 (exec false reLetters parts1)) as [[u|]|] eqn:E;
    cbn [bind]; try discriminate; intros H; injection H as <-;
    unfold unitOK; cbn [unit]; [|exact I].
  now apply unitOf_letters in E.
Qed.

Lemma fractionRule_unitOK q pq : fractionRule q = Ret (Some pq) -> unitOK pq.
Proof.
  unfold fractionRule. destruct (includes "/" q); [|discriminate].
  destruct (exec false reFraction q) as [m|]; [|discriminate].
  destruct (groupOf 1 m); [|discriminate]. cbn [bind].
  destruct (groupOf 2 m); [|discriminate]. cbn [bind].
  destruct (unitOf 1 (exec false reFractionUnit q)) as [[u|]|] eqn:E;
    cbn [bind]; try discriminate; intros H; injection H as <-;
    unfold unitOK; cbn [unit]; [|exact I].
  now apply unitOf_fraction in E.
Qed.

Lemma generalRule_unitOK q pq : generalRule q = Ret (Some pq) -> unitOK pq.
Proof.
  unfold generalRule.
  destruct (exec false reGeneral q) as [m|] eqn:E; [|discriminate].
  apply exec_inv in E as (prev & s0 & s' & E).
  assert (E' : matchHere false
                 (Seq (Seq reNumber (Plus isSpace)) (Grp 3 (Plus isAlpha)))
                 prev s0 = Some (s', m)) by exact E.
  apply final_word_capture in E' as (x & w & Hx & Hw & Hg); [|discriminate].
  destruct (groupOf 1 m); [|discriminate]. cbn [bind].
  unfold groupOf. rewrite Hg. cbn [defined bind].
  intros H. injection H as <-. unfold unitOK. cbn [unit].
  now apply toLowerCase_word.
Qed.

Lemma qualitativeRule_unitOK q pq : qualitativeRule q = Ret (Some pq) -> unitOK pq.
Proof.
  unfold qualitativeRule. destruct (_ || _); [|discriminate].
  intros H. injection H as <-. reflexivity.
Qed.

Lemma firstOf_unitOK rules q pq :
  Forall (fun rule => forall q pq, rule q = Ret (Some pq) -> unitOK pq) rules ->
  firstOf rules q = Ret pq -> unitOK pq.
Proof.
  induction 1 as [|rule rules Hrule _ IH]; simpl.
  - intros H. injection H as <-. exact I.
  - destruct (rule q) as [[r|]|] eqn:E; cbn [bind]; try discriminate.
    + intros H. injection H as <-. eauto.
    + exact IH.
Qed.

Lemma parseQuantity_unitOK quantityStr pq :
  parseQuantity quantityStr = Ret pq -> unitOK pq.
Proof.
  destruct quantityStr as [| | | |q|];
    try (intros H; injection H as <-; exact I).
  unfold parseQuantity. destruct (String.eqb q "").
  - intros H; injection H as <-; exact I.
  - apply firstOf_unitOK.
    constructor; [exact gramsRule_unitOK|].
    constructor; [exact poundsRule_unitOK|].
    constructor; [exact mlRule_unitOK|].
    constructor; [exact rangeRule_unitOK|].
    constructor; [exact fractionRule_unitOK|].
    constructor; [exact generalRule_unitOK|].
    constructor; [exact qualitativeRule_unitOK|].
    constructor.
Qed.

End UnitFacts.
Import UnitFacts.


(** *** Quantities that are not parsed *)

Module ZeroFacts.
Import QuantityStandardizer IngredientMapper NutritionCalculator.

Lemma parseQuantity_no_digit q :
  allChars notDigit q = true ->
  parseQuantity (JStr q)
  = Ret (if qualitative q
         then {| value := literal 5 1; unit := Some "teaspoon" |}
         else unparseable).
Proof.
  intros H. unfold parseQuantity.
  destruct (String.eqb q "") eqn:Hq.
  - apply String.eqb_eq in Hq. subst q. reflexivity.
  - cbn [firstOf].
    rewrite PhraseFacts.gramsRule_no_digit, PhraseFacts.poundsRule_no_digit,
      PhraseFacts.mlRule_no_digit, PhraseFacts.rangeRule_no_digit,
      PhraseFacts.fractionRule_no_digit, PhraseFacts.generalRule_no_digit
      by exact H.
    cbn [bind]. unfold qualitativeRule, qualitative.
    now destruct (_ || _).
Qed.

Lemma parseQuantity_unparsed quantity :
  unparsed quantity = true -> parseQuantity quantity = Ret unparseable.
Proof.
  destruct quantity as [| | | |q|]; try reflexivity.
  cbn [unparsed]. intros H. apply andb_true_iff in H as [Hd Hq].
  rewrite (parseQuantity_no_digit q Hd).
  apply negb_true_iff in Hq. now rewrite Hq.
Qed.

Lemma standardizeToGrams_unparsed hm quantity name :
  goodFactors hm = true -> unparsed quantity = true ->
  standardizeToGrams hm quantity (JStr name) = Ret zero.
Proof.
  intros Hgood Hq. unfold standardizeToGrams.
  rewrite (parseQuantity_unparsed quantity Hq). cbn [bind].
  now apply FactorFacts.convertToGrams_zero.
Qed.

Lemma share_of_nothing cell :
  nonneg (perHundred cell) = true ->
  nanToZero ((perHundred cell * zero) / ofZ 100)%num = zero.
Proof.
  destruct (perHundred cell) as [[|]|[|]| |[|] m e]; try discriminate;
    intros _; vm_compute; reflexivity.
Qed.

Lemma scaleRow_zero row :
  goodRow row = true -> validateNutrition (scaleRow row zero) = noNutrition.
Proof.
  unfold goodRow. intros H. repeat (apply andb_true_iff in H as [H ?]).
  unfold validateNutrition, scaleRow, noNutrition.
  cbn [calories protein carbs fat fiber].
  now rewrite !share_of_nothing.
Qed.

End ZeroFacts.
Import ZeroFacts.

(** *** Auxiliary facts for the unit rules *)

Module ConversionFacts.
Import QuantityStandardizer.

Lemma numeral_space_not_alpha i f sp :
  isNumeral i f = true -> allChars isSpace sp = true ->
  allChars notAlpha (numeralText i f ++ sp) = true.
Proof.
  intros Hn Hsp. rewrite allChars_app, (numeral_not_alpha i f Hn).
  exact (allChars_impl _ _ sp isSpace_not_alpha Hsp).
Qed.

Lemma convertToGrams_direct hm value u name :
  u = "g" \/ u = "ml" ->
  convertToGrams hm {| value := value; unit := Some u |} name = Ret value.
Proof. intros [->| ->]; reflexivity. Qed.


End ConversionFacts.

Import ConversionFacts.
(* ===================================================================== *)
(** ** Facts about name resolution *)
(* ===================================================================== *)

Module ResolutionFacts.
Import IngredientMapper.
#[local] Open Scope list_scope.

Section Table.
Variable nutritionDB : list NutritionRow.

Abbreviation inTable := (Notions.inTable nutritionDB).

Lemma find_name s row :
  findInNutritionDB nutritionDB s = Some row ->
  In row nutritionDB /\ ingredient row = s.
Proof.
  unfold findInNutritionDB. intros H. apply find_some in H as [Hin Heq].
  apply String.eqb_eq in Heq. auto.
Qed.

Lemma found_name s :
  found nutritionDB s = true -> exists row, In row nutritionDB /\ ingredient row = s.
Proof.
  unfold found. destruct (findInNutritionDB nutritionDB s) as [row|] eqn:E;
    [|discriminate].
  intros _. exists row. now apply find_name.
Qed.

Lemma name_is_found s row :
  In row nutritionDB -> ingredient row = s ->
  exists row', findInNutritionDB nutritionDB s = Some row'.
Proof.
  intros Hin Heq. unfold findInNutritionDB.
  destruct (find _ nutritionDB) as [row'|] eqn:E; [eauto|].
  apply (find_none _ _ E) in Hin. apply String.eqb_neq in Hin. congruence.
Qed.

Lemma includes_empty sub : includes sub "" = true -> sub = "".
Proof. cbn [includes]. rewrite orb_false_r. now destruct sub. Qed.

Lemma replaceAll_nonempty ci r repl s :
  repl <> "" -> s <> "" -> replaceAll ci r repl s <> "".
Proof.
  intros Hrepl Hs. unfold replaceAll. destruct s as [|c s]; [congruence|].
  cbn [replaceAllFrom].
  destruct (matchHere ci r None (String c s)) as [[s' cs]|].
  - destruct repl; [congruence | discriminate].
  - discriminate.
Qed.

Lemma toLowerCase_nonempty s : s <> "" -> toLowerCase s <> "".
Proof. destruct s; [congruence | discriminate]. Qed.

Lemma findAll_name s row :
  In row (findAllInNutritionDB nutritionDB s) ->
  In row nutritionDB /\ ingredient row <> "".
Proof.
  unfold findAllInNutritionDB.
  destruct (String.eqb s "") eqn:Es; [intros []|].
  apply String.eqb_neq in Es.
  intros H. apply filter_In in H as [Hin H]. split; [exact Hin|].
  intros E. rewrite E in H. apply orb_true_iff in H as [H|H];
    apply includes_empty in H.
  - now apply (toLowerCase_nonempty s).
  - apply (replaceAll_nonempty false (Plus isSpace) "_" (toLowerCase s));
      [discriminate | now apply toLowerCase_nonempty | exact H].
Qed.

Lemma insertByLength_In x y l : In x (insertByLength y l) -> x = y \/ In x l.
Proof.
  induction l as [|z l IH]; simpl.
  - intros [<-|[]]. now left.
  - destruct (_ <=? _)%nat; simpl; intros H.
    + destruct H as [<-|H]; auto.
    + destruct H as [<-|H]; [auto|]. destruct (IH H); auto.
Qed.

Lemma sortByLength_In x l : In x (sortByLength l) -> In x l.
Proof.
  induction l as [|y l IH]; simpl; [auto|].
  intros H. apply insertByLength_In in H as [<-|H]; auto.
Qed.

Variable ingredientSynonyms : gmap string string.
Variable aiModel : option (string -> list string -> outcome string).

Lemma getAiAssistedMatch_name n s :
  getAiAssistedMatch nutritionDB aiModel n = Some s -> inTable s.
Proof.
  unfold getAiAssistedMatch. destruct aiModel as [g|]; [|discriminate].
  destruct (String.eqb n ""); [discriminate|].
  destruct (_ =? 0)%nat; [discriminate|].
  destruct (g n _) as [text|]; [|discriminate].
  destruct (negb (String.eqb (trim text) "")) eqn:E1; [|discriminate].
  destruct (negb (String.eqb (trim text) "None")); [|discriminate].
  destruct (existsb _ _) eqn:E3; [|discriminate].
  cbn [andb]. intros H. injection H as <-.
  apply negb_true_iff, String.eqb_neq in E1. split; [exact E1|].
  apply existsb_exists in E3 as (x & Hin & Hx). apply String.eqb_eq in Hx.
  unfold dbIngredientNames in Hin. apply in_map_iff in Hin as (row & Hrow & Hin).
  exists row. split; [exact Hin | congruence].
Qed.

Lemma best_match f1 f2 (l : list NutritionRow) s :
  match find f1 l with
  | Some exactMatch => Some (ingredient exactMatch)
  | None =>
      match find f2 l with
      | Some baseMatch => Some (ingredient baseMatch)
      | None =>
          match sortByLength l with
          | shortest :: _ => Some (ingredient shortest)
          | [] => None
          end
      end
  end = Some s ->
  exists row, In row l /\ ingredient row = s.
Proof.
  destruct (find f1 l) as [exactMatch|] eqn:E1.
  { intros H. injection H as <-. apply find_some in E1 as [Hin _]. eauto. }
  clear E1. destruct (find f2 l) as [baseMatch|] eqn:E2.
  { intros H. injection H as <-. apply find_some in E2 as [Hin _]. eauto. }
  destruct (sortByLength l) as [|shortest rest] eqn:E3; [discriminate|].
  intros H. injection H as <-. exists shortest. split; [|reflexivity].
  apply sortByLength_In. rewrite E3. now left.
Qed.

Lemma potentialMatches_name normalized f1 f2 n s :
  match findAllInNutritionDB nutritionDB normalized with
  | _ :: _ =>
      match find f1 (findAllInNutritionDB nutritionDB normalized) with
      | Some exactMatch => Some (ingredient exactMatch)
      | None =>
          match find f2 (findAllInNutritionDB nutritionDB normalized) with
          | Some baseMatch => Some (ingredient baseMatch)
          | None =>
              match sortByLength (findAllInNutritionDB nutritionDB normalized) with
              | shortest :: _ => Some (ingredient shortest)
              | [] => None
              end
          end
      end
  | [] => getAiAssistedMatch nutritionDB aiModel n
  end = Some s ->
  inTable s.
Proof.
  destruct (findAllInNutritionDB nutritionDB normalized) as [|m ms] eqn:Hall;
    [apply getAiAssistedMatch_name|].
  intros H. apply best_match in H as (row & Hin & <-).
  rewrite <- Hall in Hin. apply findAll_name in Hin as [Hin Hne].
  split; eauto.
Qed.

Lemma standardize_inTable n s :
  standardizeIngredientName nutritionDB ingredientSynonyms aiModel n = Some s ->
  inTable s.
Proof.
  unfold standardizeIngredientName.
  destruct (String.eqb n ""); [discriminate|].
  set (normalized := trim (preprocessIngredientName n)).
  destruct (String.eqb normalized "") eqn:En; [discriminate|].
  apply String.eqb_neq in En.
  set (under := replaceAll false (Plus isSpace) "_" normalized).
  destruct (found nutritionDB under) eqn:F1.
  { intros H. injection H as <-. split; [|now apply found_name].
    now apply replaceAll_nonempty. }
  destruct (found nutritionDB normalized) eqn:F2.
  { intros H. injection H as <-. split; [exact En | now apply found_name]. }
  destruct (ingredientSynonyms !! normalized) as [target|] eqn:Hsyn.
  - destruct (negb (String.eqb target "") && found nutritionDB target) eqn:F3.
    { intros H. injection H as <-. apply andb_true_iff in F3 as [Ht F3].
      apply negb_true_iff, String.eqb_neq in Ht.
      split; [exact Ht | now apply found_name]. }
    apply potentialMatches_name.
  - apply potentialMatches_name.
Qed.

End Table.
End ResolutionFacts.
Import ResolutionFacts.


(** *** Lower case and margins *)

Module CleaningFacts.
Import IngredientMapper.

Lemma lowerChar_idem c : lowerChar (lowerChar c) = lowerChar c.
Proof. char_cases c. Qed.

Lemma toLowerCase_idem s : toLowerCase (toLowerCase s) = toLowerCase s.
Proof. induction s as [|c s IH]; simpl; [reflexivity|]. now rewrite lowerChar_idem, IH. Qed.

Lemma isSpace_lowerChar c : isSpace (lowerChar c) = isSpace c.
Proof. char_cases c. Qed.

Lemma toLowerCase_trimStart s : toLowerCase (trimStart s) = trimStart (toLowerCase s).
Proof.
  induction s as [|c s IH]; [reflexivity|].
  cbn [trimStart toLowerCase]. rewrite isSpace_lowerChar.
  destruct (isSpace c); [exact IH | reflexivity].
Qed.

Lemma toLowerCase_trimEnd s : toLowerCase (trimEnd s) = trimEnd (toLowerCase s).
Proof.
  induction s as [|c s IH]; [reflexivity|].
  cbn [trimEnd toLowerCase]. rewrite <- IH, isSpace_lowerChar.
  destruct (trimEnd s) as [|d t]; cbn [toLowerCase].
  - now destruct (isSpace c).
  - reflexivity.
Qed.

Lemma toLowerCase_trim s : toLowerCase (trim s) = trim (toLowerCase s).
Proof. unfold trim. now rewrite toLowerCase_trimEnd, toLowerCase_trimStart. Qed.

(** [trimEnd] yields the empty string or a string whose last character is
    not white space; it keeps the first character when that is not white
    space. *)
Lemma trimEnd_idem s : trimEnd (trimEnd s) = trimEnd s.
Proof.
  induction s as [|c s IH]; [reflexivity|].
  cbn [trimEnd]. destruct (trimEnd s) as [|d t] eqn:E.
  - destruct (isSpace c) eqn:Hc; [reflexivity|]. cbn [trimEnd]. now rewrite Hc.
  - cbn [trimEnd]. cbn [trimEnd] in IH. rewrite IH. reflexivity.
Qed.

Lemma trimEnd_head c s :
  isSpace c = false -> exists t, trimEnd (String c s) = String c t.
Proof.
  intros Hc. cbn [trimEnd]. destruct (trimEnd s); [rewrite Hc|]; eauto.
Qed.

Lemma trimStart_head s :
  trimStart s = "" \/ exists c t, trimStart s = String c t /\ isSpace c = false.
Proof.
  induction s as [|c s IH]; [now left|]. cbn [trimStart].
  destruct (isSpace c) eqn:Hc; [exact IH|]. right. eauto.
Qed.

Lemma trimStart_nonspace c t : isSpace c = false -> trimStart (String c t) = String c t.
Proof. intros H. cbn [trimStart]. now rewrite H. Qed.

Lemma trim_idem s : trim (trim s) = trim s.
Proof.
  unfold trim. destruct (trimStart_head s) as [->|(c & t & -> & Hc)]; [reflexivity|].
  destruct (trimEnd_head c t Hc) as [t' E]. rewrite E.
  rewrite (trimStart_nonspace c t' Hc). rewrite <- E. apply trimEnd_idem.
Qed.

Lemma toLowerCase_empty s : toLowerCase s = "" -> s = "".
Proof. destruct s; [reflexivity | discriminate]. Qed.

(** The steps of [preprocessIngredientName] after lower-casing and
    trimming. *)
Lemma preprocess_steps rawName :
  rawName <> "" ->
  preprocessIngredientName rawName
  = let cleanedName := trim (toLowerCase rawName) in
    let cleaned :=
      trim (replaceAll false (Plus isSpace) " "
              (replaceAll false (Cls isPunct) ""
                 (removeWords
                    (trim (replace true quantityRegex "" cleanedName))))) in
    if String.eqb cleaned "ginger-garlic" then "ginger-garlic paste"
    else if String.eqb cleaned "" then cleanedName
    else cleaned.
Proof.
  intros H. unfold preprocessIngredientName.
  apply String.eqb_neq in H. now rewrite H.
Qed.

Lemma steps_of_empty :
  trim (replaceAll false (Plus isSpace) " "
          (replaceAll false (Cls isPunct) ""
             (removeWords (trim (replace true quantityRegex "" ""))))) = "".
Proof. vm_compute. reflexivity. Qed.

(** The result is empty for a blank name and for no other. *)
Lemma preprocess_empty rawName :
  preprocessIngredientName rawName = "" <-> trim (toLowerCase rawName) = "".
Proof.
  destruct (String.eqb rawName "") eqn:E.
  - apply String.eqb_eq in E. subst. split; reflexivity.
  - apply String.eqb_neq in E. rewrite (preprocess_steps rawName E). cbv zeta.
    split.
    + destruct (String.eqb _ "ginger-garlic"); [discriminate|].
      destruct (String.eqb _ "") eqn:E2; [auto|].
      apply String.eqb_neq in E2. congruence.
    + intros ->. now rewrite steps_of_empty.
Qed.

Lemma firstn_In {A : Type} (x : A) n (l : list A) : In x (List.firstn n l) -> In x l.
Proof.
  revert l. induction n as [|n IH]; intros [|y l]; simpl; try tauto.
  intros [->|H]; auto.
Qed.

End CleaningFacts.

Import CleaningFacts.

(* ===================================================================== *)
(** ** Facts about the table and the script that writes it *)
(* ===================================================================== *)

Module CsvFacts.
Import ProcessNutritionData.
#[local] Open Scope list_scope.

Lemma split_cons sep a b :
  allChars (isNot sep) a = true ->
  split sep (a ++ String sep b)%string
  = (a, fst (split sep b) :: snd (split sep b)).
Proof.
  intros Ha. induction a as [|c a IH].
  - cbn [String.append split]. destruct (split sep b) as [p ps].
    now rewrite Ascii.eqb_refl.
  - simpl in Ha. apply andb_true_iff in Ha as [Hc Ha].
    cbn [String.append split]. rewrite (IH Ha).
    unfold isNot in Hc. apply negb_true_iff in Hc. now rewrite Hc.
Qed.

Lemma splitOn_join sep part parts :
  Forall (fun t => allChars (isNot sep) t = true) (part :: parts) ->
  IngredientMapper.splitOn sep (join (String sep "") (part :: parts))
  = part :: parts.
Proof.
  revert part. induction parts as [|q parts IH]; intros part H.
  - inversion H as [|? ? Hp _]; subst. unfold IngredientMapper.splitOn.
    cbn [join]. now rewrite MoreRunFacts.split_none.
  - inversion H as [|? ? Hp Hrest]; subst.
    specialize (IH q Hrest). unfold IngredientMapper.splitOn in *.
    change (join (String sep "") (part :: q :: parts))
      with (part ++ String sep (join (String sep "") (q :: parts)))%string.
    rewrite (split_cons sep _ _ Hp).
    destruct (split sep (join (String sep "") (q :: parts))) as [p ps].
    simpl. now rewrite IH.
Qed.

End CsvFacts.

Import CsvFacts.
Module LoaderFacts.
Import ProcessNutritionData.
#[local] Open Scope list_scope.

Lemma plainCell_no_comma t : plainCell t = true -> allChars (isNot ",") t = true.
Proof.
  apply allChars_impl. intros c H. unfold isNot.
  apply negb_true_iff, orb_false_iff in H as [H _]. now rewrite H.
Qed.

Lemma plainCell_no_newline t : plainCell t = true -> allChars (isNot "010") t = true.
Proof.
  apply allChars_impl. intros c H. apply negb_true_iff, orb_false_iff in H as [_ H].
  char_cases c.
Qed.

Lemma plainCell_no_space t :
  plainCell t = true -> allChars (fun c => negb (isSpace c)) t = true.
Proof.
  apply allChars_impl. intros c H.
  apply negb_true_iff, orb_false_iff in H as [_ H]. now rewrite H.
Qed.

(** A cell is read back as it was written. *)
Lemma cell_round_trip t :
  plainCell t = true -> (if String.eqb t "" then "" else trim t) = t.
Proof.
  intros H. destruct (String.eqb t "") eqn:E.
  - apply String.eqb_eq in E. now subst.
  - apply trim_no_space. now apply plainCell_no_space.
Qed.

Lemma allChars_join p sep parts :
  allChars p sep = true -> Forall (fun t => allChars p t = true) parts ->
  allChars p (join sep parts) = true.
Proof.
  intros Hsep. induction 1 as [|t parts Ht _ IH]; [reflexivity|].
  destruct parts as [|q parts]; [exact Ht|].
  change (join sep (t :: q :: parts)) with (t ++ sep ++ join sep (q :: parts))%string.
  now rewrite !allChars_app, Ht, Hsep, IH.
Qed.

Lemma trimStart_empty s : trimStart s = "" -> allChars isSpace s = true.
Proof.
  induction s as [|c s IH]; [reflexivity|]. cbn [trimStart allChars].
  destruct (isSpace c); [exact IH | discriminate].
Qed.

Lemma trim_empty s : trim s = "" -> allChars isSpace s = true.
Proof.
  unfold trim. destruct (trimStart_head s) as [E|(c & t & E & Hc)].
  - intros _. now apply trimStart_empty.
  - rewrite E. destruct (trimEnd_head c t Hc) as [t' ->]. discriminate.
Qed.

(** A line with a comma is not blank. *)
Lemma line_not_blank a b : String.eqb (trim (a ++ "," ++ b)) "" = false.
Proof.
  apply String.eqb_neq. intros H. apply trim_empty in H.
  rewrite !allChars_app in H. cbn in H. now rewrite andb_false_r in H.
Qed.

Lemma headers_of_output :
  IngredientMapper.splitOn "," (join "," outputColumns) = outputColumns.
Proof. vm_compute. reflexivity. Qed.

Section Writer.
Variable numberToString : num -> string.
Hypothesis Hnumbers : forall x, plainCell (numberToString x) = true.

Lemma cells_plain row :
  plainCell (ingredient row) = true ->
  Forall (fun t => plainCell t = true) (cells numberToString row).
Proof. intros H. unfold cells. repeat constructor; auto. Qed.

Lemma line_round_trip row :
  plainCell (ingredient row) = true ->
  IngredientMapper.rowOfObject
    (IngredientMapper.rowObject outputColumns
       (IngredientMapper.splitOn "," (join "," (cells numberToString row))) 0 ∅)
  = Some (writtenRow numberToString row).
Proof.
  intros H. pose proof (cells_plain row H) as Hcells.
  unfold cells in *.
  rewrite splitOn_join.
  2:{ eapply List.Forall_impl; [|exact Hcells].
      intros t. apply plainCell_no_comma. }
  unfold outputColumns.
  cbn [IngredientMapper.rowObject IngredientMapper.cellAt nth_error].
  rewrite !cell_round_trip by auto.
  change (trim "ingredient") with "ingredient".
  change (trim "calories_per_100g") with "calories_per_100g".
  change (trim "protein_per_100g") with "protein_per_100g".
  change (trim "carbs_per_100g") with "carbs_per_100g".
  change (trim "fat_per_100g") with "fat_per_100g".
  change (trim "fiber_per_100g") with "fiber_per_100g".
  unfold IngredientMapper.rowOfObject.
  rewrite !lookup_insert. 
  repeat (destruct (decide _) as [E|E]; [try discriminate E|try congruence]).
  reflexivity.
Qed.

End Writer.
End LoaderFacts.

(** *** Global replacement *)

Module ReplaceFacts.
#[local] Open Scope nat_scope.

(** What a global replacement leaves: the replacement text and those
    characters of the input at which no match begins. *)
Lemma replaceAllFrom_allChars ci r repl (P Q : ascii -> bool) :
  allChars Q repl = true ->
  (forall prev c s, P c = true -> matchHere ci r prev (String c s) = None ->
     Q c = true) ->
  (forall prev c s s' cs, matchHere ci r prev (String c s) = Some (s', cs) ->
     String.length s' <= String.length s) ->
  forall s skip prev,
    allChars P s = true ->
    allChars Q (replaceAllFrom ci r repl skip prev s) = true.
Proof.
  intros Hrepl Hnone Hsome. induction s as [|c s IH]; intros skip prev Hs.
  - destruct skip as [|n]; cbn [replaceAllFrom]; [|reflexivity].
    destruct (matchHere ci r prev "") as [[s' cs]|]; [|reflexivity].
    rewrite allChars_app, Hrepl.
    now destruct (String.length "" - String.length s').
  - simpl in Hs. apply andb_true_iff in Hs as [Hc Hs].
    destruct skip as [|n]; cbn [replaceAllFrom]; [|now apply IH].
    destruct (matchHere ci r prev (String c s)) as [[s' cs]|] eqn:Hm.
    + rewrite allChars_app, Hrepl. cbn [andb].
      apply Hsome in Hm. cbn [String.length].
      replace (S (String.length s) - String.length s')
        with (S (String.length s - String.length s')) by lia.
      now apply IH.
    + cbn [allChars]. rewrite (Hnone prev c s Hc Hm). now apply IH.
Qed.

Section Total.
Context {A : Type}.
Lemma many_total p (k : @cont A) :
  (forall prev s cs, k prev s cs <> None) ->
  forall s prev cs, many p prev s cs k <> None.
Proof.
  intros Hk. induction s as [|c s IH]; intros prev cs; cbn [many]; [apply Hk|].
  destruct (p c); [|apply Hk].
  destruct (many p (Some c) s cs k) eqn:E; [discriminate|]. now apply IH in E.
Qed.
End Total.

Lemma matchHere_cls ci p prev c s :
  matchHere ci (Cls p) prev (String c s)
  = if p c then Some (s, [(0, String c "")]) else None.
Proof.
  unfold matchHere. rewrite rmatch_Grp. cbn [rmatch].
  destruct (p c); [|reflexivity].
  now rewrite (consumed_suffix (String c "") s (String c s) eq_refl).
Qed.

Lemma matchHere_plus_none ci p prev c s :
  matchHere ci (Plus p) prev (String c s) = None -> p c = false.
Proof.
  unfold matchHere, Plus. rewrite rmatch_Grp, rmatch_Seq. cbn [rmatch].
  destruct (p c); [|reflexivity]. intros H. exfalso. revert H.
  apply many_total. discriminate.
Qed.

Lemma matchHere_plus_some ci p prev c s s' cs :
  matchHere ci (Plus p) prev (String c s) = Some (s', cs) ->
  String.length s' <= String.length s.
Proof.
  unfold matchHere. intros H.
  apply ReadFacts.group_plus_inv in H as (x & w & s2 & E & _ & _ & H).
  injection H as <- _. injection E as _ ->. rewrite length_app. lia.
Qed.

Lemma replaceAll_cls_allChars ci p (P : ascii -> bool) s :
  allChars P s = true ->
  allChars (fun c => P c && negb (p c)) (replaceAll ci (Cls p) "" s) = true.
Proof.
  apply replaceAllFrom_allChars; [reflexivity | |].
  - intros prev c s0 Hc H. rewrite matchHere_cls in H.
    destruct (p c); [discriminate|]. now rewrite Hc.
  - intros prev c s0 s' cs H. rewrite matchHere_cls in H.
    destruct (p c); [|discriminate]. injection H as <- _. lia.
Qed.

Lemma replaceAll_plus_allChars ci p x (P : ascii -> bool) s :
  allChars P s = true ->
  allChars (fun c => P c && negb (p c) || Ascii.eqb c x)
    (replaceAll ci (Plus p) (String x "") s) = true.
Proof.
  apply replaceAllFrom_allChars.
  - cbn [allChars]. now rewrite Ascii.eqb_refl, orb_true_r.
  - intros prev c s0 Hc H. apply matchHere_plus_none in H.
    now rewrite Hc, H.
  - intros prev c s0 s' cs. apply matchHere_plus_some.
Qed.

End ReplaceFacts.
Import ReplaceFacts.

Module ScriptFacts.
Import ProcessNutritionData.

Lemma toLowerCase_lowered s : allChars isLowered (toLowerCase s) = true.
Proof.
  induction s as [|c s IH]; [reflexivity|]. cbn [toLowerCase allChars].
  unfold isLowered at 1. now rewrite lowerChar_idem, Ascii.eqb_refl.
Qed.

Lemma cleaned_char c :
  isLowered c && negb (isPunctuation c) && negb (isSpace c) || Ascii.eqb c "_"
  = true ->
  isNameChar c = true.
Proof. intros H. char_cases c. Qed.

(** The names that the script writes are made of lower-case letters,
    digits and underscores. *)
Lemma cleanName_chars foodName : allChars isNameChar (cleanName foodName) = true.
Proof.
  unfold cleanName. apply allChars_trim.
  eapply allChars_impl; [exact cleaned_char|].
  apply (replaceAll_plus_allChars false isSpace "_").
  apply replaceAll_cls_allChars. apply toLowerCase_lowered.
Qed.

End ScriptFacts.

Import ScriptFacts LoaderFacts.
Module TableFacts.
Import ProcessNutritionData.
#[local] Open Scope list_scope.

Lemma nameOf_chars cell : allChars isNameChar (nameOf cell) = true.
Proof.
  destruct cell as [text|]; [|reflexivity]. cbn [nameOf].
  destruct (String.eqb text ""); [reflexivity | apply cleanName_chars].
Qed.

Lemma onData_invariant state row :
  tableInvariant state -> tableInvariant (onData state row).
Proof.
  destruct state as [results names]. intros (Hset & Hnodup & Hall).
  unfold onData. cbn [fst snd] in *.
  destruct (negb (String.eqb (ingredient (processRow row)) "")) eqn:E1;
    cbn [andb]; [|exact (conj Hset (conj Hnodup Hall))].
  destruct (bool_decide (ingredient (processRow row) ∈ names)) eqn:E2;
    cbn [negb]; [exact (conj Hset (conj Hnodup Hall))|].
  apply negb_true_iff, String.eqb_neq in E1.
  apply bool_decide_eq_false in E2.
  unfold tableInvariant. cbn [fst snd].
  split; [|split].
  - intros n. rewrite elem_of_union, elem_of_singleton, Hset, map_app, in_app_iff.
    cbn. intuition congruence.
  - rewrite map_app. cbn [map]. apply NoDup_app. split; [exact Hnodup|].
    split.
    + intros x Hx Hx'. apply list_elem_of_singleton in Hx'. subst x.
      apply E2, Hset. now apply list_elem_of_In.
    + apply NoDup_singleton.
  - apply Forall_app. split; [exact Hall|]. constructor; [|constructor].
    split; [exact E1|]. apply nameOf_chars.
Qed.

Lemma fold_invariant rows : forall state,
  tableInvariant state -> tableInvariant (fold_left onData rows state).
Proof.
  induction rows as [|row rows IH]; intros state H; [exact H|].
  cbn [fold_left]. apply IH, onData_invariant, H.
Qed.

Lemma processRows_invariant rows :
  NoDup (map ingredient (processRows rows))
  /\ Forall (fun row => ingredient row <> ""
                        /\ allChars isNameChar (ingredient row) = true)
       (processRows rows).
Proof.
  unfold processRows.
  destruct (fold_invariant rows ([], ∅)) as (_ & H1 & H2); [|auto].
  repeat split; cbn; [set_solver | set_solver | apply NoDup_nil_2 | constructor].
Qed.

Lemma isNameChar_plain c :
  isNameChar c = true -> negb (Ascii.eqb c "," || isSpace c) = true.
Proof. intros H. char_cases c. Qed.

Lemma name_plain s : allChars isNameChar s = true -> plainCell s = true.
Proof. apply allChars_impl, isNameChar_plain. Qed.

Lemma filter_all {A : Type} (f : A -> bool) l :
  Forall (fun x => f x = true) l -> List.filter f l = l.
Proof.
  induction 1 as [|x l Hx _ IH]; [reflexivity|]. cbn. now rewrite Hx, IH.
Qed.

Section Writer.
Variable numberToString : num -> string.
Hypothesis Hnumbers : forall x, plainCell (numberToString x) = true.

Lemma line_shape row :
  exists a b, join "," (cells numberToString row) = (a ++ "," ++ b)%string.
Proof. unfold cells. cbn [join]. eauto. Qed.

Lemma load_written results :
  Forall (fun row => plainCell (ingredient row) = true) results ->
  map IngredientMapper.rowOfObject
    (IngredientMapper.loadNutritionDBSync
       (Some (csvContent numberToString results)))
  = map (fun row => Some (writtenRow numberToString row)) results.
Proof.
  intros Hnames. unfold IngredientMapper.loadNutritionDBSync, csvContent.
  rewrite splitOn_join.
  2:{ constructor; [vm_compute; reflexivity|].
      apply Forall_map. eapply List.Forall_impl; [|exact Hnames].
      intros row Hrow. apply allChars_join; [reflexivity|].
      eapply List.Forall_impl; [|exact (cells_plain numberToString Hnumbers row Hrow)].
      intros t. apply plainCell_no_newline. }
  rewrite headers_of_output.
  rewrite filter_all.
  2:{ apply Forall_map, Forall_forall. intros row _.
      destruct (line_shape row) as (a & b & ->).
      now rewrite line_not_blank. }
  rewrite !map_map. apply map_ext_in. intros row Hrow.
  apply line_round_trip; [exact Hnumbers|].
  rewrite List.Forall_forall in Hnames. now apply Hnames.
Qed.

End Writer.

Lemma NoDup_map_inj {A B : Type} (f : A -> B) l a b :
  NoDup (map f l) -> In a l -> In b l -> f a = f b -> a = b.
Proof.
  induction l as [|x l IH]; [intros _ []|]. cbn [map]. intros Hnd Ha Hb Hab.
  apply NoDup_cons in Hnd as [Hx Hl].
  destruct Ha as [->|Ha], Hb as [->|Hb]; auto.
  - exfalso. apply Hx. rewrite Hab. now apply list_elem_of_In, in_map.
  - exfalso. apply Hx. rewrite <- Hab. now apply list_elem_of_In, in_map.
Qed.

End TableFacts.

Import TableFacts.
(* ===================================================================== *)
(** ** Facts about validation and servings *)
(* ===================================================================== *)

Module RangeFacts.
Import NutritionCalculator ErrorHandler.

(** For numbers, [y < x] failing means [x <= y]. *)
Lemma not_gt_le x y :
  isNaN x = false -> isNaN y = false -> Num.lt y x = false -> Num.le x y = true.
Proof.
  unfold Num.le, Num.lt, SFleb, SFltb.
  destruct x as [sx|sx| |sx mx ex], y as [sy|sy| |sy my ey]; simpl;
    try discriminate; try reflexivity; intros _ _;
    try (destruct sx; try destruct sy; simpl; try discriminate; reflexivity);
    try (destruct sy; simpl; try discriminate; reflexivity).
  destruct sx, sy; simpl; try discriminate; try reflexivity.
  - rewrite (Z.compare_antisym ey ex).
    destruct (ey ?= ex); simpl; try discriminate; try reflexivity.
    rewrite (compare_cont_swap mx my).
    destruct (Pos.compare_cont Eq my mx); simpl; try discriminate; reflexivity.
  - rewrite (Z.compare_antisym ey ex).
    destruct (ey ?= ex); simpl; try discriminate; try reflexivity.
    rewrite (compare_cont_swap mx my).
    destruct (Pos.compare_cont Eq my mx); simpl; try discriminate; reflexivity.
Qed.

Lemma not_le_zero_positive w :
  truthy w = true -> Num.le w zero = false -> Num.lt zero w = true.
Proof. destruct w as [[|]|[|]| |[|] m e]; try discriminate; reflexivity. Qed.

Lemma truthy_not_nan w : truthy w = true -> isNaN w = false.
Proof. destruct w; try discriminate; reflexivity. Qed.

Lemma defaultWeights_in_range : allEntries inRangeWeight defaultWeights = true.
Proof. vm_compute. reflexivity. Qed.

Lemma negToZero_not_negative y : Num.lt (negToZero y) zero = false.
Proof. unfold negToZero. destruct (Num.lt y zero) eqn:E; [reflexivity | exact E]. Qed.

Section Cap.
Variable c : num.
Hypothesis Hcc : Num.gt c c = false.
Hypothesis Hc0 : Num.lt c zero = false.
Hypothesis H0c : Num.gt zero c = false.

Lemma capped_first x :
  Num.gt (negToZero (if Num.gt x c then c else x)) c = false.
Proof.
  destruct (Num.gt x c) eqn:E.
  - unfold negToZero. now rewrite Hc0.
  - unfold negToZero. destruct (Num.lt x zero); [exact H0c | exact E].
Qed.

Lemma capped_last x :
  Num.gt (if Num.gt x c then c else negToZero x) c = false
  /\ Num.lt (if Num.gt x c then c else negToZero x) zero = false.
Proof.
  destruct (Num.gt x c) eqn:E; [auto|]. split.
  - unfold negToZero. destruct (Num.lt x zero); [exact H0c | exact E].
  - apply negToZero_not_negative.
Qed.
End Cap.

Lemma validated_fields n :
  validateNutritionValues n
  = {| calories :=
         negToZero (if Num.gt (calories n) (ofZ 1000) then ofZ 1000
                    else calories n);
       protein := if Num.gt (protein n) (ofZ 100) then ofZ 100
                  else negToZero (protein n);
       carbs := if Num.gt (carbs n) (ofZ 200) then ofZ 200
                else negToZero (carbs n);
       fat := if Num.gt (fat n) (ofZ 100) then ofZ 100
              else negToZero (fat n);
       fiber := negToZero (fiber n) |}.
Proof.
  unfold validateNutritionValues.
  destruct (Num.gt (calories n) (ofZ 1000)), (Num.gt (protein n) (ofZ 100)),
    (Num.gt (carbs n) (ofZ 200)), (Num.gt (fat n) (ofZ 100)); reflexivity.
Qed.

Lemma negToZero_id y : Num.lt y zero = false -> negToZero y = y.
Proof. unfold negToZero. now intros ->. Qed.

Lemma validated_fixed n :
  Num.gt (calories n) (ofZ 1000) = false -> Num.lt (calories n) zero = false ->
  Num.gt (protein n) (ofZ 100) = false -> Num.lt (protein n) zero = false ->
  Num.gt (carbs n) (ofZ 200) = false -> Num.lt (carbs n) zero = false ->
  Num.gt (fat n) (ofZ 100) = false -> Num.lt (fat n) zero = false ->
  Num.lt (fiber n) zero = false ->
  validateNutritionValues n = n.
Proof.
  intros H1 H2 H3 H4 H5 H6 H7 H8 H9. rewrite validated_fields.
  rewrite H1, H3, H5, H7, !negToZero_id by assumption. now destruct n.
Qed.

End RangeFacts.
Import RangeFacts.


Module ServingFacts.
Import IngredientMapper NutritionCalculator.
#[local] Open Scope list_scope.

Lemma or_zero_not_nan x : isNaN (x || zero)%num = false.
Proof. unfold Num.or. destruct x; reflexivity. Qed.




Section Calculator.
Variable getNutritionData : string -> outcome (option NutritionRow).
Variable hm : HouseholdMeasurements.



End Calculator.
End ServingFacts.
Import ServingFacts.


(** *** Dish names *)

Module TestFacts.
#[local] Open Scope nat_scope.

Lemma search_cls ci p s : forall prev,
  search ci (Cls p) prev s = None <-> existsChar p s = false.
Proof.
  induction s as [|c s IH]; intros prev.
  - cbn. tauto.
  - cbn [search existsChar]. rewrite matchHere_cls.
    destruct (p c); cbn [orb].
    + split; discriminate.
    + rewrite <- (IH (Some c)).
      destruct (search ci (Cls p) (Some c) s) as [[[pre s'] cs]|];
        split; congruence.
Qed.

Lemma test_cls ci p s : test ci (Cls p) s = existsChar p s.
Proof.
  unfold test, exec.
  destruct (search ci (Cls p) None s) as [[[pre s'] cs]|] eqn:E.
  - destruct (existsChar p s) eqn:E2; [reflexivity|].
    apply (search_cls ci p s None) in E2. congruence.
  - symmetry. now apply (search_cls ci p s None).
Qed.

(** A pattern that begins with [^] matches at the start or nowhere. *)
Lemma search_bol_later ci r s : forall c,
  search ci (Seq Bol r) (Some c) s = None.
Proof.
  induction s as [|x s IH]; intros c; cbn [search].
  - reflexivity.
  - unfold matchHere. rewrite rmatch_Grp. cbn [rmatch]. now rewrite IH.
Qed.

Lemma test_bol ci r s :
  test ci (Seq Bol r) s
  = match matchHere ci (Seq Bol r) None s with
    | Some _ => true
    | None => false
    end.
Proof.
  unfold test, exec. destruct s as [|c s]; cbn [search].
  - now destruct (matchHere ci (Seq Bol r) None "") as [[s' cs]|].
  - destruct (matchHere ci (Seq Bol r) None (String c s)) as [[s' cs]|];
      [reflexivity|].
    now rewrite search_bol_later.
Qed.

Section Full.
Context {A : Type}.
Implicit Types (k : @cont A).

Lemma rmatch_Bol_start ci s cs k : rmatch ci Bol None s cs k = k None s cs.
Proof. reflexivity. Qed.

Lemma rmatch_Cls_cons ci p prev c s cs k :
  rmatch ci (Cls p) prev (String c s) cs k
  = if p c then k (Some c) s cs else None.
Proof. reflexivity. Qed.

Lemma rmatch_Cls_nil ci p prev cs k : rmatch ci (Cls p) prev "" cs k = None.
Proof. reflexivity. Qed.

(** [p*$] reads the whole of a text of [p], and fails on any other text. *)
Lemma rest_of_class_some ci p s prev cs k v :
  allChars p s = true -> k (lastChar prev s) "" cs = Some v ->
  rmatch ci (Many p) prev s cs (fun p0 s' c => rmatch ci Eol p0 s' c k) = Some v.
Proof.
  intros Hs Hk. rewrite <- (app_nil_r s).
  apply many_rmatch_greedy; [exact Hs | reflexivity | exact Hk].
Qed.

Lemma rest_of_class_none ci p s prev cs k :
  allChars p s = false ->
  rmatch ci (Many p) prev s cs (fun p0 s' c => rmatch ci Eol p0 s' c k) = None.
Proof.
  intros Hs.
  destruct (rmatch ci (Many p) prev s cs _) as [v|] eqn:E; [|reflexivity].
  exfalso. cbn [rmatch] in E.
  apply many_inv in E as (w & s' & -> & Hw & E).
  destruct s'; [|discriminate]. rewrite app_nil_r in Hs. congruence.
Qed.
End Full.

Lemma matchHere_class_run ci p s :
  match matchHere ci (Seq Bol (Seq (Plus p) Eol)) None s with
  | Some _ => true
  | None => false
  end = negb (String.eqb s "") && allChars p s.
Proof.
  unfold matchHere. rewrite rmatch_Grp, rmatch_Seq, rmatch_Bol_start.
  rewrite rmatch_Seq. unfold Plus. rewrite rmatch_Seq.
  destruct s as [|c s]; [reflexivity|].
  rewrite rmatch_Cls_cons. cbn [String.eqb negb andb allChars].
  destruct (p c); [|reflexivity]. cbn [andb].
  destruct (allChars p s) eqn:Hs.
  - erewrite (rest_of_class_some ci p s); [reflexivity | exact Hs | reflexivity].
  - now rewrite (rest_of_class_none ci p s).
Qed.

Lemma matchHere_three_or_more ci p s :
  match matchHere ci (Seq Bol (Seq (Cls p) (Seq (Cls p) (Seq (Cls p)
          (Seq (Many p) Eol))))) None s with
  | Some _ => true
  | None => false
  end = (3 <=? String.length s) && allChars p s.
Proof.
  unfold matchHere. rewrite rmatch_Grp, rmatch_Seq, rmatch_Bol_start.
  rewrite rmatch_Seq.
  destruct s as [|c1 s]; [reflexivity|]. rewrite rmatch_Cls_cons.
  cbn [allChars]. destruct (p c1); [|now rewrite andb_false_r].
  rewrite rmatch_Seq.
  destruct s as [|c2 s]; [reflexivity|]. rewrite rmatch_Cls_cons.
  cbn [allChars]. destruct (p c2); [|now rewrite andb_false_r].
  rewrite rmatch_Seq.
  destruct s as [|c3 s]; [reflexivity|]. rewrite rmatch_Cls_cons.
  cbn [allChars]. destruct (p c3); [|now rewrite andb_false_r].
  rewrite rmatch_Seq. cbn [String.length Nat.leb andb].
  destruct (allChars p s) eqn:Hs.
  - erewrite (rest_of_class_some ci p s); [reflexivity | exact Hs | reflexivity].
  - now rewrite (rest_of_class_none ci p s).
Qed.

End TestFacts.

Import TestFacts.
Module DishNameFacts.
#[local] Open Scope nat_scope.

Lemma same_symbols c :
  DishClassifier.isNameSymbol c = NutritionCalculator.isDishNameChar c.
Proof. char_cases c. Qed.

Lemma allChars_ext (p q : ascii -> bool) s :
  (forall c, p c = q c) -> allChars p s = allChars q s.
Proof. intros H. induction s as [|c s IH]; cbn; [reflexivity|]. now rewrite H, IH. Qed.

Lemma calculator_validName s : NutritionCalculator.isValidDishName s = validName s.
Proof.
  unfold NutritionCalculator.isValidDishName, validName,
    NutritionCalculator.reDishName.
  rewrite test_cls, test_bol, matchHere_three_or_more.
  rewrite Nat.ltb_antisym.
  destruct (3 <=? String.length s); cbn [negb andb]; [|reflexivity].
  now destruct (existsChar isAlpha s).
Qed.

Lemma classifier_validName s :
  DishClassifier.isValidDishName (JStr s) = validName (trim s).
Proof.
  unfold DishClassifier.isValidDishName, validName.
  destruct (String.eqb s "") eqn:E.
  { apply String.eqb_eq in E. now subst. }
  unfold DishClassifier.validNameRegex.
  rewrite test_cls, test_bol, matchHere_class_run.
  rewrite Nat.ltb_antisym.
  rewrite (allChars_ext _ _ _ same_symbols).
  destruct (3 <=? String.length (trim s)) eqn:E3; cbn [negb andb]; [|reflexivity].
  destruct (existsChar isAlpha (trim s)); cbn [negb andb]; [|reflexivity].
  destruct (trim s); [discriminate | reflexivity].
Qed.





End DishNameFacts.
Import DishNameFacts.

(* ===================================================================== *)
(** ** Facts about amounts, known dishes and partial matches *)
(* ===================================================================== *)

Module AmountFacts.
Import IngredientMapper NutritionCalculator.







Lemma nanToZero_keeps_amount x : isAmount x = true -> isAmount (nanToZero x) = true.
Proof. intros H. rewrite nanToZero_id; [exact H | now apply amount_not_nan]. Qed.

End AmountFacts.

Module WeightFacts.
Import IngredientMapper NutritionCalculator AmountFacts.


Section GoodFactors.
Variable getNutritionData : string -> outcome (option NutritionRow).
Variable hm : HouseholdMeasurements.
Hypothesis Hfactors : goodFactors hm = true.



End GoodFactors.


End WeightFacts.

Module FetcherFacts.
Import RecipeFetcher IngredientMapper.

Lemma prefix_inv sub : forall s,
  String.prefix sub s = true -> exists post, s = sub ++ post.
Proof.
  induction sub as [|c sub IH]; intros s H.
  - exists s. reflexivity.
  - destruct s as [|d s]; [discriminate|]. cbn [String.prefix] in H.
    destruct (ascii_dec c d) as [<-|]; [|discriminate].
    destruct (IH s H) as (post & ->). exists post. reflexivity.
Qed.

Lemma includes_inv sub : forall s, includes sub s = true -> holds s sub.
Proof.
  unfold holds. induction s as [|c s IH]; cbn [includes]; intros H.
  - apply orb_true_iff in H as [H|H]; [|discriminate].
    apply prefix_inv in H as (post & ->). now exists "", post.
  - apply orb_true_iff in H as [H|H].
    + apply prefix_inv in H as (post & ->). now exists "", post.
    + destruct (IH H) as (pre & post & ->). now exists (String c pre), post.
Qed.

(** [includes] decides [holds]. *)
Lemma includes_holds sub s : includes sub s = true <-> holds s sub.
Proof.
  split; [apply includes_inv|]. intros (pre & post & ->). apply includes_app.
Qed.

Lemma includes_either a b :
  includes b a || includes a b = true <-> overlap a b.
Proof. unfold overlap. now rewrite orb_true_iff, !includes_holds. Qed.

Lemma includes_nothing s : includes "" s = true.
Proof. apply includes_holds. now exists "", s. Qed.

Lemma unique_In x l : forall seen,
  In x (unique seen l) <-> In x l /\ ~ In x seen.
Proof.
  induction l as [|y l IH]; intros seen; cbn [unique].
  - cbn. tauto.
  - destruct (existsb (String.eqb y) seen) eqn:E.
    + apply existsb_exists in E as (z & Hz & Hyz).
      apply String.eqb_eq in Hyz. subst z.
      rewrite IH. cbn [In]. split; [tauto|].
      intros [[<-|H] Hn]; [contradiction|tauto].
    + assert (Hy : ~ In y seen).
      { intros Hin. apply not_true_iff_false in E. apply E.
        apply existsb_exists. exists y. split; [exact Hin|].
        apply String.eqb_refl. }
      cbn [In]. rewrite IH. cbn [In]. split.
      * intros [<-|[H Hn]]; [tauto|]. split; [tauto|]. tauto.
      * intros [[<-|H] Hn]; [tauto|].
        destruct (string_dec y x) as [->|Hne]; [tauto|]. right. tauto.
Qed.

(** The known dishes are the stored recipes and the common dishes. *)
Lemma knownDishes_In names dish :
  In dish (knownDishes names) <-> In dish names \/ In dish commonDishes.
Proof.
  unfold knownDishes, loadKnownDishes. cbv zeta.
  rewrite unique_In, in_app_iff. cbn [In]. tauto.
Qed.

(** What [find] returns is the first element that passes. *)
Lemma find_first {A} (f : A -> bool) x : forall l,
  find f l = Some x ->
  exists before after,
    l = (before ++ x :: after)%list /\ f x = true
    /\ forall y, In y before -> f y = false.
Proof.
  induction l as [|y l IH]; cbn [find]; [discriminate|].
  destruct (f y) eqn:E.
  - intros [= ->]. exists nil, l. split; [reflexivity|]. split; [exact E|].
    intros y [].
  - intros H. destruct (IH H) as (before & after & -> & Hx & Hb).
    exists (y :: before)%list, after. split; [reflexivity|].
    split; [exact Hx|]. intros z [<-|Hz]; auto.
Qed.

Lemma insertByLength_cons x l : insertByLength x l <> nil.
Proof.
  destruct l; cbn [insertByLength]; [discriminate|].
  now destruct (_ <=? _)%nat.
Qed.

End FetcherFacts.

(* ===================================================================== *)
(** ** The scenarios of the specification, run on the model *)
(* ===================================================================== *)

Section Scenarios.
Import QuantityStandardizer IngredientMapper NutritionCalculator.
#[local] Open Scope list_scope.

(** Half a cup, with 150 g per cup, weighs 75 g. *)
Example half_cup :
  standardizeToGrams Sample.table (JStr "1/2 cup") (JStr "rice")
  = Ret (ofZ 75).
Proof. vm_compute. reflexivity. Qed.

(** ["to taste"] is half a teaspoon, 2.5 g with the fallback of 5 g. *)
Example to_taste :
  parseQuantity (JStr "to taste")
  = Ret {| value := literal 5 1; unit := Some "teaspoon" |}
  /\ standardizeToGrams Sample.table (JStr "to taste") (JStr "salt")
     = Ret (literal 25 1).
Proof. split; vm_compute; reflexivity. Qed.

(** A range is read as the mean of its ends. *)
Example two_to_three_tablespoons :
  parseQuantity (JStr "2-3 tablespoon")
  = Ret {| value := literal 25 1; unit := Some "tablespoon" |}.
Proof. vm_compute. reflexivity. Qed.

(** Two medium onions: the name is resolved through the synonym table, the
    weight is 240 g and the calories are 96. *)
Example two_medium_onions :
  NutritionCalculator.processIngredient Sample.getNutritionData Sample.table
    (Sample.item "onions" "2 medium")
  = Ret {| p_ingredient := JStr "onions"; mappedName := Some "onion";
           p_quantity := JStr "2 medium"; weight_g := ofZ 240;
           nutrition :=
             Some {| calories := ofZ 96; protein := literal 48 1;
                     carbs := literal 72 1; fat := literal 24 1;
                     fiber := zero |};
           error := None |}.
Proof. vm_compute. reflexivity. Qed.

(** An ingredient without a name makes [toLowerCase] throw before the
    callback awaits anything: its record, with the exception as its error,
    is pushed first, and the other ingredients are processed. *)
Example nameless_ingredient_in_the_middle :
  exists r,
    NutritionCalculator.calculateNutrition Sample.getNutritionData Sample.table
      Sample.sameTurn
      [ Sample.item "onions" "2 medium";
        {| name := JUndefined; quantity := JStr "1 cup";
           standardQuantity := JUndefined |};
        Sample.item "ghee" "100 g" ] = Ret r
    /\ map error (processedIngredients r)
       = [Some "Cannot read properties of undefined"; None; None]
    /\ map mappedName (processedIngredients r)
       = [None; Some "onion"; Some "ghee"]
    /\ totalWeightInGrams r = ofZ 340
    /\ calories (totalNutrition r) = ofZ 996.
Proof.
  eexists. split; [vm_compute; reflexivity|]. vm_compute. auto.
Qed.

End Scenarios.
(* ===================================================================== *)
(** ** Properties of the quantity parser on inputs that are not phrases *)
(* ===================================================================== *)

Section ParserGuard.
Import QuantityStandardizer.

(** C10. For [null], [undefined], the empty string and every value that is
    not a string (a boolean, a number, an object), [parseQuantity] returns
    the unparseable result [{value: 0, unit: null}] and does not throw. *)
Theorem parseQuantity_not_a_phrase :
  parseQuantity JNull = Ret {| value := zero; unit := None |}
  /\ parseQuantity JUndefined = Ret {| value := zero; unit := None |}
  /\ parseQuantity (JStr "") = Ret {| value := zero; unit := None |}
  /\ (forall b, parseQuantity (JBool b) = Ret {| value := zero; unit := None |})
  /\ (forall n, parseQuantity (JNum n) = Ret {| value := zero; unit := None |})
  /\ parseQuantity JObj = Ret {| value := zero; unit := None |}.
Proof. repeat split. Qed.

End ParserGuard.

(* ===================================================================== *)
(** ** Properties of gram conversion *)
(* ===================================================================== *)

Section GramConversion.
Import QuantityStandardizer.





End GramConversion.

(* ===================================================================== *)
(** ** Quantities given in grams *)
(* ===================================================================== *)

Section GramsPhrase.
Import QuantityStandardizer.

(** C7. A phrase made of a decimal numeral (digits, optionally a point and
    more digits), any amount of white space, possibly none, and the letter
    ["g"] is parsed to the number [n] that the numeral denotes with the unit
    ["g"]; converting that to grams returns exactly [n], whatever the
    conversion table and the ingredient name are. *)
Theorem grams_phrase_is_its_number hm i f sp name :
  isNumeral i f = true -> allChars isSpace sp = true ->
  parseQuantity (JStr (numeralText i f ++ sp ++ "g"))
    = Ret {| value := numeralValue i f; unit := Some "g" |}
  /\ convertToGrams hm {| value := numeralValue i f; unit := Some "g" |} name
     = Ret (numeralValue i f)
  /\ standardizeToGrams hm (JStr (numeralText i f ++ sp ++ "g")) name
     = Ret (numeralValue i f).
Proof.
  intros Hn Hsp.
  pose proof (parseQuantity_numeral i f sp Hn Hsp) as Hp.
  rewrite (parseFloat_numeral i f Hn) in Hp.
  split; [exact Hp|]. split; [reflexivity|].
  unfold standardizeToGrams. rewrite Hp. reflexivity.
Qed.

Lemma grams_phrase_is_its_number_witness :
  isNumeral "12" (Some "5") = true
  /\ allChars isSpace " " = true
  /\ parseQuantity (JStr "12.5 g")
     = Ret {| value := numeralValue "12" (Some "5"); unit := Some "g" |}
  /\ convertToGrams Sample.table
       {| value := numeralValue "12" (Some "5"); unit := Some "g" |}
       (JStr "rice")
     = Ret (numeralValue "12" (Some "5"))
  /\ standardizeToGrams Sample.table (JStr "12.5 g") (JStr "rice")
     = Ret (numeralValue "12" (Some "5")).
Proof.
  split; [reflexivity|]. split; [reflexivity|].
  apply (grams_phrase_is_its_number Sample.table "12" (Some "5") " " (JStr "rice"));
    reflexivity.
Defined.

End GramsPhrase.

(* ===================================================================== *)
(** ** Properties of the aggregation *)
(* ===================================================================== *)

Section Aggregation.
Import QuantityStandardizer IngredientMapper NutritionCalculator AmountFacts.
#[local] Open Scope list_scope.

Variable getNutritionData : string -> outcome (option NutritionRow).
Variable hm : HouseholdMeasurements.


Lemma nanToZero_zeroForNaN raw : zeroForNaN raw (nanToZero raw).
Proof. unfold zeroForNaN, nanToZero. split; now intros ->. Qed.

Lemma validateNutrition_zeroedNaN raw : zeroedNaN raw (validateNutrition raw).
Proof. repeat split; apply nanToZero_zeroForNaN || now intros ->. Qed.





(** C6, as stated, fails. Only [NaN] is replaced by zero: one cup divided by
    zero weighs [Infinity] grams, and the nutrients scaled by it are
    [Infinity] in the record of the ingredient and in the totals. And
    nothing replaces a negative number: with a table cell of -5 calories,
    one cup of 150 g has -7.5 calories. *)
Lemma infinite_and_negative_nutrients_are_kept :
  NutritionCalculator.calculateNutrition Sample.getNutritionData Sample.table
    Sample.sameTurn [Sample.item "cream" "1/0 cup"]
  = Ret {| totalNutrition :=
             {| calories := Infinity; protein := Infinity; carbs := Infinity;
                fat := Infinity; fiber := zero |};
           processedIngredients :=
             [ {| p_ingredient := JStr "cream"; mappedName := Some "cream";
                  p_quantity := JStr "1/0 cup"; weight_g := Infinity;
                  nutrition :=
                    Some {| calories := Infinity; protein := Infinity;
                            carbs := Infinity; fat := Infinity;
                            fiber := zero |};
                  error := None |} ];
           totalWeightInGrams := Infinity |}
  /\ NutritionCalculator.calculateNutrition Sample.getCorrupt Sample.table
       Sample.sameTurn [Sample.item "ash" "1 cup"]
     = Ret {| totalNutrition :=
                {| calories := neg (literal 75 1); protein := ofZ 3;
                   carbs := literal 45 1; fat := literal 15 1;
                   fiber := zero |};
              processedIngredients :=
                [ {| p_ingredient := JStr "ash"; mappedName := Some "ash";
                     p_quantity := JStr "1 cup"; weight_g := ofZ 150;
                     nutrition :=
                       Some {| calories := neg (literal 75 1);
                               protein := ofZ 3; carbs := literal 45 1;
                               fat := literal 15 1; fiber := zero |};
                     error := None |} ];
              totalWeightInGrams := ofZ 150 |}
  /\ Num.lt (neg (literal 75 1)) zero = true.
Proof. repeat split; vm_compute; reflexivity. Qed.

(** C6 (amended). After the five nutrient fields of a resolved ingredient
    have been scaled by its weight over 100, every field that is [NaN] is
    replaced by zero and every other field is left as it is, the infinite
    ones too; the same holds of the totals, which are the sums over the
    records. So no nutrient field of a record or of the totals is ever
    [NaN]. With tables that hold no negative number (conversion factors
    finite and not negative, cells of the rows not negative) every field is
    a number that is not negative. *)
Theorem nan_nutrients_become_zero turn l :
  exists r,
    NutritionCalculator.calculateNutrition getNutritionData hm turn l = Ret r
    /\ (forall p n,
          In p (processedIngredients r) -> nutrition p = Some n ->
          (exists ing s row,
             In ing l /\ name ing = JStr s
             /\ getNutritionData (trim (toLowerCase s)) = Ret (Some row)
             /\ NutritionCalculator.processIngredient getNutritionData hm ing
                = Ret p
             /\ zeroedNaN (scaleRow row (weight_g p)) n)
          /\ numeric n)
    /\ zeroedNaN
         {| calories := sumField calories (processedIngredients r);
            protein := sumField protein (processedIngredients r);
            carbs := sumField carbs (processedIngredients r);
            fat := sumField fat (processedIngredients r);
            fiber := sumField fiber (processedIngredients r) |}
         (totalNutrition r)
    /\ numeric (totalNutrition r)
    /\ (goodFactors hm = true ->
        (forall name row,
           getNutritionData name = Ret (Some row) -> goodRow row = true) ->
        (forall p n,
           In p (processedIngredients r) -> nutrition p = Some n ->
           amounts n)
        /\ amounts (totalNutrition r)).
Proof.
  destruct (calculateNutrition_ret getNutritionData hm turn l)
    as (r & ps & Hr & Hall & Hps & Htotal & _).
  assert (Hrec : forall p, In p (processedIngredients r) ->
                   exists ing,
                     In ing l
                     /\ NutritionCalculator.processIngredient getNutritionData
                          hm ing = Ret p).
  { intros p Hin. rewrite Hps in Hin.
    exact (completion_In getNutritionData hm turn l ps p Hall Hin). }
  rewrite aggregate_sums in Htotal. cbn [fst] in Htotal.
  exists r. split; [exact Hr|]. split; [|split; [|split]].
  - intros p n Hin Hn. destruct (Hrec p Hin) as (ing & Hing & Hproc).
    destruct (processIngredient_cases getNutritionData hm ing)
      as (p' & Hp' & _ & Hcases).
    rewrite Hproc in Hp'. injection Hp' as <-.
    destruct Hcases as [(e & _ & _ & Hnone)|(_ & _ & [Hnone|Hsome])].
    + congruence.
    + destruct Hnone as (s & _ & _ & Hnone & _). congruence.
    + destruct Hsome as (s & row & g & Hs & Hrow & _ & _ & Hw & Hnut).
      rewrite Hnut in Hn. injection Hn as <-. rewrite Hw. split.
      * exists ing, s, row. repeat (split; [assumption|]).
        apply validateNutrition_zeroedNaN.
      * apply validateNutrition_numeric.
  - rewrite Htotal. apply validateNutrition_zeroedNaN.
  - rewrite Htotal. apply validateNutrition_numeric.
  - intros Hfactors Hrows. split.
    + intros p n Hin Hn. destruct (Hrec p Hin) as (ing & _ & Hproc).
      exact (processed_amounts getNutritionData hm Hfactors Hrows ing p n
               Hproc Hn).
    + rewrite Htotal. unfold amounts.
      cbn [validateNutrition calories protein carbs fat fiber].
      assert (Hrec' : forall p, In p (processedIngredients r) ->
                        exists ing,
                          NutritionCalculator.processIngredient
                            getNutritionData hm ing = Ret p).
      { intros p Hin. destruct (Hrec p Hin) as (ing & _ & Hproc). eauto. }
      repeat split; apply nanToZero_keeps_amount;
        apply (sumField_amount getNutritionData hm Hfactors Hrows);
        auto; intros n (? & ? & ? & ? & ?); assumption.
Qed.

End Aggregation.

Lemma nan_nutrients_become_zero_witness :
  goodFactors Sample.table = true
  /\ (forall name row,
        Sample.getNutritionData name = Ret (Some row) -> goodRow row = true)
  /\ exists r,
       NutritionCalculator.calculateNutrition Sample.getNutritionData
         Sample.table Sample.sameTurn
         [Sample.item "onions" "2 medium"; Sample.item "cream" "-3 cup"]
       = Ret r
       /\ numeric (NutritionCalculator.totalNutrition r) /\ amounts (NutritionCalculator.totalNutrition r).
Proof.
  assert (Hrows : forall name row,
             Sample.getNutritionData name = Ret (Some row) ->
             goodRow row = true).
  { intros n row H. unfold Sample.getNutritionData in H. injection H as H.
    apply getNutritionData_in_db in H.
    assert (Hall : forallb goodRow Sample.db = true) by reflexivity.
    rewrite forallb_forall in Hall. now apply Hall. }
  split; [reflexivity|]. split; [exact Hrows|].
  destruct (nan_nutrients_become_zero Sample.getNutritionData Sample.table
              Sample.sameTurn
              [Sample.item "onions" "2 medium"; Sample.item "cream" "-3 cup"])
    as (r & Hr & _ & _ & Hnum & Hgood).
  exists r. split; [exact Hr|]. split; [exact Hnum|].
  exact (proj2 (Hgood eq_refl Hrows)).
Defined.

(* ===================================================================== *)
(** ** The totals *)
(* ===================================================================== *)

Section Totals.
Import IngredientMapper NutritionCalculator.
#[local] Open Scope list_scope.

Variable getNutritionData : string -> outcome (option NutritionRow).
Variable hm : HouseholdMeasurements.

Lemma calculateNutrition_of_mapAll turn l ps :
  mapAll (NutritionCalculator.processIngredient getNutritionData hm) l = Ret ps ->
  NutritionCalculator.calculateNutrition getNutritionData hm turn l
  = Ret {| totalNutrition :=
             validateNutrition
               (fst (aggregate (inOrderOfCompletion (moments turn 0 l) ps)));
           processedIngredients := inOrderOfCompletion (moments turn 0 l) ps;
           totalWeightInGrams :=
             snd (aggregate (inOrderOfCompletion (moments turn 0 l) ps)) |}.
Proof.
  intros H. unfold NutritionCalculator.calculateNutrition. rewrite H.
  cbn [bind]. cbv zeta.
  now destruct (aggregate (inOrderOfCompletion (moments turn 0 l) ps)).
Qed.

(** Whatever the tables hold, the returned totals are the sums over the
    returned records with a nutrition, a sum that is [NaN] being replaced
    by zero, and the returned weight is the sum of their weights. *)
Lemma calculateNutrition_totals turn l :
  exists r ps,
    NutritionCalculator.calculateNutrition getNutritionData hm turn l = Ret r
    /\ Forall2 (fun ing p =>
                  NutritionCalculator.processIngredient getNutritionData hm ing
                  = Ret p) l ps
    /\ processedIngredients r = inOrderOfCompletion (moments turn 0 l) ps
    /\ totalNutrition r
       = validateNutrition
           {| calories := sumField calories (processedIngredients r);
              protein := sumField protein (processedIngredients r);
              carbs := sumField carbs (processedIngredients r);
              fat := sumField fat (processedIngredients r);
              fiber := sumField fiber (processedIngredients r) |}
    /\ totalWeightInGrams r = sumWeights (processedIngredients r).
Proof.
  destruct (calculateNutrition_ret getNutritionData hm turn l)
    as (r & ps & Hr & Hall & Hps & Htotal & Hweight).
  exists r, ps. rewrite Htotal, Hweight, aggregate_sums. auto.
Qed.

(** *** Taking an ingredient away *)

Lemma moments_app turn l1 l2 : forall i,
  moments turn i (l1 ++ l2)
  = moments turn i l1 ++ moments turn (i + length l1) l2.
Proof.
  induction l1 as [|x l1 IH]; intros i; cbn [moments app length].
  - now rewrite Nat.add_0_r.
  - rewrite IH. now rewrite Nat.add_succ_r.
Qed.

Lemma moments_before n turn l : forall i,
  (i + length l <= n)%nat -> moments (skipTurn n turn) i l = moments turn i l.
Proof.
  induction l as [|x l IH]; intros i Hi; [reflexivity|].
  cbn [moments length] in *. rewrite IH by lia.
  unfold pushedAt, skipTurn.
  destruct (Nat.ltb_spec i n); [reflexivity|lia].
Qed.

Lemma moments_after n turn l : forall i,
  (n <= i)%nat -> moments (skipTurn n turn) i l = moments turn (S i) l.
Proof.
  induction l as [|x l IH]; intros i Hi; [reflexivity|].
  cbn [moments]. rewrite IH by lia.
  unfold pushedAt, skipTurn.
  destruct (Nat.ltb_spec i n); [lia|reflexivity].
Qed.

Lemma combine_app {A B} (l1 l2 : list A) (k1 k2 : list B) :
  length l1 = length k1 ->
  combine (l1 ++ l2) (k1 ++ k2) = combine l1 k1 ++ combine l2 k2.
Proof.
  revert k1. induction l1 as [|a l1 IH]; intros [|b k1]; cbn;
    try discriminate; [reflexivity|].
  intros H. f_equal. apply IH. lia.
Qed.

(** The records with a nutrition, in order of completion, are the same
    when the callback of a record without nutrition is taken away. *)
Lemma resolved_without turn l1 x l2 ps1 p ps2 :
  length l1 = length ps1 -> nutrition p = None ->
  resolved (inOrderOfCompletion (moments turn 0 (l1 ++ x :: l2))
              (ps1 ++ p :: ps2))
  = resolved (inOrderOfCompletion
                (moments (skipTurn (length l1) turn) 0 (l1 ++ l2))
                (ps1 ++ ps2)).
Proof.
  intros Hlen Hn. unfold resolved.
  rewrite !filter_inOrderOfCompletion. do 2 f_equal.
  rewrite !moments_app. cbn [moments Nat.add].
  rewrite moments_before by lia. rewrite moments_after by lia.
  rewrite !combine_app by (rewrite moments_length; exact Hlen).
  cbn [combine]. rewrite !List.filter_app. cbn [List.filter snd].
  unfold hasNutrition at 2. now rewrite Hn.
Qed.

Lemma unresolved_contributes_nothing turn l1 x l2 s :
  name x = JStr s ->
  getNutritionData (trim (toLowerCase s)) = Ret None ->
  exists r r',
    NutritionCalculator.calculateNutrition getNutritionData hm turn
      (l1 ++ x :: l2) = Ret r
    /\ NutritionCalculator.calculateNutrition getNutritionData hm
         (skipTurn (length l1) turn) (l1 ++ l2) = Ret r'
    /\ totalNutrition r = totalNutrition r'
    /\ totalWeightInGrams r = totalWeightInGrams r'.
Proof.
  intros Hname Hnone.
  set (cb := NutritionCalculator.processIngredient getNutritionData hm).
  destruct (mapAll_ret cb l1 (processIngredient_ret getNutritionData hm))
    as (ps1 & H1 & Hall1).
  destruct (mapAll_ret cb l2 (processIngredient_ret getNutritionData hm))
    as (ps2 & H2 & _).
  destruct (processIngredient_cases getNutritionData hm x)
    as (p & Hp & _ & Hcases).
  assert (Hn : nutrition p = None).
  { destruct Hcases as [(e & _ & _ & Hn)|(_ & _ & [Hn|Hsome])].
    - exact Hn.
    - now destruct Hn as (s' & _ & _ & Hn & _).
    - destruct Hsome as (s' & row & g & Hs' & Hrow & _).
      rewrite Hname in Hs'. injection Hs' as <-. congruence. }
  assert (Hx : mapAll cb (x :: l2) = Ret (p :: ps2)).
  { cbn [mapAll]. unfold cb at 1. rewrite Hp. cbn [bind]. now rewrite H2. }
  do 2 eexists.
  rewrite (calculateNutrition_of_mapAll _ _ _ (mapAll_app cb _ _ _ _ H1 Hx)).
  rewrite (calculateNutrition_of_mapAll _ _ _ (mapAll_app cb _ _ _ _ H1 H2)).
  split; [reflexivity|]. split; [reflexivity|].
  cbn [totalNutrition totalWeightInGrams].
  rewrite !aggregate_sums. unfold sumField, sumWeights.
  now rewrite (resolved_without turn l1 x l2 ps1 p ps2
                 (Forall2_length _ _ _ Hall1) Hn).
Qed.

(** C5, as stated, fails where a sum is [NaN]: the total is then zero.
    With a table cell of -5 calories and two ingredients of infinite
    weight, the calories of the two records are [Infinity] and
    [-Infinity], their sum is [NaN] and the total that is returned is 0. *)
Lemma nan_sum_is_reported_as_zero :
  exists r,
    NutritionCalculator.calculateNutrition Sample.getCorrupt Sample.table
      Sample.sameTurn
      [Sample.item "cream" "1/0 cup"; Sample.item "ash" "1/0 cup"] = Ret r
    /\ map (fieldOf calories) (resolved (processedIngredients r))
       = [Infinity; neg Infinity]
    /\ sumField calories (processedIngredients r) = NaN
    /\ calories (totalNutrition r) = zero.
Proof. eexists. split; [vm_compute; reflexivity|]. vm_compute. auto. Qed.

(** C5 (amended). For every ingredient list and every order of completion,
    the records that are returned are the records of the ingredients, and
    each of the five nutrient totals is the sum of that nutrient, added in
    the order of the returned records, over exactly the records whose
    [nutrition] is not [null], except that a sum that is [NaN] is returned
    as zero; the total weight is the sum of the weights of those records.
    An ingredient whose name is not resolved adds nothing: the totals are
    those of the list without it, the other callbacks finishing in the
    same order. *)
Theorem totals_sum_resolved_ingredients turn :
  (forall l,
     exists r ps,
       NutritionCalculator.calculateNutrition getNutritionData hm turn l
       = Ret r
       /\ Forall2 (fun ing p =>
                     NutritionCalculator.processIngredient getNutritionData hm
                       ing = Ret p) l ps
       /\ Permutation ps (processedIngredients r)
       /\ zeroForNaN (sumField calories (processedIngredients r))
            (calories (totalNutrition r))
       /\ zeroForNaN (sumField protein (processedIngredients r))
            (protein (totalNutrition r))
       /\ zeroForNaN (sumField carbs (processedIngredients r))
            (carbs (totalNutrition r))
       /\ zeroForNaN (sumField fat (processedIngredients r))
            (fat (totalNutrition r))
       /\ zeroForNaN (sumField fiber (processedIngredients r))
            (fiber (totalNutrition r))
       /\ totalWeightInGrams r = sumWeights (processedIngredients r))
  /\ (forall l1 x l2 s,
        name x = JStr s ->
        getNutritionData (trim (toLowerCase s)) = Ret None ->
        exists r r',
          NutritionCalculator.calculateNutrition getNutritionData hm turn
            (l1 ++ x :: l2) = Ret r
          /\ NutritionCalculator.calculateNutrition getNutritionData hm
               (skipTurn (length l1) turn) (l1 ++ l2) = Ret r'
          /\ totalNutrition r = totalNutrition r'
          /\ totalWeightInGrams r = totalWeightInGrams r').
Proof.
  split; [|apply unresolved_contributes_nothing].
  intros l.
  destruct (calculateNutrition_totals turn l)
    as (r & ps & Hr & Hall & Hps & Htotal & Hweight).
  exists r, ps. split; [exact Hr|]. split; [exact Hall|]. split.
  { rewrite Hps. symmetry.
    exact (completion_Permutation getNutritionData hm turn l ps Hall). }
  rewrite Htotal. cbn [validateNutrition calories protein carbs fat fiber].
  unfold zeroForNaN, nanToZero.
  repeat split; try exact Hweight; now intros ->.
Qed.

End Totals.

(* ===================================================================== *)
(** ** Per-serving values *)
(* ===================================================================== *)

Section PerServing.
Import IngredientMapper NutritionCalculator ErrorHandler.
#[local] Open Scope list_scope.

(** What [validateNutritionValues] does to a nutrition object: calories
    above 1000 become 1000, protein above 100 becomes 100, carbs above 200
    become 200, fat above 100 becomes 100, and a negative fibre becomes 0. *)
Lemma validateNutritionValues_clamps n :
  (Num.gt (calories n) (ofZ 1000) = true ->
   calories (validateNutritionValues n) = ofZ 1000)
  /\ (Num.gt (protein n) (ofZ 100) = true ->
      protein (validateNutritionValues n) = ofZ 100)
  /\ (Num.gt (carbs n) (ofZ 200) = true ->
      carbs (validateNutritionValues n) = ofZ 200)
  /\ (Num.gt (fat n) (ofZ 100) = true ->
      fat (validateNutritionValues n) = ofZ 100)
  /\ (Num.lt (fiber n) zero = true -> fiber (validateNutritionValues n) = zero).
Proof.
  unfold validateNutritionValues.
  repeat split; intros H;
    repeat match goal with
           | |- context [if ?b then _ else _] => destruct b eqn:?
           end;
    cbn [calories protein carbs fat fiber negToZero] in *;
    try congruence; try reflexivity;
    unfold negToZero; rewrite ?H; reflexivity.
Qed.

(** C1 fails on the code. [calculatePerServing] returns what it has scaled
    and rounded, whatever the size: totals of 3000 calories, 300 g of
    protein, 600 g of carbs and 300 g of fat for a dish of 150 g are
    returned as they are, where the claim caps them at 1000, 100, 200 and
    100, and a negative total of -50 g of fibre is returned as -50, where
    the claim reports 0. The clamp of the claim is
    [validateNutritionValues], which [calculatePerServing] does not call. *)
Theorem perServing_values_are_not_clamped :
  calculatePerServing Sample.table
    {| calories := ofZ 3000; protein := ofZ 300; carbs := ofZ 600;
       fat := ofZ 300; fiber := ofZ (-50) |} (ofZ 150) "Curry"
  = {| serving_size_g := ofZ 150; s_calories := ofZ 3000;
       s_protein := ofZ 300; s_carbs := ofZ 600; s_fat := ofZ 300;
       s_fiber := ofZ (-50) |}
  /\ validateNutritionValues
       {| calories := ofZ 3000; protein := ofZ 300; carbs := ofZ 600;
          fat := ofZ 300; fiber := ofZ (-50) |}
     = {| calories := ofZ 1000; protein := ofZ 100; carbs := ofZ 200;
          fat := ofZ 100; fiber := zero |}.
Proof. split; vm_compute; reflexivity. Qed.

(** C4, as stated, fails: for a total weight of 0.5 g the code divides by
    0.5, not by 1, so the ratio for a serving of 150 g is 300 and not 150. *)
Lemma servingRatio_below_one_gram :
  servingRatio (ofZ 150) (literal 5 1) = ofZ 300
  /\ specRatio (ofZ 150) (literal 5 1) = ofZ 150.
Proof. split; vm_compute; reflexivity. Qed.

(** C4 (amended). The per-serving scaling ratio is the target serving size
    divided by the total weight whenever the total weight is a number other
    than zero, and divided by 1 when the total weight is zero (or [NaN]).
    It equals the target divided by [max(total weight, 1)] for every total
    weight of at least 1 and for a total weight of zero; for a total weight
    strictly between 0 and 1 the divisor is the weight itself. *)
Theorem servingRatio_guards_zero_only target w :
  (truthy w = true -> servingRatio target w = (target / w)%num)
  /\ (truthy w = false -> servingRatio target w = (target / ofZ 1)%num)
  /\ (Num.le (ofZ 1) w = true -> servingRatio target w = specRatio target w)
  /\ (w = zero -> servingRatio target w = specRatio target w)
  /\ (Num.lt zero w = true -> Num.lt w (ofZ 1) = true ->
      servingRatio target w = (target / w)%num).
Proof.
  unfold servingRatio, specRatio, Num.or.
  split; [now intros ->|]. split; [now intros ->|]. split; [|split].
  - intros H. rewrite (le_one_truthy w H).
    pose proof (le_not_gt _ _ H) as Hlt.
    unfold Num.max. destruct w as [s|s| |s m e]; try discriminate;
      now rewrite Hlt.
  - now intros ->.
  - intros H _. now rewrite (between_truthy w H).
Qed.

Lemma servingRatio_guards_zero_only_witness :
  truthy (ofZ 240) = true
  /\ truthy zero = false
  /\ Num.le (ofZ 1) (ofZ 240) = true
  /\ Num.lt zero (literal 5 1) = true
  /\ Num.lt (literal 5 1) (ofZ 1) = true
  /\ servingRatio (ofZ 180) (ofZ 240) = (ofZ 180 / ofZ 240)%num
  /\ servingRatio (ofZ 180) zero = (ofZ 180 / ofZ 1)%num
  /\ servingRatio (ofZ 180) (ofZ 240) = specRatio (ofZ 180) (ofZ 240)
  /\ servingRatio (ofZ 180) zero = specRatio (ofZ 180) zero
  /\ servingRatio (ofZ 180) (literal 5 1) = (ofZ 180 / literal 5 1)%num.
Proof.
  do 5 (split; [reflexivity|]).
  destruct (servingRatio_guards_zero_only (ofZ 180) (ofZ 240))
    as (H1 & _ & H3 & _).
  destruct (servingRatio_guards_zero_only (ofZ 180) zero)
    as (_ & H2 & _ & H4 & _).
  destruct (servingRatio_guards_zero_only (ofZ 180) (literal 5 1))
    as (_ & _ & _ & _ & H5).
  split; [exact (H1 eq_refl)|]. split; [exact (H2 eq_refl)|].
  split; [exact (H3 eq_refl)|]. split; [exact (H4 eq_refl)|].
  exact (H5 eq_refl eq_refl).
Defined.

End PerServing.

(* ===================================================================== *)
(** ** Resolution of canonical names *)
(* ===================================================================== *)

Section Resolution.
Import IngredientMapper.

(** C8, as stated, fails: normalisation removes the modifier ["fresh"], so
    the canonical name ["fresh cream"] of the table is resolved to the entry
    ["cream"]. *)
Lemma modifier_in_canonical_name :
  found Sample.db "fresh cream" = true
  /\ standardizeIngredientName Sample.db Sample.synonyms None "fresh cream"
     = Some "cream".
Proof. split; vm_compute; reflexivity. Qed.

(** C8 (amended). Every canonical name of the table that is not empty and
    consists of lower-case letters, digits and underscores only (the form in
    which the table preparation script writes names) is resolved to itself,
    whatever the synonym table and the external matcher are: normalisation
    leaves such a name unchanged and the first lookup finds it. *)
Theorem canonical_names_resolve_to_themselves
    nutritionDB ingredientSynonyms aiModel canonicalName :
  canonicalName <> "" ->
  allChars isNameChar canonicalName = true ->
  (exists row, In row nutritionDB /\ ingredient row = canonicalName) ->
  preprocessIngredientName canonicalName = canonicalName
  /\ standardizeIngredientName nutritionDB ingredientSynonyms aiModel
       canonicalName = Some canonicalName.
Proof.
  intros Hne Hname Hin. split.
  - now apply preprocess_name.
  - now apply standardize_name.
Qed.

Lemma canonical_names_resolve_to_themselves_witness :
  "turmeric_powder" <> ""
  /\ allChars isNameChar "turmeric_powder" = true
  /\ (exists row, In row Sample.db /\ ingredient row = "turmeric_powder")
  /\ preprocessIngredientName "turmeric_powder" = "turmeric_powder"
  /\ standardizeIngredientName Sample.db Sample.synonyms None "turmeric_powder"
     = Some "turmeric_powder".
Proof.
  assert (Hne : "turmeric_powder" <> "") by discriminate.
  assert (Hin : exists row,
             In row Sample.db /\ ingredient row = "turmeric_powder").
  { exists (Sample.row "turmeric_powder" "312"). split; [|reflexivity].
    simpl. auto. }
  split; [exact Hne|]. split; [reflexivity|]. split; [exact Hin|].
  exact (canonical_names_resolve_to_themselves Sample.db Sample.synonyms None
           "turmeric_powder" Hne eq_refl Hin).
Defined.

End Resolution.
(* ===================================================================== *)
(** ** The rules of the quantity parser *)
(* ===================================================================== *)

Section ParserRules.
Import QuantityStandardizer IngredientMapper NutritionCalculator.

Variable getNutritionData : string -> outcome (option NutritionRow).
Variable hm : HouseholdMeasurements.

(** X1. A phrase without any digit is read in one of two ways. When it
    mentions ["to taste"], ["as needed"] or ["as required"], in any letter
    case, it is half a teaspoon; otherwise it is the default
    [{value: 0, unit: null}]. No earlier rule applies, since each of them
    needs a digit. *)
Theorem phrase_without_digits q :
  allChars notDigit q = true ->
  parseQuantity (JStr q)
  = Ret (if qualitative q
         then {| value := literal 5 1; unit := Some "teaspoon" |}
         else unparseable).
Proof. exact (parseQuantity_no_digit q). Qed.

Lemma phrase_without_digits_witness :
  allChars notDigit "Salt, to taste" = true
  /\ parseQuantity (JStr "Salt, to taste")
     = Ret (if qualitative "Salt, to taste"
            then {| value := literal 5 1; unit := Some "teaspoon" |}
            else unparseable).
Proof.
  split; [reflexivity|].
  apply (phrase_without_digits "Salt, to taste"). reflexivity.
Defined.

(** X2. A quantity that is not parsed counts for nothing. When the quantity
    of an ingredient is missing, is not a string, or is a phrase without
    digits that is not a qualitative one, and the name of the ingredient
    resolves to a row of the table, the ingredient weighs 0 g, all of its
    nutrients are 0 and no error is recorded. The conversion factors are
    taken to be finite and not negative, and so are the cells of the
    row. *)
Theorem unparsed_quantity_counts_for_nothing ing s row :
  goodFactors hm = true ->
  name ing = JStr s ->
  getNutritionData (trim (toLowerCase s)) = Ret (Some row) ->
  goodRow row = true ->
  unparsed (orVal (standardQuantity ing) (quantity ing)) = true ->
  standardizeToGrams hm (orVal (standardQuantity ing) (quantity ing))
    (JStr (ingredient row)) = Ret zero
  /\ NutritionCalculator.processIngredient getNutritionData hm ing
     = Ret {| p_ingredient := JStr s; mappedName := Some (ingredient row);
              p_quantity := orVal (standardQuantity ing) (quantity ing);
              weight_g := zero; nutrition := Some noNutrition;
              error := None |}.
Proof.
  intros Hgood Hname Hrow Hcells Hq.
  pose proof (standardizeToGrams_unparsed hm _ (ingredient row) Hgood Hq) as Hg.
  split; [exact Hg|].
  unfold NutritionCalculator.processIngredient, tryCatchBody, tryBody.
  rewrite Hname. cbn [toLowerCaseOf]. rewrite Hrow, Hg.
  cbn [bind l_mappedName l_quantityInGrams l_ingredientNutrition l_errorMsg
       initialLocals].
  now rewrite (scaleRow_zero row Hcells).
Qed.

(** X3. Whatever the argument of [parseQuantity] is, the unit of the result
    is [null] or a non-empty word of lower-case letters [a] to [z]. *)
Theorem parsed_unit_is_a_lower_case_word quantityStr :
  exists pq,
    parseQuantity quantityStr = Ret pq
    /\ match unit pq with
       | Some u => unitWord u = true
       | None => True
       end.
Proof.
  destruct (parseQuantity_ok quantityStr) as (pq & Hpq & _).
  exists pq. split; [exact Hpq|]. exact (parseQuantity_unitOK _ _ Hpq).
Qed.

(** X4. The rule for grams takes every phrase that begins with a decimal
    numeral, white space (possibly none) and the letter ["g"], whatever
    follows the letter, unless the phrase mentions ["glass"]: the numeral
    is then the weight in grams. *)
Theorem number_before_g i f sp rest name :
  isNumeral i f = true -> allChars isSpace sp = true ->
  includes "glass" (String "g" rest) = false ->
  parseQuantity (JStr (numeralText i f ++ sp ++ String "g" rest))
  = Ret {| value := numeralValue i f; unit := Some "g" |}
  /\ standardizeToGrams hm (JStr (numeralText i f ++ sp ++ String "g" rest)) name
     = Ret (numeralValue i f).
Proof.
  intros Hn Hsp Hglass.
  assert (Hq : parseQuantity (JStr (numeralText i f ++ sp ++ String "g" rest))
               = Ret {| value := numeralValue i f; unit := Some "g" |}).
  { unfold parseQuantity. rewrite (numeral_nonempty i f _ Hn). cbn [firstOf].
    unfold gramsRule.
    assert (Hnog : allChars (isNot "g") (numeralText i f ++ sp) = true).
    { rewrite allChars_app.
      rewrite (numeral_chars _ i f isDigit_not_g eq_refl Hn).
      exact (allChars_impl _ _ sp isSpace_not_g Hsp). }
    rewrite <- app_assoc.
    rewrite (includes_skip "g" "lass" _ _ Hnog), Hglass.
    rewrite (includes_skip "g" "" _ _ Hnog).
    cbn [includes String.prefix]. rewrite app_assoc.
    destruct (exec_reGrams_word i f sp rest Hn Hsp) as (cs & -> & H1).
    destruct (ascii_dec "g" "g"); [|congruence].
    replace (String.prefix "" rest) with true by (now destruct rest).
    cbn [orb andb negb].
    unfold groupOf. rewrite H1. cbn [defined bind].
    now rewrite (parseFloat_numeral i f Hn). }
  split; [exact Hq|].
  unfold standardizeToGrams. rewrite Hq. cbn [bind].
  apply convertToGrams_direct. now left.
Qed.

(** X5. A decimal numeral, white space (possibly none) and ["ml"] is that
    many millilitres, and weighs that many grams whatever the ingredient
    and the conversion table are. *)
Theorem millilitres_phrase i f sp name :
  isNumeral i f = true -> allChars isSpace sp = true ->
  parseQuantity (JStr (numeralText i f ++ sp ++ "ml"))
  = Ret {| value := numeralValue i f; unit := Some "ml" |}
  /\ standardizeToGrams hm (JStr (numeralText i f ++ sp ++ "ml")) name
     = Ret (numeralValue i f).
Proof.
  intros Hn Hsp.
  assert (Hq : parseQuantity (JStr (numeralText i f ++ sp ++ "ml"))
               = Ret {| value := numeralValue i f; unit := Some "ml" |}).
  { pose proof (numeral_space_not_alpha i f sp Hn Hsp) as Hnp.
    pose proof (gramsRule_skipped _ "ml" Hnp eq_refl eq_refl) as Hg.
    pose proof (poundsRule_skipped _ "ml" Hnp eq_refl eq_refl eq_refl) as Hp.
    rewrite app_assoc in Hg, Hp.
    unfold parseQuantity. rewrite (numeral_nonempty i f _ Hn). cbn [firstOf].
    rewrite Hg, Hp. cbn [bind]. unfold mlRule.
    rewrite <- app_assoc, includes_suffix, app_assoc.
    destruct (exec_reMl i f sp Hn Hsp) as (cs & -> & H1).
    unfold groupOf. rewrite H1. cbn [defined bind].
    now rewrite (parseFloat_numeral i f Hn). }
  split; [exact Hq|].
  unfold standardizeToGrams. rewrite Hq. cbn [bind].
  apply convertToGrams_direct. now right.
Qed.

(** X6. A decimal numeral, white space (possibly none) and one of ["lb"],
    ["lbs"], ["pound"], ["pounds"] is converted by the parser itself: the
    value is the numeral times 453.592 and the unit is ["g"], so that the
    weight in grams is that product whatever the ingredient is. *)
Theorem pounds_phrase i f sp w name :
  isNumeral i f = true -> allChars isSpace sp = true ->
  In w ["lb"; "lbs"; "pound"; "pounds"] ->
  parseQuantity (JStr (numeralText i f ++ sp ++ w))
  = Ret {| value := (numeralValue i f * literal 453592 3)%num;
           unit := Some "g" |}
  /\ standardizeToGrams hm (JStr (numeralText i f ++ sp ++ w)) name
     = Ret (numeralValue i f * literal 453592 3)%num.
Proof.
  intros Hn Hsp Hw.
  assert (Hq : parseQuantity (JStr (numeralText i f ++ sp ++ w))
               = Ret {| value := (numeralValue i f * literal 453592 3)%num;
                        unit := Some "g" |}).
  { pose proof (numeral_space_not_alpha i f sp Hn Hsp) as Hnp.
    assert (Hg : gramsRule ((numeralText i f ++ sp) ++ w) = Ret None).
    { apply gramsRule_skipped; [exact Hnp | |];
        destruct Hw as [<-|[<-|[<-|[<-|[]]]]]; reflexivity. }
    rewrite app_assoc in Hg.
    unfold parseQuantity. rewrite (numeral_nonempty i f _ Hn). cbn [firstOf].
    rewrite Hg. cbn [bind]. unfold poundsRule.
    assert (Hinc : includes "pound" (numeralText i f ++ sp ++ w)
                   || includes "lb" (numeralText i f ++ sp ++ w) = true).
    { rewrite <- app_assoc. apply orb_true_iff.
      destruct Hw as [<-|[<-|[<-|[<-|[]]]]].
      - right. apply includes_suffix.
      - right. apply (includes_app "lb" _ "s").
      - left. apply includes_suffix.
      - left. apply (includes_app "pound" _ "s"). }
    rewrite Hinc.
    destruct (exec_rePounds i f sp w Hn Hsp Hw) as (cs & -> & H1).
    unfold groupOf. rewrite H1. cbn [defined bind].
    now rewrite (parseFloat_numeral i f Hn). }
  split; [exact Hq|].
  unfold standardizeToGrams. rewrite Hq. cbn [bind].
  apply convertToGrams_direct. now left.
Qed.

(** X7. A decimal numeral, white space and a word of letters that is a
    plain unit is read as that number of that unit, the unit in lower
    case. *)
Theorem number_and_unit i f sp u :
  isNumeral i f = true -> sp <> "" -> allChars isSpace sp = true ->
  plainUnit u = true ->
  parseQuantity (JStr (numeralText i f ++ sp ++ u))
  = Ret {| value := numeralValue i f; unit := Some (toLowerCase u) |}.
Proof.
  intros Hn Hsp0 Hsp Hu.
  destruct (plainUnit_inv u Hu) as (y & u' & _ & _ & _ & Ha & _).
  pose proof (numeral_space_not_alpha i f sp Hn Hsp) as Hnp.
  destruct (unit_rules_skipped _ u Hnp Hu) as (Hg & Hp & Hm).
  rewrite app_assoc in Hg, Hp, Hm.
  unfold parseQuantity. rewrite (numeral_nonempty i f _ Hn). cbn [firstOf].
  rewrite Hg, Hp, Hm. cbn [bind].
  rewrite rangeRule_skipped, fractionRule_skipped.
  - cbn [bind]. now rewrite generalRule_unit.
  - rewrite !allChars_app.
    rewrite (numeral_chars _ i f isDigit_not_fslash eq_refl Hn).
    rewrite (allChars_impl _ _ sp isSpace_not_fslash Hsp).
    now rewrite (allChars_impl _ _ u isAlpha_not_fslash Ha).
  - rewrite !allChars_app.
    rewrite (numeral_chars _ i f isDigit_not_hyphen eq_refl Hn).
    rewrite (allChars_impl _ _ sp isSpace_not_hyphen Hsp).
    now rewrite (allChars_impl _ _ u isAlpha_not_hyphen Ha).
Qed.

(** X8. Two decimal numerals joined by a hyphen, then white space
    (possibly none) and a plain unit, that is a word of letters that does
    not begin with ["g"] (unless it mentions ["glass"]), ["lb"], ["pound"]
    or ["ml"]: the value is the mean of the two numbers, computed as
    [(a + b) / 2], and the unit is the word in lower case. A unit with
    such a beginning is taken by the rule for grams, pounds or
    millilitres, which comes first. *)
Theorem range_phrase i1 f1 i2 f2 sp u :
  isNumeral i1 f1 = true -> isNumeral i2 f2 = true ->
  allChars isSpace sp = true -> plainUnit u = true ->
  parseQuantity (JStr (numeralText i1 f1 ++ "-" ++ numeralText i2 f2 ++ sp ++ u))
  = Ret {| value := ((numeralValue i1 f1 + numeralValue i2 f2) / ofZ 2)%num;
           unit := Some (toLowerCase u) |}.
Proof.
  intros Hn1 Hn2 Hsp Hu.
  destruct (plainUnit_inv u Hu) as (y & u' & Eu & Hy & Hu' & Ha & _).
  set (n1 := numeralText i1 f1). set (n2 := numeralText i2 f2).
  assert (Hnp : allChars notAlpha (n1 ++ "-" ++ n2 ++ sp) = true).
  { rewrite !allChars_app. subst n1 n2.
    rewrite !numeral_not_alpha by assumption.
    now rewrite (allChars_impl _ _ sp isSpace_not_alpha Hsp). }
  destruct (unit_rules_skipped _ u Hnp Hu) as (Hg & Hp & Hm).
  rewrite !app_assoc in Hg, Hp, Hm.
  unfold parseQuantity. rewrite (numeral_nonempty i1 f1 _ Hn1). cbn [firstOf].
  fold n1 n2. rewrite Hg, Hp, Hm. cbn [bind].
  unfold rangeRule.
  assert (Hinc : includes "-" (n1 ++ "-" ++ n2 ++ sp ++ u) = true)
    by apply includes_app.
  rewrite Hinc.
  change (n1 ++ "-" ++ n2 ++ sp ++ u) with (n1 ++ String "-" (n2 ++ sp ++ u)).
  rewrite split_first.
  2:{ subst n1. now apply numeral_chars; [exact isDigit_not_hyphen | reflexivity|]. }
  2:{ rewrite !allChars_app. subst n2.
      rewrite (numeral_chars _ i2 f2 isDigit_not_hyphen eq_refl Hn2).
      rewrite (allChars_impl _ _ sp isSpace_not_hyphen Hsp).
      now rewrite (allChars_impl _ _ u isAlpha_not_hyphen Ha). }
  cbn [head defined bind].
  assert (Hhead : headFails (fun c => isDigit c || Ascii.eqb c ".") (sp ++ u) = true).
  { destruct sp as [|c sp].
    - rewrite Eu. cbn [String.append headFails].
      now rewrite (isAlpha_not_digit_point y Hy).
    - simpl in Hsp. apply andb_true_iff in Hsp as [Hc _].
      cbn [String.append headFails]. now rewrite (isSpace_not_digit_point c Hc). }
  subst n2.
  destruct (exec_reNumber i2 f2 (sp ++ u) Hn2 Hhead) as (cs & -> & H1).
  unfold groupOf at 1. rewrite H1. cbn [defined bind].
  rewrite <- app_assoc, Eu.
  rewrite (exec_reLetters _ y u' (numeral_space_not_alpha i2 f2 sp Hn2 Hsp) Hy Hu').
  cbn [unitOf groupOf group Nat.eqb defined bind].
  rewrite <- Eu, (trim_alpha u Ha). subst n1.
  now rewrite (trim_numeral i1 f1 Hn1), !parseFloat_numeral.
Qed.

(** X9. A fraction [a/b] of two runs of digits, with optional white space
    around the stroke, then white space and a plain unit, that is a word of
    letters that does not begin with ["g"] (unless it mentions ["glass"]),
    ["lb"], ["pound"] or ["ml"]: the value is the quotient of the two
    integers and the unit is the word in lower case. A unit with such a
    beginning is taken by the rule for grams, pounds or millilitres, which
    comes first. *)
Theorem fraction_phrase a sp1 sp2 b sp3 u :
  isDigits a = true -> isDigits b = true ->
  allChars isSpace sp1 = true -> allChars isSpace sp2 = true ->
  sp3 <> "" -> allChars isSpace sp3 = true -> plainUnit u = true ->
  parseQuantity (JStr (a ++ sp1 ++ "/" ++ sp2 ++ b ++ sp3 ++ u))
  = Ret {| value := (ofZ (digitsValue 0 a) / ofZ (digitsValue 0 b))%num;
           unit := Some (toLowerCase u) |}.
Proof.
  intros Ha Hb Hsp1 Hsp2 Hsp30 Hsp3 Hu.
  destruct (plainUnit_inv u Hu) as (l & u' & Eu & Hl & Hu' & Hal & _).
  unfold isDigits in Ha, Hb.
  apply andb_true_iff in Ha as [Ha0 Ha]. apply andb_true_iff in Hb as [Hb0 Hb].
  destruct a as [|x a]; [discriminate|]. destruct b as [|y b]; [discriminate|].
  destruct sp3 as [|z sp3]; [congruence|].
  assert (Hnp : allChars notAlpha
                  (String x a ++ sp1 ++ "/" ++ sp2 ++ String y b ++ String z sp3)
                = true).
  { rewrite !allChars_app.
    rewrite (allChars_impl _ _ _ isDigit_not_alpha Ha).
    rewrite (allChars_impl _ _ _ isDigit_not_alpha Hb).
    rewrite (allChars_impl _ _ _ isSpace_not_alpha Hsp1).
    rewrite (allChars_impl _ _ _ isSpace_not_alpha Hsp2).
    now rewrite (allChars_impl _ _ _ isSpace_not_alpha Hsp3). }
  destruct (unit_rules_skipped _ u Hnp Hu) as (Hg & Hp & Hm).
  rewrite !app_assoc in Hg, Hp, Hm.
  unfold parseQuantity.
  change (String.eqb (String x a ++ sp1 ++ "/" ++ sp2 ++ String y b
                      ++ String z sp3 ++ u) "") with false.
  cbn [firstOf]. rewrite Hg, Hp, Hm. cbn [bind].
  rewrite rangeRule_skipped.
  2:{ rewrite !allChars_app.
      rewrite (allChars_impl _ _ _ isDigit_not_hyphen Ha).
      rewrite (allChars_impl _ _ _ isDigit_not_hyphen Hb).
      rewrite (allChars_impl _ _ _ isSpace_not_hyphen Hsp1).
      rewrite (allChars_impl _ _ _ isSpace_not_hyphen Hsp2).
      rewrite (allChars_impl _ _ _ isSpace_not_hyphen Hsp3).
      now rewrite (allChars_impl _ _ _ isAlpha_not_hyphen Hal). }
  cbn [bind]. unfold fractionRule.
  assert (Hinc : includes "/" (String x a ++ sp1 ++ "/" ++ sp2 ++ String y b
                               ++ String z sp3 ++ u) = true).
  { rewrite <- (app_assoc (String x a) sp1). apply includes_app. }
  rewrite Hinc.
  assert (Hrest : headFails isDigit (String z sp3 ++ u) = true).
  { simpl in Hsp3. apply andb_true_iff in Hsp3 as [Hz _].
    cbn [String.append headFails]. now rewrite (isSpace_not_digit z Hz). }
  destruct (exec_reFraction x a sp1 sp2 y b _ Ha Hsp1 Hsp2 Hb Hrest)
    as (cs & -> & H1 & H2).
  unfold groupOf at 1 2. rewrite H1, H2. cbn [defined bind].
  rewrite Eu.
  pose proof Ha as Ha'. simpl in Ha'. apply andb_true_iff in Ha' as [_ Ha'].
  assert (Had : allChars isDigit (String x a) = true) by exact Ha.
  destruct (exec_reFractionUnit (String x a) sp1 sp2 y b z sp3 l u'
              Had Hsp1 Hsp2 Hb Hsp3) as (cs' & -> & H1').
  { rewrite <- Eu. exact Hal. }
  cbn [unitOf]. unfold groupOf. rewrite H1'. cbn [defined bind].
  rewrite <- Eu, (trim_alpha u Hal).
  now rewrite (parseInt_digits x a Ha), (parseInt_digits y b Hb).
Qed.



End ParserRules.

Section ParserRulesOnSamples.
Import QuantityStandardizer IngredientMapper NutritionCalculator.

Lemma unparsed_quantity_counts_for_nothing_witness :
  goodFactors Sample.table = true
  /\ name (Sample.item "Onion" "a few") = JStr "Onion"
  /\ Sample.getNutritionData (trim (toLowerCase "Onion"))
     = Ret (Some (Sample.row "onion" "40"))
  /\ goodRow (Sample.row "onion" "40") = true
  /\ unparsed (orVal (standardQuantity (Sample.item "Onion" "a few"))
                 (quantity (Sample.item "Onion" "a few"))) = true
  /\ NutritionCalculator.processIngredient Sample.getNutritionData Sample.table
       (Sample.item "Onion" "a few")
     = Ret {| p_ingredient := JStr "Onion"; mappedName := Some "onion";
              p_quantity := JStr "a few";
              weight_g := zero; nutrition := Some noNutrition;
              error := None |}.
Proof.
  split; [vm_compute; reflexivity|]. split; [reflexivity|].
  split; [vm_compute; reflexivity|]. split; [vm_compute; reflexivity|].
  split; [vm_compute; reflexivity|].
  apply (unparsed_quantity_counts_for_nothing Sample.getNutritionData
           Sample.table (Sample.item "Onion" "a few") "Onion"
           (Sample.row "onion" "40"));
    vm_compute; reflexivity.
Defined.

Lemma number_before_g_witness :
  isNumeral "2" None = true
  /\ allChars isSpace " " = true
  /\ includes "glass" "garlic cloves" = false
  /\ parseQuantity (JStr "2 garlic cloves")
     = Ret {| value := numeralValue "2" None; unit := Some "g" |}
  /\ standardizeToGrams Sample.table (JStr "2 garlic cloves") (JStr "garlic")
     = Ret (numeralValue "2" None).
Proof.
  split; [reflexivity|]. split; [reflexivity|]. split; [reflexivity|].
  apply (number_before_g Sample.table "2" None " " "arlic cloves" (JStr "garlic"));
    reflexivity.
Defined.

Lemma millilitres_phrase_witness :
  isNumeral "250" None = true
  /\ allChars isSpace " " = true
  /\ parseQuantity (JStr "250 ml")
     = Ret {| value := numeralValue "250" None; unit := Some "ml" |}
  /\ standardizeToGrams Sample.table (JStr "250 ml") (JStr "milk")
     = Ret (numeralValue "250" None).
Proof.
  split; [reflexivity|]. split; [reflexivity|].
  apply (millilitres_phrase Sample.table "250" None " " (JStr "milk"));
    reflexivity.
Defined.

Lemma pounds_phrase_witness :
  isNumeral "1" (Some "5") = true
  /\ allChars isSpace " " = true
  /\ In "lbs" ["lb"; "lbs"; "pound"; "pounds"]
  /\ parseQuantity (JStr "1.5 lbs")
     = Ret {| value := (numeralValue "1" (Some "5") * literal 453592 3)%num;
              unit := Some "g" |}
  /\ standardizeToGrams Sample.table (JStr "1.5 lbs") (JStr "chicken")
     = Ret (numeralValue "1" (Some "5") * literal 453592 3)%num.
Proof.
  split; [reflexivity|]. split; [reflexivity|].
  split; [right; left; reflexivity|].
  apply (pounds_phrase Sample.table "1" (Some "5") " " "lbs" (JStr "chicken"));
    [reflexivity | reflexivity | right; left; reflexivity].
Defined.

Lemma number_and_unit_witness :
  isNumeral "0" (Some "5") = true
  /\ " " <> ""
  /\ allChars isSpace " " = true
  /\ plainUnit "Teaspoon" = true
  /\ parseQuantity (JStr "0.5 Teaspoon")
     = Ret {| value := numeralValue "0" (Some "5");
              unit := Some (toLowerCase "Teaspoon") |}.
Proof.
  split; [reflexivity|]. split; [discriminate|]. split; [reflexivity|].
  split; [reflexivity|].
  apply (number_and_unit "0" (Some "5") " " "Teaspoon");
    [reflexivity | discriminate | reflexivity | reflexivity].
Defined.

Lemma range_phrase_witness :
  isNumeral "2" None = true
  /\ isNumeral "3" None = true
  /\ allChars isSpace " " = true
  /\ plainUnit "tablespoon" = true
  /\ parseQuantity (JStr "2-3 tablespoon")
     = Ret {| value := ((numeralValue "2" None + numeralValue "3" None)
                        / ofZ 2)%num;
              unit := Some (toLowerCase "tablespoon") |}.
Proof.
  do 4 (split; [reflexivity|]).
  apply (range_phrase "2" None "3" None " " "tablespoon"); reflexivity.
Defined.

Lemma fraction_phrase_witness :
  isDigits "1" = true
  /\ isDigits "2" = true
  /\ allChars isSpace "" = true
  /\ " " <> ""
  /\ allChars isSpace " " = true
  /\ plainUnit "cup" = true
  /\ parseQuantity (JStr "1/2 cup")
     = Ret {| value := (ofZ (digitsValue 0 "1") / ofZ (digitsValue 0 "2"))%num;
              unit := Some (toLowerCase "cup") |}.
Proof.
  do 3 (split; [reflexivity|]). split; [discriminate|].
  do 2 (split; [reflexivity|]).
  apply (fraction_phrase "1" "" "" "2" " " "cup");
    [reflexivity | reflexivity | reflexivity | reflexivity | discriminate
    | reflexivity | reflexivity].
Defined.

End ParserRulesOnSamples.
(* ===================================================================== *)
(** ** Name resolution *)
(* ===================================================================== *)

Section Resolution.
Import IngredientMapper.
Variable nutritionDB : list NutritionRow.
Variable ingredientSynonyms : gmap string string.
Variable aiModel : option (string -> list string -> outcome string).

(** X11. Resolution never leaves the table. Whatever the name, the synonym
    table and the answers of the text generator are, a name that
    [standardizeIngredientName] returns is not empty and is the name of a
    row of the table, and [getNutritionData] then returns the first row of
    that name; when no name is returned, [getNutritionData] returns
    [null]. The branch of [getNutritionData] for a mapped name that is not
    in the table is never taken. *)
Theorem resolution_stays_in_the_table ingredientName :
  match standardizeIngredientName nutritionDB ingredientSynonyms aiModel
          ingredientName with
  | Some standardName =>
      standardName <> ""
      /\ exists row,
           getNutritionData nutritionDB ingredientSynonyms aiModel ingredientName
           = Some row
           /\ findInNutritionDB nutritionDB standardName = Some row
           /\ In row nutritionDB /\ ingredient row = standardName
  | None =>
      getNutritionData nutritionDB ingredientSynonyms aiModel ingredientName
      = None
  end.
Proof.
  unfold getNutritionData.
  destruct (standardizeIngredientName _ _ _ _) as [s|] eqn:E; [|reflexivity].
  apply standardize_inTable in E as (Hs & row & Hin & Heq).
  split; [exact Hs|].
  destruct (name_is_found nutritionDB s row Hin Heq) as (row' & Hfind).
  exists row'. apply String.eqb_neq in Hs. rewrite Hs.
  destruct (find_name nutritionDB s row' Hfind). auto.
Qed.

(** X12. Preprocessing never erases a name: the cleaned name is empty
    exactly when the raw name, lower-cased and trimmed, is empty. When the
    cleaning removes every word, the lower-cased and trimmed raw name is
    returned in its place. *)
Theorem preprocessing_keeps_a_name rawName :
  preprocessIngredientName rawName = "" <-> trim (toLowerCase rawName) = "".
Proof. exact (preprocess_empty rawName). Qed.

(** X13. Preprocessing depends on the raw name only through its
    lower-cased, trimmed form: upper-case letters and white space around
    the name make no difference. *)
Theorem preprocessing_ignores_case_and_margins rawName :
  preprocessIngredientName rawName
  = preprocessIngredientName (trim (toLowerCase rawName)).
Proof.
  destruct (String.eqb rawName "") eqn:E.
  { apply String.eqb_eq in E. now subst. }
  apply String.eqb_neq in E.
  destruct (String.eqb (trim (toLowerCase rawName)) "") eqn:E0.
  - apply String.eqb_eq in E0. rewrite E0.
    now apply preprocess_empty.
  - apply String.eqb_neq in E0.
    rewrite (preprocess_steps rawName E), (preprocess_steps _ E0).
    now rewrite toLowerCase_trim, toLowerCase_idem, trim_idem.
Qed.

(** X14. The prompt of the text generator is bounded. For a table that is
    not empty, the candidate names that [getAiAssistedMatch] hands to the
    generator are at least one and at most a hundred, all of them names of
    the table; and the answer is accepted only if, trimmed, it is a name of
    the table other than ["None"]. *)
Theorem ai_prompt_is_bounded originalIngredientName :
  nutritionDB <> [] ->
  (1 <= length (candidateNames nutritionDB originalIngredientName) <= 100)%nat
  /\ (forall dbName,
        In dbName (candidateNames nutritionDB originalIngredientName) ->
        In dbName (dbIngredientNames nutritionDB))
  /\ forall generateText,
       originalIngredientName <> "" ->
       getAiAssistedMatch nutritionDB (Some generateText) originalIngredientName
       = match generateText originalIngredientName
                 (candidateNames nutritionDB originalIngredientName) with
         | Ret text =>
             if negb (String.eqb (trim text) "")
                && negb (String.eqb (trim text) "None")
                && existsb (String.eqb (trim text)) (dbIngredientNames nutritionDB)
             then Some (trim text)
             else None
         | Throw _ => None
         end.
Proof.
  intros Hdb.
  assert (Hlen : (1 <= length (dbIngredientNames nutritionDB))%nat).
  { unfold dbIngredientNames. rewrite length_map.
    destruct nutritionDB; [congruence | simpl; lia]. }
  split; [|split].
  - unfold candidateNames.
    destruct (_ || _) eqn:E.
    + rewrite length_firstn. lia.
    + apply orb_false_iff in E as [E1 E2].
      apply Nat.eqb_neq in E1. apply Nat.ltb_ge in E2. lia.
  - intros dbName. unfold candidateNames.
    destruct (_ || _).
    + apply firstn_In.
    + intros H. now apply filter_In in H as [H _].
  - intros generateText Hname. unfold getAiAssistedMatch.
    apply String.eqb_neq in Hname. rewrite Hname.
    replace (length (dbIngredientNames nutritionDB) =? 0)%nat with false
      by (symmetry; apply Nat.eqb_neq; lia).
    reflexivity.
Qed.

End Resolution.

Lemma ai_prompt_is_bounded_witness :
  Sample.db <> []
  /\ (1 <= length (IngredientMapper.candidateNames Sample.db "double cream")
      <= 100)%nat.
Proof.
  split; [discriminate|].
  apply (ai_prompt_is_bounded Sample.db "double cream"). discriminate.
Defined.

(* ===================================================================== *)
(** ** The table file *)
(* ===================================================================== *)

Section Script.
Import ProcessNutritionData.
#[local] Open Scope list_scope.

(** X15. The table that the script builds. Whatever the rows of the source
    file are, the names of the rows kept are distinct, none is empty, and
    each consists of lower-case letters, digits and underscores only. *)
Theorem processed_names_are_clean_and_distinct rows :
  NoDup (map ingredient (processRows rows))
  /\ forall row, In row (processRows rows) ->
       ingredient row <> "" /\ allChars isNameChar (ingredient row) = true.
Proof.
  destruct (processRows_invariant rows) as [H1 H2]. split; [exact H1|].
  now apply List.Forall_forall.
Qed.

Variable numberToString : num -> string.
Hypothesis Hnumbers : forall x, plainCell (numberToString x) = true.

(** X16. The table file is read back as it was written. For rows whose
    names hold no comma and no white space, the mapper's loader turns the
    content that the script writes into one object per row, in order, with
    the name of the row and the texts of its five numbers. The texts that
    JavaScript makes of numbers are taken to hold no comma and no white
    space. *)
Theorem table_is_read_back_as_written results :
  (forall row, In row results -> plainCell (ingredient row) = true) ->
  map IngredientMapper.rowOfObject
    (IngredientMapper.loadNutritionDBSync
       (Some (csvContent numberToString results)))
  = map (fun row => Some (writtenRow numberToString row)) results.
Proof.
  intros H. apply load_written; [exact Hnumbers|].
  now apply List.Forall_forall.
Qed.

(** X17. Every row of the generated table is found under its own name.
    When the mapper loads the file that the script has written from any
    source rows, each row of the table resolves to its own name, and
    [getNutritionData] returns that very row, whatever the synonym table
    and the text generator are. *)
Theorem generated_rows_resolve_to_themselves rows ingredientSynonyms aiModel :
  let nutritionDB := map (writtenRow numberToString) (processRows rows) in
  map IngredientMapper.rowOfObject
    (IngredientMapper.loadNutritionDBSync
       (Some (csvContent numberToString (processRows rows))))
  = map Some nutritionDB
  /\ forall row, In row nutritionDB ->
       IngredientMapper.standardizeIngredientName nutritionDB ingredientSynonyms
         aiModel (IngredientMapper.ingredient row)
       = Some (IngredientMapper.ingredient row)
       /\ IngredientMapper.getNutritionData nutritionDB ingredientSynonyms
            aiModel (IngredientMapper.ingredient row)
          = Some row.
Proof.
  intros nutritionDB.
  destruct (processRows_invariant rows) as [Hnodup Hall].
  rewrite List.Forall_forall in Hall.
  split.
  { unfold nutritionDB. rewrite map_map. apply load_written; [exact Hnumbers|].
    apply List.Forall_forall. intros row Hrow. apply name_plain.
    now apply Hall. }
  intros row Hrow.
  assert (Hrow' := Hrow). unfold nutritionDB in Hrow'.
  apply in_map_iff in Hrow' as (r & <- & Hr).
  destruct (Hall r Hr) as [Hne Hchars].
  assert (Hstd : IngredientMapper.standardizeIngredientName nutritionDB
                   ingredientSynonyms aiModel (ingredient r)
                 = Some (ingredient r)).
  { apply standardize_name; [exact Hchars | exact Hne |].
    exists (writtenRow numberToString r). auto. }
  split; [exact Hstd|].
  unfold IngredientMapper.getNutritionData.
  cbn [writtenRow IngredientMapper.ingredient]. rewrite Hstd.
  apply String.eqb_neq in Hne. rewrite Hne.
  destruct (name_is_found nutritionDB (ingredient r) _ Hrow eq_refl)
    as (row' & Hfind).
  rewrite Hfind. f_equal.
  destruct (find_name nutritionDB _ _ Hfind) as [Hin' Hname'].
  unfold nutritionDB in Hin'. apply in_map_iff in Hin' as (r' & <- & Hr').
  f_equal. cbn [writtenRow IngredientMapper.ingredient] in Hname'.
  exact (NoDup_map_inj ingredient _ r' r Hnodup Hr' Hr Hname').
Qed.

End Script.

Section ScriptOnSamples.
Import ProcessNutritionData.

Lemma table_is_read_back_as_written_witness :
  (forall x, plainCell (Sample.numberToString x) = true)
  /\ (forall row, In row Sample.results -> plainCell (ingredient row) = true)
  /\ map IngredientMapper.rowOfObject
       (IngredientMapper.loadNutritionDBSync
          (Some (csvContent Sample.numberToString Sample.results)))
     = map (fun row => Some (writtenRow Sample.numberToString row)) Sample.results.
Proof.
  assert (H1 : forall x, plainCell (Sample.numberToString x) = true).
  { intros x. unfold Sample.numberToString.
    destruct (isNaN x); [reflexivity|]. destruct (truthy x); reflexivity. }
  assert (H2 : forall row, In row Sample.results ->
                 plainCell (ingredient row) = true).
  { intros row [<-|[]]. reflexivity. }
  split; [exact H1|]. split; [exact H2|].
  exact (table_is_read_back_as_written Sample.numberToString H1 Sample.results H2).
Defined.

Lemma generated_rows_resolve_to_themselves_witness :
  (forall x, plainCell (Sample.numberToString x) = true)
  /\ forall row,
       In row (map (writtenRow Sample.numberToString)
                 (processRows Sample.source)) ->
       IngredientMapper.getNutritionData
         (map (writtenRow Sample.numberToString)
            (processRows Sample.source))
         Sample.synonyms None (IngredientMapper.ingredient row)
       = Some row.
Proof.
  assert (H1 : forall x, plainCell (Sample.numberToString x) = true).
  { intros x. unfold Sample.numberToString.
    destruct (isNaN x); [reflexivity|]. destruct (truthy x); reflexivity. }
  split; [exact H1|]. intros row Hrow.
  exact (proj2 (proj2 (generated_rows_resolve_to_themselves
                         Sample.numberToString H1 _ Sample.synonyms None)
                  row Hrow)).
Defined.

End ScriptOnSamples.

(* ===================================================================== *)
(** ** The text generator and partial matches *)
(* ===================================================================== *)

Section LastResort.
Import IngredientMapper FetcherFacts.
Variable nutritionDB : list NutritionRow.
Variable ingredientSynonyms : gmap string string.
Variable aiModel : option (string -> list string -> outcome string).

(** X26. The text generator is the last resort of
    [standardizeIngredientName]. A name that resolves without a generator
    resolves to the same row name with any generator, whatever it would
    answer. The generator is consulted only for a name that is not empty,
    does not clean to the empty string and matches no row, and it is then
    given the name as it was passed in, not the cleaned one. *)
Theorem generator_is_the_last_resort ingredientName :
  standardizeIngredientName nutritionDB ingredientSynonyms aiModel
    ingredientName
  = match standardizeIngredientName nutritionDB ingredientSynonyms None
            ingredientName with
    | Some standardName => Some standardName
    | None =>
        if String.eqb ingredientName ""
           || String.eqb (trim (preprocessIngredientName ingredientName)) ""
        then None
        else getAiAssistedMatch nutritionDB aiModel ingredientName
    end.
Proof.
  unfold standardizeIngredientName.
  destruct (String.eqb ingredientName ""); [reflexivity|].
  cbv zeta. cbn [orb].
  destruct (String.eqb (trim (preprocessIngredientName ingredientName)) "");
    [reflexivity|].
  destruct (found _ _); [reflexivity|].
  destruct (found _ _); [reflexivity|].
  match goal with
  | |- match ?v with _ => _ end = _ => destruct v; [reflexivity|]
  end.
  destruct (findAllInNutritionDB _ _) as [|m ms]; [reflexivity|].
  destruct (find _ _); [reflexivity|].
  destruct (find _ _); [reflexivity|].
  cbn [sortByLength fold_right].
  destruct (insertByLength m _) eqn:E; [|reflexivity].
  now apply insertByLength_cons in E.
Qed.

(** X27. [findPartialMatch] returns the name of the first row of the table
    whose name holds the given name or is held by it, and [null] exactly
    when no row is so; for the empty name it returns the name of the first
    row of the table, whatever that row is. *)
Theorem partial_match_is_the_first_overlap ingredientName :
  match findPartialMatch nutritionDB ingredientName with
  | Some s =>
      exists before row after,
        nutritionDB = (before ++ row :: after)%list
        /\ ingredient row = s
        /\ overlap (ingredient row) ingredientName
        /\ forall r, In r before -> ~ overlap (ingredient r) ingredientName
  | None =>
      forall row, In row nutritionDB -> ~ overlap (ingredient row) ingredientName
  end
  /\ findPartialMatch nutritionDB "" = option_map ingredient (head nutritionDB).
Proof.
  split.
  - unfold findPartialMatch.
    destruct (find _ nutritionDB) as [row|] eqn:E.
    + apply find_first in E as (before & after & Hdb & Hrow & Hbefore).
      exists before, row, after. split; [exact Hdb|]. split; [reflexivity|].
      split; [now apply includes_either|].
      intros r Hr Ho. apply includes_either in Ho.
      specialize (Hbefore r Hr). cbv beta in Hbefore. congruence.
    + intros row Hin Ho. apply includes_either in Ho.
      pose proof (find_none _ _ E row Hin) as Hf. cbv beta in Hf. congruence.
  - unfold findPartialMatch. destruct nutritionDB as [|row rest];
      [reflexivity|].
    cbn [find head option_map]. now rewrite includes_nothing.
Qed.

End LastResort.
(* ===================================================================== *)
(** ** Validation *)
(* ===================================================================== *)

Section Weights.
Import NutritionCalculator ErrorHandler.

(** X18. The validated total weight is a weight above zero and of at most
    5000, whatever number is given: a weight that is zero, negative or
    [NaN] is replaced by the default of the dish type, or by 700, and a
    weight above 5000 by 5000. The one exception is a dish type that is the
    name of a property that every object inherits, such as
    ["constructor"]: for a weight that is not valid the result is then
    that property and no number. *)
Theorem validated_weight_is_in_range totalWeight dishType :
  if (negb (truthy totalWeight) || Num.le totalWeight zero)
     && existsb (String.eqb dishType) inheritedNames
  then validateTotalWeight totalWeight dishType = JObj
  else exists g,
         validateTotalWeight totalWeight dishType = JNum g
         /\ Num.lt zero g = true /\ Num.le g (ofZ 5000) = true.
Proof.
  unfold validateTotalWeight.
  destruct (negb (truthy totalWeight) || Num.le totalWeight zero) eqn:E.
  - cbn [andb].
    destruct (existsb (String.eqb dishType) inheritedNames) eqn:Ei.
    + destruct (defaultWeights !! dishType) as [w|] eqn:Ew; [|reflexivity].
      exfalso. apply existsb_exists in Ei as (x & Hin & Hx).
      apply String.eqb_eq in Hx. subst x.
      cbn in Hin.
      repeat (destruct Hin as [<-|Hin]; [vm_compute in Ew; discriminate|]).
      exact Hin.
    + destruct (defaultWeights !! dishType) as [w|] eqn:Ew.
      * exists w. split; [reflexivity|].
        pose proof (allEntries_lookup _ _ _ _ defaultWeights_in_range Ew) as H.
        now apply andb_true_iff in H.
      * exists (ofZ 700). repeat split; vm_compute; reflexivity.
  - cbn [andb]. apply orb_false_iff in E as [Et El].
    apply negb_false_iff in Et.
    destruct (Num.gt totalWeight (ofZ 5000)) eqn:Eg.
    + exists (ofZ 5000). repeat split; vm_compute; reflexivity.
    + exists totalWeight. split; [reflexivity|]. split.
      * now apply not_le_zero_positive.
      * apply not_gt_le; [now apply truthy_not_nan | reflexivity | exact Eg].
Qed.

(** X19. After [validateNutritionValues] no value is above its cap
    (1000 for calories, 100 for protein, 200 for carbs, 100 for fat) and no
    value is below zero, and validating a second time changes nothing. *)
Theorem validated_values_are_in_range n :
  let v := validateNutritionValues n in
  Num.gt (calories v) (ofZ 1000) = false /\ Num.lt (calories v) zero = false
  /\ Num.gt (protein v) (ofZ 100) = false /\ Num.lt (protein v) zero = false
  /\ Num.gt (carbs v) (ofZ 200) = false /\ Num.lt (carbs v) zero = false
  /\ Num.gt (fat v) (ofZ 100) = false /\ Num.lt (fat v) zero = false
  /\ Num.lt (fiber v) zero = false
  /\ validateNutritionValues v = v.
Proof.
  intros v. subst v.
  assert (H : let v := validateNutritionValues n in
              Num.gt (calories v) (ofZ 1000) = false
              /\ Num.lt (calories v) zero = false
              /\ Num.gt (protein v) (ofZ 100) = false
              /\ Num.lt (protein v) zero = false
              /\ Num.gt (carbs v) (ofZ 200) = false
              /\ Num.lt (carbs v) zero = false
              /\ Num.gt (fat v) (ofZ 100) = false
              /\ Num.lt (fat v) zero = false
              /\ Num.lt (fiber v) zero = false).
  { rewrite validated_fields. cbn [calories protein carbs fat fiber].
    split; [now apply capped_first|].
    split; [apply negToZero_not_negative|].
    split; [now apply capped_last|]. split; [now apply capped_last|].
    split; [now apply capped_last|]. split; [now apply capped_last|].
    split; [now apply capped_last|]. split; [now apply capped_last|].
    apply negToZero_not_negative. }
  cbv zeta in H. destruct H as (H1 & H2 & H3 & H4 & H5 & H6 & H7 & H8 & H9).
  repeat (split; [assumption|]).
  now apply validated_fixed.
Qed.
End Weights.

(* ===================================================================== *)
(** ** Servings *)
(* ===================================================================== *)

Section Servings.
Import IngredientMapper NutritionCalculator.
#[local] Open Scope list_scope.
Variable getNutritionData : string -> outcome (option NutritionRow).
Variable hm : HouseholdMeasurements.

(** X20. No field of what [calculatePerServing] returns is [NaN], whatever
    the totals, the total weight and the dish type are, and whatever the
    conversion table holds. *)
Theorem serving_is_never_nan totalNutrition totalWeight dishType :
  let r := calculatePerServing hm totalNutrition totalWeight dishType in
  isNaN (serving_size_g r) = false /\ isNaN (s_calories r) = false
  /\ isNaN (s_protein r) = false /\ isNaN (s_carbs r) = false
  /\ isNaN (s_fat r) = false /\ isNaN (s_fiber r) = false.
Proof.
  unfold calculatePerServing.
  destruct (getProperty (foodTypes hm) dishType) as [entry| |]; cbv zeta.
  - unfold validatePerServing.
    cbn [serving_size_g s_calories s_protein s_carbs s_fat s_fiber].
    repeat split; apply nanToZero_not_nan.
  - unfold validatePerServing.
    cbn [serving_size_g s_calories s_protein s_carbs s_fat s_fiber].
    repeat split; apply nanToZero_not_nan.
  - unfold scaled, roundedCalories, roundedTenth.
    cbn [serving_size_g s_calories s_protein s_carbs s_fat s_fiber].
    repeat split; apply or_zero_not_nan.
Qed.


End Servings.


(* ===================================================================== *)
(** ** Dish names *)
(* ===================================================================== *)

Section DishNames.

(** X22. The two validators of dish names accept the same names. The one of
    the calculator accepts a name exactly when it has at least three
    characters, at least one letter, and nothing but letters, white space
    and the marks [-',.()]; the one of the classifier is the same test on
    the trimmed name. *)
Theorem dish_name_validators s :
  NutritionCalculator.isValidDishName s = validName s
  /\ DishClassifier.isValidDishName (JStr s) = validName (trim s)
  /\ DishClassifier.isValidDishName (JStr s)
     = NutritionCalculator.isValidDishName (trim s).
Proof.
  split; [apply calculator_validName|]. split; [apply classifier_validName|].
  now rewrite classifier_validName, calculator_validName.
Qed.


End DishNames.

(* ===================================================================== *)
(** ** Servings and the known dishes *)
(* ===================================================================== *)

Section Estimates.
Import IngredientMapper NutritionCalculator AmountFacts WeightFacts.
Variable getNutritionData : string -> outcome (option NutritionRow).
Variable hm : HouseholdMeasurements.


End Estimates.


Section KnownDishes.
Import RecipeFetcher FetcherFacts.
Variable dummyRecipeNames : list string.

(** X25. Without a text generator a dish name is known exactly when it is
    not empty and, lower-cased and trimmed, holds the name of a stored
    recipe or of a common dish, or is held by one. A name of white space
    only, which cleans to the empty string, is therefore known, whatever
    recipes are stored. *)
Theorem known_dish_is_an_overlap_test (s : string) :
  (isValidKnownDish dummyRecipeNames (JStr s) = true
   <-> s <> ""
       /\ exists dish,
            (In dish dummyRecipeNames \/ In dish commonDishes)
            /\ overlap dish (trim (toLowerCase s)))
  /\ (if String.eqb s "" then
        isValidKnownDish dummyRecipeNames (JStr s) = false
      else if String.eqb (trim (toLowerCase s)) "" then
        isValidKnownDish dummyRecipeNames (JStr s) = true
      else True).
Proof.
  assert (Hiff : isValidKnownDish dummyRecipeNames (JStr s) = true
   <-> s <> ""
       /\ exists dish,
            (In dish dummyRecipeNames \/ In dish commonDishes)
            /\ overlap dish (trim (toLowerCase s))).
  { unfold isValidKnownDish.
    destruct (String.eqb s "") eqn:E.
    - apply String.eqb_eq in E. split; [discriminate|]. now intros [H _].
    - apply String.eqb_neq in E. cbv zeta. rewrite existsb_exists. split.
      + intros (dish & Hin & H). split; [exact E|]. exists dish.
        split; [now apply knownDishes_In|now apply includes_either].
      + intros (_ & dish & Hin & H). exists dish.
        split; [now apply knownDishes_In|now apply includes_either]. }
  split; [exact Hiff|].
  destruct (String.eqb s "") eqn:E.
  - apply String.eqb_eq in E. now subst s.
  - destruct (String.eqb (trim (toLowerCase s)) "") eqn:Eb; [|exact I].
    apply String.eqb_eq in Eb. apply String.eqb_neq in E.
    apply Hiff. split; [exact E|]. exists "aloo gobi".
    split; [right; now left|]. left. rewrite Eb. now exists "", "aloo gobi".
Qed.

End KnownDishes.
